(** * The VMAF element of gst-plugins-bad: frame hand-off, worker lifecycle
      and report emission

    The element compares a reference stream with every other sink stream.
    Each comparison stream has one [GstVmafThreadHelper]; a [GstTask] runs
    [vmaf_thread_call], which calls [RunVMAF]; the scoring engine pulls
    frames through the callback [read_frame]; the streaming thread pushes
    them from [compare_frames], called by [gst_vmaf_aggregate_frames].

    The C functions are written as programs of a small command monad whose
    commands are the primitive operations the C code performs on the shared
    helper array (mutex operations, field loads and stores, task control,
    console and file output).  The programs are run by a two-level
    semantics: [exec] runs one thread alone and stops at a mutex that is
    held; [mstep] interleaves the streaming thread with the worker
    threads. *)

From Stdlib Require Import ZArith List Ascii String Bool Lia Floats DecimalString.
From stdpp Require Import base option list.
Import ListNotations.
Open Scope Z_scope.

(** ** Data model (vmaf.h, libvmaf_wrapper.h) *)

(** [gdouble]. *)
Definition double : Type := PrimFloat.float.

(** C truth value of a [double] used as a condition: [if (x)]. *)
Definition double_true (x : double) : bool := negb (PrimFloat.eqb x 0%float).

Inductive GstVmafLogFmtEnum : Type :=
| JSON_LOG_FMT.

Inductive GstVmafPoolMethodEnum : Type :=
| MIN_POOL_METHOD
| MEAN_POOL_METHOD
| HARMONIC_MEAN_POOL_METHOD.

Definition pool_method_index (m : GstVmafPoolMethodEnum) : nat :=
  match m with
  | MIN_POOL_METHOD => 0%nat
  | MEAN_POOL_METHOD => 1%nat
  | HARMONIC_MEAN_POOL_METHOD => 2%nat
  end.

(** [static const char *VmafPoolMethodNames[]] of the wrapper. *)
Definition VmafPoolMethodNames : list string :=
  ["min"%string; "mean"%string; "harmonic_mean"%string].

Definition pool_method_name (m : GstVmafPoolMethodEnum) : string :=
  nth (pool_method_index m) VmafPoolMethodNames ""%string.

(** The settings part of [struct _GstVmaf]. *)
Record GstVmaf : Type := {
  model_path : string;
  log_path : option string;            (* NULL is [None] *)
  log_fmt : GstVmafLogFmtEnum;
  vmaf_config_disable_clip : bool;
  vmaf_config_enable_transform : bool;
  vmaf_config_phone_model : bool;
  vmaf_config_psnr : bool;
  vmaf_config_ssim : bool;
  vmaf_config_ms_ssim : bool;
  pool_method : GstVmafPoolMethodEnum;
  num_threads : Z;
  subsample : Z;
  vmaf_config_conf_int : bool
}.

(** [gst_vmaf_init]: the defaults. *)
Definition DEFAULT_MODEL_PATH : string := "/usr/local/share/model/vmaf_v0.6.1.pkl".

Definition gst_vmaf_init : GstVmaf := {|
  model_path := DEFAULT_MODEL_PATH;
  log_path := None;
  log_fmt := JSON_LOG_FMT;
  vmaf_config_disable_clip := false;
  vmaf_config_enable_transform := false;
  vmaf_config_phone_model := false;
  vmaf_config_psnr := false;
  vmaf_config_ssim := false;
  vmaf_config_ms_ssim := false;
  pool_method := MEAN_POOL_METHOD;
  num_threads := 0;
  subsample := 1;
  vmaf_config_conf_int := false
|}.

Inductive GstTaskState : Type :=
| GST_TASK_STARTED
| GST_TASK_STOPPED
| GST_TASK_PAUSED.

(** The part of a [GstTask] the element relies on: its state, whether its
    thread is running, and (a ghost counter) how often [gst_task_start] was
    called on it. *)
Record GstTask : Type := {
  task_state : GstTaskState;
  task_running : bool;
  task_starts : nat
}.

(** [gst_task_new]: stopped, no thread. *)
Definition gst_task_new : GstTask :=
  {| task_state := GST_TASK_STOPPED; task_running := false; task_starts := 0 |}.

(** A [GMutex] used as a binary signal: [true] is locked. *)
Definition GMutex : Type := bool.

(** Mapped pixel data: [guint8 *]; [None] is NULL. *)
Definition pixels : Type := option (list Z).

Record GstVmafThreadHelper : Type := {
  vmaf_thread : GstTask;
  wait_frame : GMutex;
  wait_reading_complete : GMutex;
  check_error : GMutex;
  no_frames : bool;
  reading_correct : bool;
  score : double;
  error : Z;
  sink_index : Z;
  original_ptr : pixels;
  distorted_ptr : pixels;
  frame_height : Z;
  frame_width : Z;
  y10bit : bool
}.

Inductive mutex : Type :=
| m_wait_frame
| m_wait_reading_complete
| m_check_error.

Definition mutex_locked (m : mutex) (h : GstVmafThreadHelper) : bool :=
  match m with
  | m_wait_frame => wait_frame h
  | m_wait_reading_complete => wait_reading_complete h
  | m_check_error => check_error h
  end.

(** Field assignments [helper->f = v]. *)
Inductive update : Type :=
| set_no_frames (b : bool)
| set_reading_correct (b : bool)
| set_score (d : double)
| set_error (e : Z)
| set_original_ptr (p : pixels)
| set_distorted_ptr (p : pixels)
| set_frame_height (z : Z)
| set_frame_width (z : Z).

Definition with_task (t : GstTask) (h : GstVmafThreadHelper) : GstVmafThreadHelper :=
  {| vmaf_thread := t; wait_frame := wait_frame h;
     wait_reading_complete := wait_reading_complete h;
     check_error := check_error h; no_frames := no_frames h;
     reading_correct := reading_correct h; score := score h; error := error h;
     sink_index := sink_index h; original_ptr := original_ptr h;
     distorted_ptr := distorted_ptr h; frame_height := frame_height h;
     frame_width := frame_width h; y10bit := y10bit h |}.

Definition with_mutex (m : mutex) (b : bool) (h : GstVmafThreadHelper)
  : GstVmafThreadHelper :=
  {| vmaf_thread := vmaf_thread h;
     wait_frame := match m with m_wait_frame => b | _ => wait_frame h end;
     wait_reading_complete :=
       match m with m_wait_reading_complete => b | _ => wait_reading_complete h end;
     check_error := match m with m_check_error => b | _ => check_error h end;
     no_frames := no_frames h;
     reading_correct := reading_correct h; score := score h; error := error h;
     sink_index := sink_index h; original_ptr := original_ptr h;
     distorted_ptr := distorted_ptr h; frame_height := frame_height h;
     frame_width := frame_width h; y10bit := y10bit h |}.

Definition apply_update (u : update) (h : GstVmafThreadHelper)
  : GstVmafThreadHelper :=
  {| vmaf_thread := vmaf_thread h; wait_frame := wait_frame h;
     wait_reading_complete := wait_reading_complete h;
     check_error := check_error h;
     no_frames := match u with set_no_frames b => b | _ => no_frames h end;
     reading_correct :=
       match u with set_reading_correct b => b | _ => reading_correct h end;
     score := match u with set_score d => d | _ => score h end;
     error := match u with set_error e => e | _ => error h end;
     sink_index := sink_index h;
     original_ptr := match u with set_original_ptr p => p | _ => original_ptr h end;
     distorted_ptr :=
       match u with set_distorted_ptr p => p | _ => distorted_ptr h end;
     frame_height := match u with set_frame_height z => z | _ => frame_height h end;
     frame_width := match u with set_frame_width z => z | _ => frame_width h end;
     y10bit := y10bit h |}.

(** A video frame as the element sees it: negotiated geometry and the
    mapped buffer. *)
Record GstVideoFrame : Type := {
  info_width : Z;
  info_height : Z;
  buffer : list Z
}.

(** *** The scoring engine's interface (libvmaf) *)

Inductive ScoreAggregateMethod : Type :=
| MINIMUM
| MEAN
| HARMONIC_MEAN.

(** libvmaf's [Result]: the per-frame series of every key, in key order, and
    the engine's own pooling of a series (its numerics are the engine's). *)
Record Result : Type := {
  result_scores : list (string * list double);
  result_pooled : ScoreAggregateMethod -> list double -> double;
  result_method : ScoreAggregateMethod
}.

Definition setScoreAggregateMethod (m : ScoreAggregateMethod) (r : Result) : Result :=
  {| result_scores := result_scores r; result_pooled := result_pooled r;
     result_method := m |}.

Definition get_keys (r : Result) : list string := map fst (result_scores r).

Fixpoint find_scores (key : string) (l : list (string * list double))
  : option (list double) :=
  match l with
  | [] => None
  | (k, v) :: l' => if String.eqb key k then Some v else find_scores key l'
  end.

Definition has_scores (r : Result) (key : string) : bool :=
  match find_scores key (result_scores r) with Some _ => true | None => false end.

Definition get_scores (r : Result) (key : string) : list double :=
  match find_scores key (result_scores r) with Some v => v | None => [] end.

Definition get_score (r : Result) (key : string) : double :=
  result_pooled r (result_method r) (get_scores r key).

(** The exceptions [RunVMAF] distinguishes. *)
Inductive exception : Type :=
| runtime_error (what : string)
| logic_error (what : string)
| std_exception (what : string)
| unknown_exception.

Inductive engine_outcome : Type :=
| Returned (r : Result)
| Thrown (e : exception).

(** *** Output *)

(** One formatted item of console or file output: a literal, an integer
    ([%d], [%u], [<<] of an integer), a double ([%f], [<<] of a double) or
    [std::endl]. *)
Inductive tok : Type :=
| TStr (s : string)
| TInt (z : Z)
| TDouble (d : double)
| TEndl.

Definition nl : string := String (Ascii.ascii_of_nat 10) EmptyString.




(** ** The state shared by the threads *)

Record world : Type := {
  self : GstVmaf;
  helper_struct_pointer : list GstVmafThreadHelper;
  stdout : list (list tok);        (* one entry per printf, in order *)
  files : list (string * list tok);(* path and contents, most recent first *)
  bus : list Z;                    (* time of every posted message *)
  outbuf : list Z;
  number_of_vmaf_threads : Z
}.

Definition with_helpers (l : list GstVmafThreadHelper) (w : world) : world :=
  {| self := self w; helper_struct_pointer := l; stdout := stdout w;
     files := files w; bus := bus w; outbuf := outbuf w;
     number_of_vmaf_threads := number_of_vmaf_threads w |}.

Definition with_stdout (o : list (list tok)) (w : world) : world :=
  {| self := self w; helper_struct_pointer := helper_struct_pointer w;
     stdout := o; files := files w; bus := bus w; outbuf := outbuf w;
     number_of_vmaf_threads := number_of_vmaf_threads w |}.

Definition with_files (f : list (string * list tok)) (w : world) : world :=
  {| self := self w; helper_struct_pointer := helper_struct_pointer w;
     stdout := stdout w; files := f; bus := bus w; outbuf := outbuf w;
     number_of_vmaf_threads := number_of_vmaf_threads w |}.

Definition with_bus (b : list Z) (w : world) : world :=
  {| self := self w; helper_struct_pointer := helper_struct_pointer w;
     stdout := stdout w; files := files w; bus := b; outbuf := outbuf w;
     number_of_vmaf_threads := number_of_vmaf_threads w |}.

Definition with_outbuf (b : list Z) (w : world) : world :=
  {| self := self w; helper_struct_pointer := helper_struct_pointer w;
     stdout := stdout w; files := files w; bus := bus w; outbuf := b;
     number_of_vmaf_threads := number_of_vmaf_threads w |}.

Definition with_number (n : Z) (w : world) : world :=
  {| self := self w; helper_struct_pointer := helper_struct_pointer w;
     stdout := stdout w; files := files w; bus := bus w; outbuf := outbuf w;
     number_of_vmaf_threads := n |}.

Definition helper (w : world) (i : nat) : option GstVmafThreadHelper :=
  helper_struct_pointer w !! i.

Definition set_helper (i : nat) (h : GstVmafThreadHelper) (w : world) : world :=
  with_helpers (<[i := h]> (helper_struct_pointer w)) w.

(** ** Commands *)

(** Ghost markers: entry to and return from a dispatch. *)
Inductive marker : Type :=
| call_compare_frames (stream_index : nat)
| ret_compare_frames (stream_index : nat) (result : bool).

(** The arguments of [runner_ptr->run] and of the runner's construction. *)
Record run_args : Type := {
  asset_width : Z;
  asset_height : Z;
  asset_fmt : string;
  run_model_path : string;
  run_conf_int : bool;
  run_disable_clip : bool;
  run_enable_transform : bool;
  run_psnr : bool;
  run_ssim : bool;
  run_ms_ssim : bool;
  run_n_thread : Z;
  run_n_subsample : Z
}.

Inductive action : Type :=
| MutexLock (i : nat) (m : mutex)
| MutexTrylock (i : nat) (m : mutex)
| MutexUnlock (i : nat) (m : mutex)
| Load (i : nat)
| Store (i : nat) (u : update)
| TaskStart (i : nat)
| TaskGetState (i : nat)
| TaskStop (i : nat)
| TaskWait (i : nat)
| Printf (l : list tok)
| RunnerRun (i : nat) (args : run_args)
| WriteFloat (main : bool) (off : Z) (v : Z)
| WriteOut (data : list Z)
| PostMessage (time : Z)
| OfstreamOpen (path : string)
| OfstreamWrite (t : tok)
| SetHelpers (n : Z) (l : list GstVmafThreadHelper)
| FreeHelpers
| LoadSelf
| LoadNumber
| Abort
| Note (e : marker).

Definition answer (a : action) : Type :=
  match a with
  | MutexTrylock _ _ => bool
  | Load _ => GstVmafThreadHelper
  | TaskGetState _ => GstTaskState
  | TaskStop _ => bool
  | RunnerRun _ _ => engine_outcome
  | LoadSelf => GstVmaf
  | LoadNumber => Z
  | Abort => Empty_set
  | _ => unit
  end.

Inductive prog (A : Type) : Type :=
| Ret (a : A)
| Act (a : action) (k : answer a -> prog A).

Arguments Ret {A} a.
Arguments Act {A} a k.

Fixpoint bind {A B : Type} (p : prog A) (f : A -> prog B) : prog B :=
  match p with
  | Ret a => f a
  | Act a k => Act a (fun x => bind (k x) f)
  end.

#[global] Instance prog_ret : MRet prog := @Ret.
#[global] Instance prog_bind : MBind prog := fun A B f p => bind p f.

Definition act (a : action) : prog (answer a) := Act a Ret.

(** [for (i = 0; i < n; i++) body i]. *)
Fixpoint for_loop (n : nat) (i : nat) (body : nat -> prog unit) : prog unit :=
  match n with
  | O => Ret tt
  | S n' => body i ;; for_loop n' (S i) body
  end.

(** ** The element's functions (vmaf.c) *)

Definition g_mutex_lock (i : nat) (m : mutex) : prog unit := act (MutexLock i m).
Definition g_mutex_trylock (i : nat) (m : mutex) : prog bool := act (MutexTrylock i m).
Definition g_mutex_unlock (i : nat) (m : mutex) : prog unit := act (MutexUnlock i m).
Definition load (i : nat) : prog GstVmafThreadHelper := act (Load i).
Definition store (i : nat) (u : update) : prog unit := act (Store i u).
Definition printf (l : list tok) : prog unit := act (Printf l).
Definition gst_task_start (i : nat) : prog unit := act (TaskStart i).
Definition gst_task_get_state (i : nat) : prog GstTaskState := act (TaskGetState i).
Definition gst_task_stop (i : nat) : prog bool := act (TaskStop i).

(** [gst_task_join]: stops the task, then waits until its thread has left
    the task loop. *)
Definition gst_task_join (i : nat) : prog bool :=
  act (TaskStop i) ;; act (TaskWait i) ;; Ret true.

(** [p[idx]] on mapped pixel data (reading outside the mapping, or through
    NULL, is undefined in C; the model reads 0 there). *)
Definition pixel_at (p : pixels) (idx : Z) : Z :=
  match p with
  | Some l => nth (Z.to_nat idx) l 0
  | None => 0
  end.

(** One row of the copy loop of [read_frame]: [j] runs over the columns. *)
Definition read_frame_row (h : nat) (width : Z) (row_off : Z) (i : nat) : prog unit :=
  for_loop (Z.to_nat width) 0 (fun j =>
    hp ← load h;
    act (WriteFloat false (row_off + Z.of_nat j)
           (pixel_at (original_ptr hp) (Z.of_nat i * width + Z.of_nat j))) ;;
    act (WriteFloat true (row_off + Z.of_nat j)
           (pixel_at (distorted_ptr hp) (Z.of_nat i * width + Z.of_nat j)))).

(** [read_frame (ref_data, main_data, temp_data, stride, h)]: the pull
    callback.  [ref_ptr] and [main_ptr] advance by [stride / sizeof (float)]
    per row; the loop bounds are the helper's geometry (read at loop
    entry; it is fixed once the task has been started). *)
Definition read_frame (stride : Z) (h : nat) : prog Z :=
  g_mutex_lock h m_wait_frame ;;
  hp ← load h;
  if negb (no_frames hp) then
    for_loop (Z.to_nat (frame_height hp)) 0 (fun i =>
      read_frame_row h (frame_width hp) (Z.of_nat i * (stride / 4)) i) ;;
    store h (set_reading_correct true) ;;
    g_mutex_unlock h m_wait_reading_complete ;;
    Ret 0
  else
    store h (set_reading_correct false) ;;
    Ret 2.

Definition GstTaskState_eqb (a b : GstTaskState) : bool :=
  match a, b with
  | GST_TASK_STARTED, GST_TASK_STARTED => true
  | GST_TASK_STOPPED, GST_TASK_STOPPED => true
  | GST_TASK_PAUSED, GST_TASK_PAUSED => true
  | _, _ => false
  end.

Definition try_thread_stop (i : nat) : prog bool :=
  task_state ← gst_task_get_state i;
  if GstTaskState_eqb task_state GST_TASK_STARTED then gst_task_stop i
  else Ret true.

(** The first statement of [compare_frames]: while no geometry is recorded
    for the stream, record the reference frame's and start the task. *)
Definition start_on_first_frame (ref : GstVideoFrame) (stream_index : nat)
  : prog unit :=
  hp ← load stream_index;
  if (frame_width hp =? 0) || (frame_height hp =? 0) then
    store stream_index (set_frame_width (info_width ref)) ;;
    store stream_index (set_frame_height (info_height ref)) ;;
    gst_task_start stream_index
  else Ret tt.

(** The rest of [compare_frames]: the error check and the hand-over of the
    frame pair ([gst_buffer_map] and [gst_buffer_unmap] leave the shared
    state alone and are not shown; [ref_info.data] is [buffer ref]). *)
Definition hand_over_frame (ref cmp : GstVideoFrame) (stream_index : nat)
  : prog bool :=
  (* Check that thread is waiting *)
  g_mutex_lock stream_index m_check_error ;;
  hp ← load stream_index;
  if negb (error hp =? 0) then
    try_thread_stop stream_index ;;
    Ret false
  else
    g_mutex_unlock stream_index m_check_error ;;
    store stream_index (set_reading_correct false) ;;
    (* Run reading *)
    store stream_index (set_original_ptr (Some (buffer ref))) ;;
    store stream_index (set_distorted_ptr (Some (buffer cmp))) ;;
    g_mutex_unlock stream_index m_wait_frame ;;
    g_mutex_lock stream_index m_wait_reading_complete ;;
    hp ← load stream_index;
    if reading_correct hp then
      act (WriteOut (buffer ref)) ;;
      Ret true
    else
      g_mutex_lock stream_index m_check_error ;;
      hp ← load stream_index;
      (if negb (error hp =? 0) then try_thread_stop stream_index ;; Ret tt
       else Ret tt) ;;
      g_mutex_unlock stream_index m_check_error ;;
      Ret false.

(** The body of [compare_frames]. *)
Definition compare_frames_body (ref cmp : GstVideoFrame) (stream_index : nat)
  : prog bool :=
  start_on_first_frame ref stream_index ;;
  hand_over_frame ref cmp stream_index.

(** [compare_frames], with the ghost markers of its entry and return. *)
Definition compare_frames (ref cmp : GstVideoFrame) (stream_index : nat)
  : prog bool :=
  act (Note (call_compare_frames stream_index)) ;;
  result ← compare_frames_body ref cmp stream_index;
  act (Note (ret_compare_frames stream_index result)) ;;
  Ret result.

Inductive GstFlowReturn : Type :=
| GST_FLOW_OK
| GST_FLOW_ERROR.

(** The loop of [gst_vmaf_aggregate_frames] over [sinkpads]; a pad is given
    by its prepared frame, [None] when it has none. *)
Fixpoint aggregate_loop (l : list (option GstVideoFrame))
    (ref_frame : option GstVideoFrame) (res : bool) (stream_index : nat)
  : prog bool :=
  match l with
  | [] => Ret res
  | prepared_frame :: l' =>
      match prepared_frame with
      | Some frame =>
          match ref_frame with
          | None => aggregate_loop l' (Some frame) res stream_index
          | Some ref =>
              r ← compare_frames ref frame stream_index;
              aggregate_loop l' ref_frame (res && r) (S stream_index)
          end
      | None => aggregate_loop l' ref_frame res stream_index
      end
  end.

(** [gst_vmaf_aggregate_frames]; [position] is the source pad's segment
    position. *)
Definition gst_vmaf_aggregate_frames (sinkpads : list (option GstVideoFrame))
    (position : Z) : prog GstFlowReturn :=
  res ← aggregate_loop sinkpads None true 0;
  if negb res then Ret GST_FLOW_ERROR
  else
    act (PostMessage position) ;;
    Ret GST_FLOW_OK.

(** The helper of stream [i] as [vmaf_threads_open] initialises it: both
    signal mutexes are taken, [check_error] is free, the task is new.
    ([y10bit] is not assigned there; the model takes it as [false].) *)
Definition new_helper (i : nat) : GstVmafThreadHelper := {|
  vmaf_thread := gst_task_new;
  wait_frame := true;
  wait_reading_complete := true;
  check_error := false;
  no_frames := false;
  reading_correct := false;
  score := (-1)%float;
  error := 0;
  sink_index := Z.of_nat i;
  original_ptr := None;
  distorted_ptr := None;
  frame_height := 0;
  frame_width := 0;
  y10bit := false
|}.

Definition abort {A : Type} : prog A :=
  Act Abort (fun x : Empty_set => match x with end).

(** [vmaf_threads_open]: one helper per sink pad but the reference.
    [n_sinkpads] is [g_list_length (element->sinkpads)].  With no sink pad
    the number is -1 and the size given to [g_malloc] is
    [sizeof (GstVmafThreadHelper) * (size_t) -1], which cannot be allocated:
    [g_malloc] aborts. *)
Definition vmaf_threads_open (n_sinkpads : nat) : prog bool :=
  let number := Z.of_nat n_sinkpads - 1 in
  if number <? 0 then abort
  else
    act (SetHelpers number (map new_helper (seq 0 (Z.to_nat number)))) ;;
    Ret true.

Definition vmaf_threads_close : prog bool :=
  number ← act LoadNumber;
  for_loop (Z.to_nat number) 0 (fun i =>
    store i (set_no_frames true) ;;
    g_mutex_trylock i m_wait_frame ;;
    g_mutex_unlock i m_wait_frame) ;;
  for_loop (Z.to_nat number) 0 (fun i =>
    gst_task_join i ;; Ret tt) ;;
  act FreeHelpers ;;
  Ret true.

Inductive GstStateChange : Type :=
| GST_STATE_CHANGE_NULL_TO_READY
| GST_STATE_CHANGE_READY_TO_PAUSED
| GST_STATE_CHANGE_PAUSED_TO_PLAYING
| GST_STATE_CHANGE_PLAYING_TO_PAUSED
| GST_STATE_CHANGE_PAUSED_TO_READY
| GST_STATE_CHANGE_READY_TO_NULL.

(** [gst_vmaf_change_state]; the parent class's [change_state] does not
    touch the helpers. *)
Definition gst_vmaf_change_state (n_sinkpads : nat) (transition : GstStateChange)
  : prog unit :=
  (match transition with
   | GST_STATE_CHANGE_READY_TO_PAUSED => vmaf_threads_open n_sinkpads ;; Ret tt
   | _ => Ret tt
   end) ;;
  match transition with
  | GST_STATE_CHANGE_READY_TO_NULL => vmaf_threads_close ;; Ret tt
  | _ => Ret tt
  end.

(** ** The wrapper around the scoring engine (libvmaf_wrapper.cpp) *)

Definition dq : string := String (Ascii.ascii_of_nat 34) EmptyString.

(** [s] between double quotes. *)
Definition quoted (s : string) : string := (dq ++ s ++ dq)%string.

Definition BOOSTRAP_VMAF_MODEL_PREFIX : string := "vmaf_".

(** [s.find (sub) != std::string::npos]. *)
Definition string_contains (sub s : string) : bool :=
  match String.index 0 sub s with Some _ => true | None => false end.

Definition size_t_modulus : Z := 2 ^ 64.

(** [(size_t) a * b] where [b] is an [int]. *)
Definition size_t_mul_int (a b : Z) : Z :=
  (a * (b mod size_t_modulus)) mod size_t_modulus.

(** [(int) x] for a [guint]. *)
Definition int_of_guint (x : Z) : Z :=
  if x <? 2 ^ 31 then x else x - 2 ^ 32.

Fixpoint last_component (s acc : string) : string :=
  match s with
  | EmptyString => acc
  | String c s' =>
      if Ascii.eqb c "/"%char then last_component s' EmptyString
      else last_component s' (acc ++ String c EmptyString)%string
  end.

(** Modelled from the spec: [_get_file_name] is declared in the wrapper and
    defined elsewhere; the report's "model identity" is taken to be the last
    component of the model path. *)
Definition _get_file_name (s : string) : string := last_component s EmptyString.

Definition log_file (l : list tok) : prog unit :=
  fold_right (fun t p => act (OfstreamWrite t) ;; p) (Ret tt) l.

(** ["<metric> score (<pool>) = <value>\n"]. *)
Definition score_line (metric : string) (pool : GstVmafPoolMethodEnum) (v : double)
  : list tok :=
  [TStr (metric ++ " score (")%string; TStr (pool_method_name pool);
   TStr ") = "%string; TDouble v; TStr nl].

Definition print_if (v : double) (metric : string) (pool : GstVmafPoolMethodEnum)
  : prog unit :=
  if double_true v then printf (score_line metric pool v) else Ret tt.

(** The loop over [result_keys] that counts the bootstrap models, builds
    their comma-separated list and prints their scores. *)
Fixpoint bootstrap_loop (keys : list string) (result : Result)
    (pool : GstVmafPoolMethodEnum) (num_bootstrap_models : Z)
    (bootstrap_model_list_str : string) : prog (Z * string) :=
  match keys with
  | [] => Ret (num_bootstrap_models, bootstrap_model_list_str)
  | key :: keys' =>
      if string_contains BOOSTRAP_VMAF_MODEL_PREFIX key then
        let str :=
          if num_bootstrap_models =? 0 then
            (bootstrap_model_list_str ++ key ++ ",")%string
          else if num_bootstrap_models =? 1 then
            (bootstrap_model_list_str ++ key)%string
          else (bootstrap_model_list_str ++ "," ++ key)%string in
        printf [TStr "VMAF score ("%string; TStr (pool_method_name pool);
                TStr "), model "%string; TInt (num_bootstrap_models + 1);
                TStr " = "%string; TDouble (get_score result key); TStr nl] ;;
        bootstrap_loop keys' result pool (num_bootstrap_models + 1) str
      else bootstrap_loop keys' result pool num_bootstrap_models
             bootstrap_model_list_str
  end.

(** The ["metrics"] member of one frame record: one line per key, the value
    being [result.get_scores (key).at (i_subsampled)], which throws (and,
    uncaught, aborts) when the series is shorter. *)
Definition frame_metrics (result : Result) (result_keys : list string)
    (i_subsampled : nat) : prog unit :=
  for_loop (length result_keys) 0 (fun j =>
    let key := nth j result_keys EmptyString in
    match nth_error (get_scores result key) i_subsampled with
    | None => abort
    | Some value =>
        log_file [TStr ("        " ++ quoted key ++ ":")%string; TDouble value] ;;
        if (j =? length result_keys - 1)%nat then log_file [TEndl]
        else log_file [TStr ","%string; TEndl]
    end).

(** One element of the ["frames"] array. *)
Definition frame_record (result : Result) (result_keys : list string)
    (n_subsample : Z) (num_frames_subsampled : nat) (i_subsampled : nat)
  : prog unit :=
  log_file [TStr "    {"%string; TEndl] ;;
  log_file [TStr ("      " ++ quoted "frameNum" ++ ":")%string;
            TInt (size_t_mul_int (Z.of_nat i_subsampled) n_subsample);
            TStr ","%string; TEndl] ;;
  log_file [TStr ("      " ++ quoted "metrics" ++ ":{")%string; TEndl] ;;
  frame_metrics result result_keys i_subsampled ;;
  log_file [TStr "      }"%string; TEndl] ;;
  if (i_subsampled =? num_frames_subsampled - 1)%nat then
    log_file [TStr "    }"%string; TEndl]
  else log_file [TStr "    },"%string; TEndl].

(** The aggregate values that close the report. *)
Definition report_aggregates (aggregate_vmaf aggregate_psnr aggregate_ssim
    aggregate_ms_ssim : double) : prog unit :=
  log_file [TStr ("  " ++ quoted "VMAF score" ++ ":")%string; TDouble aggregate_vmaf] ;;
  (if double_true aggregate_psnr then
     log_file [TStr ","%string; TEndl;
               TStr ("  " ++ quoted "PSNR score" ++ ":")%string;
               TDouble aggregate_psnr]
   else Ret tt) ;;
  (if double_true aggregate_ssim then
     log_file [TStr ","%string; TEndl;
               TStr ("  " ++ quoted "SSIM score" ++ ":")%string;
               TDouble aggregate_ssim]
   else Ret tt) ;;
  (if double_true aggregate_ms_ssim then
     log_file [TStr ","%string; TEndl;
               TStr ("  " ++ quoted "MS-SSIM score" ++ ":")%string;
               TDouble aggregate_ms_ssim]
   else Ret tt) ;;
  log_file [TEndl] ;;
  log_file [TStr "}"%string; TEndl].

(** The JSON report written to [log_path]. *)
Definition write_json_log (path : string) (model : string) (width height : Z)
    (n_subsample : Z) (num_bootstrap_models : Z) (bootstrap_model_list_str : string)
    (result : Result) (result_keys : list string)
    (aggregate_vmaf aggregate_psnr aggregate_ssim aggregate_ms_ssim : double)
  : prog unit :=
  let num_frames_subsampled := length (get_scores result "vmaf") in
  act (OfstreamOpen path) ;;
  log_file [TStr "{"%string; TEndl] ;;
  log_file [TStr ("  " ++ quoted "params" ++ ":{")%string; TEndl] ;;
  log_file [TStr ("    " ++ quoted "model" ++ ":" ++ dq)%string;
            TStr (_get_file_name model); TStr (dq ++ ",")%string; TEndl] ;;
  log_file [TStr ("    " ++ quoted "scaledWidth" ++ ":")%string; TInt width;
            TStr ","%string; TEndl] ;;
  log_file [TStr ("    " ++ quoted "scaledHeight" ++ ":")%string; TInt height;
            TStr ","%string; TEndl] ;;
  log_file [TStr ("    " ++ quoted "subsample" ++ ":")%string; TInt n_subsample;
            TStr ","%string; TEndl] ;;
  log_file [TStr ("    " ++ quoted "num_bootstrap_models" ++ ":")%string;
            TInt num_bootstrap_models; TStr ","%string; TEndl] ;;
  log_file [TStr ("    " ++ quoted "bootstrap_model_list_str" ++ ":" ++ dq)%string;
            TStr bootstrap_model_list_str; TStr dq; TEndl] ;;
  log_file [TStr "  },"%string; TEndl] ;;
  log_file [TStr ("  " ++ quoted "metrics" ++ ":[")%string; TEndl] ;;
  for_loop (length result_keys) 0 (fun j =>
    log_file [TStr ("    " ++ quoted (nth j result_keys EmptyString))%string] ;;
    (if (j <? length result_keys - 1)%nat then log_file [TStr ","%string]
     else Ret tt) ;;
    log_file [TEndl]) ;;
  log_file [TStr "  ],"%string; TEndl] ;;
  log_file [TStr ("  " ++ quoted "frames" ++ ":[")%string; TEndl] ;;
  for_loop num_frames_subsampled 0
    (frame_record result result_keys n_subsample num_frames_subsampled) ;;
  log_file [TStr "  ],"%string; TEndl] ;;
  report_aggregates aggregate_vmaf aggregate_psnr aggregate_ssim aggregate_ms_ssim.

Definition aggregate_method_of (m : GstVmafPoolMethodEnum) : ScoreAggregateMethod :=
  match m with
  | MIN_POOL_METHOD => MINIMUM
  | MEAN_POOL_METHOD => MEAN
  | HARMONIC_MEAN_POOL_METHOD => HARMONIC_MEAN
  end.

(** [if (result.has_scores (key)) v = result.get_score (key)], from 0.0. *)
Definition aggregate_or_zero (result : Result) (key : string) : double :=
  if has_scores result key then get_score result key else 0%float.

(** What [RunVMAF] does once [runner_ptr->run] has returned [result0]. *)
Definition RunVMAF_finish (h : nat) (cfg : GstVmaf) (width height : Z)
    (result0 : Result) : prog Z :=
  let pool := pool_method cfg in
  let n_subsample := int_of_guint (subsample cfg) in
  let result := setScoreAggregateMethod (aggregate_method_of pool) result0 in
  let aggregate_vmaf := get_score result "vmaf" in
  store h (set_score aggregate_vmaf) ;;
  store h (set_error 0) ;;
  let result_keys := get_keys result in
  let aggregate_bagging := aggregate_or_zero result "bagging" in
  let aggregate_stddev := aggregate_or_zero result "stddev" in
  let aggregate_ci95_low := aggregate_or_zero result "ci95_low" in
  let aggregate_ci95_high := aggregate_or_zero result "ci95_high" in
  let aggregate_psnr := aggregate_or_zero result "psnr" in
  let aggregate_ssim := aggregate_or_zero result "ssim" in
  let aggregate_ms_ssim := aggregate_or_zero result "ms_ssim" in
  printf (score_line "VMAF" pool aggregate_vmaf) ;;
  print_if aggregate_bagging "Bagging" pool ;;
  print_if aggregate_stddev "StdDev" pool ;;
  print_if aggregate_ci95_low "CI95_low" pool ;;
  print_if aggregate_ci95_high "CI95_high" pool ;;
  print_if aggregate_psnr "PSNR" pool ;;
  print_if aggregate_ssim "SSIM" pool ;;
  print_if aggregate_ms_ssim "MS-SSIM" pool ;;
  '(num_bootstrap_models, bootstrap_model_list_str) ←
     bootstrap_loop result_keys result pool 0 EmptyString;
  (match log_path cfg, log_fmt cfg with
   | Some path, JSON_LOG_FMT =>
       write_json_log path (model_path cfg) width height n_subsample
         num_bootstrap_models bootstrap_model_list_str result result_keys
         aggregate_vmaf aggregate_psnr aggregate_ssim aggregate_ms_ssim
   | None, _ => Ret tt
   end) ;;
  Ret 0.

(** [RunVMAF (read_frame, user_data, thread_helper)]: the callback is the
    element's [read_frame] on the same helper; the engine calls it from
    inside [RunnerRun]. *)
Definition RunVMAF (h : nat) : prog Z :=
  hp ← load h;
  cfg ← act LoadSelf;
  let width := frame_width hp in
  let height := frame_height hp in
  let fmt := if y10bit hp then "yuv420p10le"%string else "yuv420p"%string in
  outcome ← act (RunnerRun h {|
    asset_width := width; asset_height := height; asset_fmt := fmt;
    run_model_path := model_path cfg;
    run_conf_int := vmaf_config_conf_int cfg;
    run_disable_clip := vmaf_config_disable_clip cfg;
    run_enable_transform :=
      vmaf_config_enable_transform cfg || vmaf_config_phone_model cfg;
    run_psnr := vmaf_config_psnr cfg;
    run_ssim := vmaf_config_ssim cfg;
    run_ms_ssim := vmaf_config_ms_ssim cfg;
    run_n_thread := num_threads cfg;
    run_n_subsample := int_of_guint (subsample cfg) |});
  match outcome with
  | Thrown (runtime_error what) =>
      printf [TStr "Caught runtime_error: "%string; TStr what; TStr nl] ;;
      Ret (-3)
  | Thrown (logic_error what) =>
      printf [TStr "Caught logic_error: "%string; TStr what; TStr nl] ;;
      Ret (-4)
  | Thrown (std_exception what) =>
      printf [TStr "Caught exception: "%string; TStr what; TStr nl] ;;
      Ret (-5)
  | Thrown unknown_exception =>
      printf [TStr ("Unknown exception!" ++ nl)%string] ;;
      Ret (-6)
  | Returned result => RunVMAF_finish h cfg width height result
  end.

(** What [vmaf_thread_call] does once [RunVMAF] has returned [err]. *)
Definition vmaf_thread_call_end (h : nat) (err : Z) : prog unit :=
  g_mutex_lock h m_check_error ;;
  store h (set_error err) ;;
  g_mutex_unlock h m_check_error ;;
  g_mutex_unlock h m_wait_reading_complete ;;
  hp ← load h;
  if negb (error hp =? 0) then
    printf [TStr "Error sink_"%string; TInt (sink_index hp);
            TStr ": "%string; TInt (error hp); TStr nl]
  else
    printf [TStr "VMAF sink_"%string; TInt (sink_index hp);
            TStr ": "%string; TDouble (score hp); TStr nl].

(** [vmaf_thread_call (vs)]: the task function; [vs] is the helper, [None]
    for NULL. *)
Definition vmaf_thread_call (vs : option nat) : prog unit :=
  match vs with
  | None => Ret tt
  | Some h =>
      g_mutex_lock h m_check_error ;;
      hp ← load h;
      let thread_is_stopped := negb (error hp =? 0) in
      g_mutex_unlock h m_check_error ;;
      if thread_is_stopped then Ret tt
      else
        err ← RunVMAF h;
        vmaf_thread_call_end h err
  end.

(** ** Semantics of the commands *)

Inductive step_result (X : Type) : Type :=
| Stepped (x : X) (w : world)
| Blocked
| Stuck.

Arguments Stepped {X} x w.
Arguments Blocked {X}.
Arguments Stuck {X}.

(** [gst_task_start]: the task is STARTED and its thread is (or gets)
    running. *)
Definition task_started (t : GstTask) : GstTask :=
  {| task_state := GST_TASK_STARTED; task_running := true;
     task_starts := S (task_starts t) |}.

Definition task_with_state (s : GstTaskState) (t : GstTask) : GstTask :=
  {| task_state := s; task_running := task_running t;
     task_starts := task_starts t |}.

Definition task_with_running (b : bool) (t : GstTask) : GstTask :=
  {| task_state := task_state t; task_running := b;
     task_starts := task_starts t |}.

(** A command on helper [i]: stuck when the helper does not exist. *)
Definition on_helper {X : Type} (w : world) (i : nat)
    (f : GstVmafThreadHelper -> step_result X) : step_result X :=
  match helper w i with
  | Some h => f h
  | None => Stuck
  end.

(** One command executed by a thread on the shared state.  A lock of a held
    mutex and a wait for a running task block; the engine call is not a step
    of the calling thread alone and blocks here.  The unlock of a mutex that
    is not held is stuck: [g_mutex_unlock] is undefined there and GLib's
    futex implementation aborts the process.  ([GMutex] has no owner: the
    unlock of a mutex another thread has locked is how the code signals.) *)
Definition act_sem (a : action) (w : world) : step_result (answer a) :=
  match a return step_result (answer a) with
  | MutexLock i m =>
      on_helper w i (fun h =>
        if mutex_locked m h then Blocked
        else Stepped tt (set_helper i (with_mutex m true h) w))
  | MutexTrylock i m =>
      on_helper w i (fun h =>
        if mutex_locked m h then Stepped false w
        else Stepped true (set_helper i (with_mutex m true h) w))
  | MutexUnlock i m =>
      on_helper w i (fun h =>
        if mutex_locked m h
        then Stepped tt (set_helper i (with_mutex m false h) w)
        else Stuck)
  | Load i => on_helper w i (fun h => Stepped h w)
  | Store i u =>
      on_helper w i (fun h => Stepped tt (set_helper i (apply_update u h) w))
  | TaskStart i =>
      on_helper w i (fun h =>
        Stepped tt (set_helper i (with_task (task_started (vmaf_thread h)) h) w))
  | TaskGetState i => on_helper w i (fun h => Stepped (task_state (vmaf_thread h)) w)
  | TaskStop i =>
      on_helper w i (fun h =>
        Stepped true
          (set_helper i
             (with_task (task_with_state GST_TASK_STOPPED (vmaf_thread h)) h) w))
  | TaskWait i =>
      on_helper w i (fun h =>
        if task_running (vmaf_thread h) then Blocked else Stepped tt w)
  | Printf l => Stepped tt (with_stdout (stdout w ++ [l]) w)
  | RunnerRun _ _ => Blocked
  | WriteFloat _ _ _ => Stepped tt w
  | WriteOut data =>
      Stepped tt (with_outbuf (data ++ drop (length data) (outbuf w)) w)
  | PostMessage time => Stepped tt (with_bus (bus w ++ [time]) w)
  | OfstreamOpen path => Stepped tt (with_files ((path, []) :: files w) w)
  | OfstreamWrite t =>
      match files w with
      | (path, content) :: rest =>
          Stepped tt (with_files ((path, content ++ [t]) :: rest) w)
      | [] => Stuck
      end
  | SetHelpers n l => Stepped tt (with_number n (with_helpers l w))
  | FreeHelpers => Stepped tt (with_helpers [] w)
  | LoadSelf => Stepped (self w) w
  | LoadNumber => Stepped (number_of_vmaf_threads w) w
  | Abort => Stuck
  | Note _ => Stepped tt w
  end.

(** *** One thread alone *)

Inductive outcome (A : Type) : Type :=
| Done (a : A) (w : world) (t : list action)
| BlockedAt (b : action) (k : answer b -> prog A) (w : world) (t : list action)
| Crashed (w : world) (t : list action).

Arguments Done {A} a w t.
Arguments BlockedAt {A} b k w t.
Arguments Crashed {A} w t.

Definition after {A : Type} (a : action) (o : outcome A) : outcome A :=
  match o with
  | Done r w t => Done r w (a :: t)
  | BlockedAt b k w t => BlockedAt b k w (a :: t)
  | Crashed w t => Crashed w (a :: t)
  end.

(** A command executed by a thread that runs alone.  [eng] is what the
    engine answers when it is called and calls nothing back; with [None] the
    thread stops at the engine call. *)
Definition act_sem_with (eng : option engine_outcome) (a : action) (w : world)
  : step_result (answer a) :=
  match a return step_result (answer a) with
  | RunnerRun _ _ =>
      match eng with
      | Some o => Stepped o w
      | None => Blocked
      end
  | a0 => act_sem a0 w
  end.

(** [exec eng p w] runs [p] from [w] with no other thread moving, up to its
    return or to the first command that cannot be executed; the trace lists
    the commands executed, in order. *)
Fixpoint exec {A : Type} (eng : option engine_outcome) (p : prog A) (w : world)
  : outcome A :=
  match p with
  | Ret a => Done a w []
  | Act a k =>
      match act_sem_with eng a w with
      | Stepped x w' => after a (exec eng (k x) w')
      | Blocked => BlockedAt a k w []
      | Stuck => Crashed w []
      end
  end.

Definition after_all {A : Type} (t : list action) (o : outcome A) : outcome A :=
  match o with
  | Done r w t' => Done r w (t ++ t')
  | BlockedAt b k w t' => BlockedAt b k w (t ++ t')
  | Crashed w t' => Crashed w (t ++ t')
  end.

(** The commands one row of [read_frame]'s copy loop executes. *)
Definition row_trace (h : nat) (hp : GstVmafThreadHelper) (width row_off : Z)
    (i : nat) : list action :=
  flat_map (fun j =>
    [Load h;
     WriteFloat false (row_off + Z.of_nat j)
       (pixel_at (original_ptr hp) (Z.of_nat i * width + Z.of_nat j));
     WriteFloat true (row_off + Z.of_nat j)
       (pixel_at (distorted_ptr hp) (Z.of_nat i * width + Z.of_nat j))])
    (seq 0 (Z.to_nat width)).

(** The commands of the whole copy loop: row after row. *)
Definition copy_trace (h : nat) (hp : GstVmafThreadHelper) (stride : Z)
  : list action :=
  flat_map (fun i =>
    row_trace h hp (frame_width hp) (Z.of_nat i * (stride / 4)) i)
    (seq 0 (Z.to_nat (frame_height hp))).


(** *** The threads together *)

(** What the thread of a task is doing: not yet picked up, at the head of
    the task loop, inside the task function, inside the engine (which holds
    the continuation of [RunVMAF]), inside the callback the engine called,
    or gone. *)
Inductive wthread : Type :=
| WNotSpawned
| WLoop
| WFunc (p : prog unit)
| WEngine (h : nat) (k : engine_outcome -> prog unit)
| WRead (p : prog Z) (h : nat) (k : engine_outcome -> prog unit)
| WExited.

Record config (A : Type) : Type := {
  shared : world;
  pipeline : prog A;
  plog : list action;
  workers : nat -> wthread;
  elog : list (nat * engine_outcome)
}.

Arguments shared {A} c.
Arguments pipeline {A} c.
Arguments plog {A} c.
Arguments workers {A} c.
Arguments elog {A} c.

Inductive label : Type :=
| LPipeline
| LWorker (i : nat)
| LEngineRead (i : nat) (stride : Z)
| LEngineReturn (i : nat) (r : Result)
| LEngineThrow (i : nat) (e : exception).

Definition set_worker {A : Type} (i : nat) (t : wthread) (w : world) (c : config A)
  : config A :=
  {| shared := w; pipeline := pipeline c; plog := plog c;
     workers := fun j => if (j =? i)%nat then t else workers c j;
     elog := elog c |}.

(** The engine run on helper [h] has ended with [o]. *)
Definition engine_done {A : Type} (h : nat) (o : engine_outcome) (c : config A)
  : config A :=
  {| shared := shared c; pipeline := pipeline c; plog := plog c;
     workers := workers c; elog := elog c ++ [(h, o)] |}.

(** A step of a thread inside a program: the engine call hands control to
    the engine, every other command is executed on the shared state. *)
Definition thread_act {A X : Type} (c : config A) (i : nat) (a : action)
    (k : answer a -> prog X) (resume : prog X -> wthread)
    (engine : nat -> (engine_outcome -> prog X) -> option wthread)
  : option (config A) :=
  match a as a0 return (answer a0 -> prog X) -> option (config A) with
  | RunnerRun h _ => fun k0 =>
      match engine h k0 with
      | Some t => Some (set_worker i t (shared c) c)
      | None => None
      end
  | a0 => fun k0 =>
      match act_sem a0 (shared c) with
      | Stepped x w' => Some (set_worker i (resume (k0 x)) w' c)
      | _ => None
      end
  end k.

Definition worker_task {A : Type} (c : config A) (i : nat) : option GstTask :=
  match helper (shared c) i with
  | Some h => Some (vmaf_thread h)
  | None => None
  end.

(** The task loop of [GstTask]: while the task is not STOPPED its thread
    calls the task function again; on STOPPED the thread leaves and the task
    is no longer running. *)
Definition task_loop {A : Type} (c : config A) (i : nat) : option (config A) :=
  match helper (shared c) i with
  | Some h =>
      match task_state (vmaf_thread h) with
      | GST_TASK_STARTED =>
          Some (set_worker i (WFunc (vmaf_thread_call (Some i))) (shared c) c)
      | GST_TASK_STOPPED =>
          Some (set_worker i WExited
                  (set_helper i
                     (with_task (task_with_running false (vmaf_thread h)) h)
                     (shared c)) c)
      | GST_TASK_PAUSED => None
      end
  | None => None
  end.

(** One step of the system.  The engine is free: inside [RunnerRun] it may
    call the callback, return a result or throw, at any time. *)
Definition mstep {A : Type} (l : label) (c : config A) : option (config A) :=
  match l with
  | LPipeline =>
      match pipeline c with
      | Ret _ => None
      | Act a k =>
          match act_sem a (shared c) with
          | Stepped x w' =>
              Some {| shared := w'; pipeline := k x; plog := plog c ++ [a];
                      workers := workers c; elog := elog c |}
          | _ => None
          end
      end
  | LWorker i =>
      match workers c i with
      | WNotSpawned | WExited =>
          match worker_task c i with
          | Some t =>
              if task_running t then Some (set_worker i WLoop (shared c) c)
              else None
          | None => None
          end
      | WLoop => task_loop c i
      | WFunc (Ret _) => Some (set_worker i WLoop (shared c) c)
      | WFunc (Act a k) =>
          thread_act c i a k WFunc (fun h k0 => Some (WEngine h k0))
      | WRead (Ret _) h k => Some (set_worker i (WEngine h k) (shared c) c)
      | WRead (Act a kr) h k =>
          thread_act c i a kr (fun p => WRead p h k) (fun _ _ => None)
      | WEngine _ _ => None
      end
  | LEngineRead i stride =>
      match workers c i with
      | WEngine h k =>
          Some (set_worker i (WRead (read_frame stride h) h k) (shared c) c)
      | _ => None
      end
  | LEngineReturn i r =>
      match workers c i with
      | WEngine h k =>
          Some (engine_done h (Returned r)
                  (set_worker i (WFunc (k (Returned r))) (shared c) c))
      | _ => None
      end
  | LEngineThrow i e =>
      match workers c i with
      | WEngine h k =>
          Some (engine_done h (Thrown e)
                  (set_worker i (WFunc (k (Thrown e))) (shared c) c))
      | _ => None
      end
  end.

(** A schedule is run label by label; it is refused as soon as one of its
    labels is not enabled. *)
Fixpoint mrun {A : Type} (s : list label) (c : config A) : option (config A) :=
  match s with
  | [] => Some c
  | l :: s' =>
      match mstep l c with
      | Some c' => mrun s' c'
      | None => None
      end
  end.

(** The pipeline thread has not returned and no step of any thread is
    enabled. *)
Definition deadlocked {A : Type} (c : config A) : Prop :=
  (forall a, pipeline c <> Ret a) /\ forall l, mstep l c = None.

Definition initial_world (cfg : GstVmaf) : world :=
  {| self := cfg; helper_struct_pointer := []; stdout := []; files := [];
     bus := []; outbuf := []; number_of_vmaf_threads := 0 |}.

(** The world right after [vmaf_threads_open] on [n_sinkpads] pads. *)
Definition opened_world (cfg : GstVmaf) (n_sinkpads : nat) : world :=
  match exec None (vmaf_threads_open n_sinkpads) (initial_world cfg) with
  | Done _ w _ => w
  | BlockedAt _ _ w _ => w
  | Crashed w _ => w
  end.

Definition start_config {A : Type} (w : world) (p : prog A) : config A :=
  {| shared := w; pipeline := p; plog := []; workers := fun _ => WNotSpawned;
     elog := [] |}.

(** What the streaming thread and the application thread ask of the
    element, in order. *)
Inductive pcall : Type :=
| call_change_state (n_sinkpads : nat) (transition : GstStateChange)
| call_aggregate_frames (sinkpads : list (option GstVideoFrame)) (position : Z).

Definition pcall_prog (c : pcall) : prog unit :=
  match c with
  | call_change_state n transition => gst_vmaf_change_state n transition
  | call_aggregate_frames sinkpads position =>
      gst_vmaf_aggregate_frames sinkpads position ;; Ret tt
  end.

Fixpoint pipeline_prog (l : list pcall) : prog unit :=
  match l with
  | [] => Ret tt
  | c :: l' => pcall_prog c ;; pipeline_prog l'
  end.

(** The element before any state change, about to serve [l]. *)
Definition element_config (cfg : GstVmaf) (l : list pcall) : config unit :=
  start_config (initial_world cfg) (pipeline_prog l).

(** ** Concrete scenarios *)

Definition frame_a : GstVideoFrame :=
  {| info_width := 2; info_height := 2; buffer := [1; 2; 3; 4; 5; 6] |}.

Definition frame_b : GstVideoFrame :=
  {| info_width := 2; info_height := 2; buffer := [9; 8; 7; 6; 5; 4] |}.

(** A world with the given helpers and the default settings. *)
Definition world_of (l : list GstVmafThreadHelper) : world :=
  with_number (Z.of_nat (length l)) (with_helpers l (initial_world gst_vmaf_init)).

(** Stream 0 after the streaming thread has offered [frame_a] and
    [frame_b]: geometry set, task started, [wait_frame] released. *)
Definition offered_helper : GstVmafThreadHelper := {|
  vmaf_thread := task_started gst_task_new;
  wait_frame := false;
  wait_reading_complete := true;
  check_error := false;
  no_frames := false;
  reading_correct := false;
  score := (-1)%float;
  error := 0;
  sink_index := 0;
  original_ptr := Some (buffer frame_a);
  distorted_ptr := Some (buffer frame_b);
  frame_height := 2;
  frame_width := 2;
  y10bit := false
|}.

(** Stream 0 started and idle: geometry set and task started by a first
    dispatch, both signal mutexes held, no pair offered. *)
Definition idle_helper : GstVmafThreadHelper := {|
  vmaf_thread := task_started gst_task_new;
  wait_frame := true;
  wait_reading_complete := true;
  check_error := false;
  no_frames := false;
  reading_correct := false;
  score := (-1)%float;
  error := 0;
  sink_index := 0;
  original_ptr := None;
  distorted_ptr := None;
  frame_height := 2;
  frame_width := 2;
  y10bit := false
|}.

(** ** Program properties used by the invariants *)

(** Every command [p] can reach satisfies [ok], following only the answers
    [cont] admits. *)
Fixpoint acts {A : Type} (ok : action -> Prop)
    (cont : forall a : action, answer a -> Prop) (p : prog A) : Prop :=
  match p with
  | Ret _ => True
  | Act a k => ok a /\ forall x, cont a x -> acts ok cont (k x)
  end.

Definition any_answer (a : action) (x : answer a) : Prop := True.

(** The command does not give the score of helper [i] a value other than
    the initial -1. *)
Definition keeps_score (i : nat) (a : action) : Prop :=
  match a with
  | Store j (set_score _) => j <> i
  | SetHelpers _ l => forall hp, l !! i = Some hp -> score hp = (-1)%float
  | _ => True
  end.

(** The answers of the engine's run on helper [h] that are followed: all
    but a return of the run on helper [i]. *)
Definition engine_answer_ok (i h : nat) (o : engine_outcome) : Prop :=
  match o with
  | Returned _ => h <> i
  | Thrown _ => True
  end.

Definition unless_returned (i : nat) (a : action) : answer a -> Prop :=
  match a return answer a -> Prop with
  | RunnerRun h _ => engine_answer_ok i h
  | _ => fun _ => True
  end.

(** [p] leaves the score of helper [i] alone as long as the engine's run on
    [i] has not returned. *)
Definition score_safe (i : nat) {A : Type} (p : prog A) : Prop :=
  acts (keeps_score i) (unless_returned i) p.

Definition wthread_score_safe (i : nat) (t : wthread) : Prop :=
  match t with
  | WFunc p => score_safe i p
  | WEngine h k => forall o, engine_answer_ok i h o -> score_safe i (k o)
  | WRead p h k =>
      score_safe i p /\ forall o, engine_answer_ok i h o -> score_safe i (k o)
  | _ => True
  end.

(** Helper [i] still has the initial score and no thread is about to change
    that before the engine returns. *)
Definition score_untouched (i : nat) {A : Type} (c : config A) : Prop :=
  (forall hp, helper (shared c) i = Some hp -> score hp = (-1)%float) /\
  score_safe i (pipeline c) /\
  forall j, wthread_score_safe i (workers c j).

(** Every value [p] can return satisfies [P], whatever the answers. *)
Fixpoint rets {A : Type} (P : A -> Prop) (p : prog A) : Prop :=
  match p with
  | Ret a => P a
  | Act a k => forall x, rets P (k x)
  end.

(** One comparison stream; the engine throws before it has asked for a
    frame (for instance because the model file cannot be read). *)
Definition failing_start_script : list pcall :=
  [call_change_state 2 GST_STATE_CHANGE_READY_TO_PAUSED;
   call_aggregate_frames [Some frame_a; Some frame_b] 0].

Definition failing_start_schedule : list label :=
  repeat LPipeline 13 ++ repeat (LWorker 0) 8 ++
  [LEngineThrow 0 (runtime_error "no model")] ++ repeat (LWorker 0) 6.

(** ** Observing outcomes and configurations *)

Definition result_of {A : Type} (o : outcome A) : option A :=
  match o with
  | Done a _ _ => Some a
  | _ => None
  end.

Definition blocked_at {A : Type} (o : outcome A) : option action :=
  match o with
  | BlockedAt b _ _ _ => Some b
  | _ => None
  end.

Definition final_world {A : Type} (o : outcome A) : world :=
  match o with
  | Done _ w _ => w
  | BlockedAt _ _ w _ => w
  | Crashed w _ => w
  end.

Definition trace_of {A : Type} (o : outcome A) : list action :=
  match o with
  | Done _ _ t => t
  | BlockedAt _ _ _ t => t
  | Crashed _ t => t
  end.

(** The command a program is at. *)
Definition next_action {A : Type} (p : prog A) : option action :=
  match p with
  | Ret _ => None
  | Act a _ => Some a
  end.

Definition can_step (a : action) (w : world) : bool :=
  match act_sem a w with
  | Stepped _ _ => true
  | _ => false
  end.

Definition is_runner_run (a : action) : bool :=
  match a with
  | RunnerRun _ _ => true
  | _ => false
  end.

(** The streaming thread has not returned and cannot take a step. *)
Definition pipeline_stuck {A : Type} (c : config A) : bool :=
  match pipeline c with
  | Ret _ => false
  | Act a _ => negb (can_step a (shared c))
  end.

(** No step of worker [j], and no step of its engine, is enabled. *)
Definition worker_stuck {A : Type} (c : config A) (j : nat) : bool :=
  match workers c j with
  | WNotSpawned | WExited =>
      match worker_task c j with
      | Some t => negb (task_running t)
      | None => true
      end
  | WLoop =>
      match helper (shared c) j with
      | Some h =>
          match task_state (vmaf_thread h) with
          | GST_TASK_PAUSED => true
          | _ => false
          end
      | None => true
      end
  | WFunc (Ret _) => false
  | WFunc (Act a _) => negb (is_runner_run a) && negb (can_step a (shared c))
  | WRead (Ret _) _ _ => false
  | WRead (Act a _) _ _ => is_runner_run a || negb (can_step a (shared c))
  | WEngine _ _ => false
  end.

(** The worker a label moves. *)
Definition label_worker (l : label) : option nat :=
  match l with
  | LPipeline => None
  | LWorker i | LEngineRead i _ | LEngineReturn i _ | LEngineThrow i _ => Some i
  end.

(** The schedule moves only workers below [n]. *)
Definition schedule_within (n : nat) (s : list label) : bool :=
  forallb (fun l =>
    match label_worker l with
    | Some i => (i <? n)%nat
    | None => true
    end) s.

(** What decides whether a configuration with [n] streams is deadlocked. *)
Definition stuck_observation {A : Type} (n : nat) (c : config A) : bool :=
  (length (helper_struct_pointer (shared c)) <=? n)%nat &&
  pipeline_stuck c && forallb (worker_stuck c) (seq 0 n).

(** Stream 0 after its worker has recorded the error -3: the task is still
    STARTED and [check_error] is free. *)
Definition errored_helper : GstVmafThreadHelper := {|
  vmaf_thread := task_started gst_task_new;
  wait_frame := true;
  wait_reading_complete := false;
  check_error := false;
  no_frames := false;
  reading_correct := false;
  score := (-1)%float;
  error := -3;
  sink_index := 0;
  original_ptr := Some (buffer frame_a);
  distorted_ptr := Some (buffer frame_b);
  frame_height := 2;
  frame_width := 2;
  y10bit := false
|}.

(** The world the first dispatch after the error leaves behind. *)
Definition world_after_failed_dispatch : world :=
  final_world (exec None (compare_frames frame_a frame_b 0)
                 (world_of [errored_helper])).

(** One comparison stream whose engine throws at once, and three output
    cycles. *)
Definition errored_script : list pcall :=
  [call_change_state 2 GST_STATE_CHANGE_READY_TO_PAUSED;
   call_aggregate_frames [Some frame_a; Some frame_b] 0;
   call_aggregate_frames [Some frame_a; Some frame_b] 1;
   call_aggregate_frames [Some frame_a; Some frame_b] 2].

Definition errored_schedule : list label :=
  repeat LPipeline 13 ++ repeat (LWorker 0) 8 ++
  [LEngineThrow 0 (runtime_error "no model")] ++ repeat (LWorker 0) 6 ++
  repeat LPipeline 16 ++ repeat (LWorker 0) 3.

(** The returns of [compare_frames] recorded in a trace. *)
Definition dispatch_results (t : list action) : list (nat * bool) :=
  flat_map (fun a =>
    match a with
    | Note (ret_compare_frames i r) => [(i, r)]
    | _ => []
    end) t.

(** The entries to [compare_frames] recorded in a trace. *)
Definition dispatch_calls (t : list action) : list nat :=
  flat_map (fun a =>
    match a with
    | Note (call_compare_frames i) => [i]
    | _ => []
    end) t.

Definition is_unlock_of (i : nat) (m : mutex) (a : action) : bool :=
  match a with
  | MutexUnlock j m' =>
      (j =? i)%nat &&
      match m, m' with
      | m_wait_frame, m_wait_frame => true
      | m_wait_reading_complete, m_wait_reading_complete => true
      | m_check_error, m_check_error => true
      | _, _ => false
      end
  | _ => false
  end.

(** One comparison stream: the first frame pair is consumed, then the
    engine throws; the next output cycle fails; the element is taken to
    NULL. *)
Definition teardown_script : list pcall :=
  [call_change_state 2 GST_STATE_CHANGE_READY_TO_PAUSED;
   call_aggregate_frames [Some frame_a; Some frame_b] 0;
   call_aggregate_frames [Some frame_a; Some frame_b] 1;
   call_change_state 2 GST_STATE_CHANGE_READY_TO_NULL].

(** The streaming thread offers the first pair (13 steps); the worker
    reaches the engine (8), which reads the pair (1 + 17); the dispatch
    returns and the message is posted (5); the engine throws and the task
    function records the error, returns and is entered again by the task
    loop (1 + 9); the second dispatch returns FALSE holding [check_error]
    and [vmaf_threads_close] reaches its wait for the task (12). *)
Definition teardown_schedule : list label :=
  repeat LPipeline 13 ++ repeat (LWorker 0) 8 ++
  [LEngineRead 0 8] ++ repeat (LWorker 0) 17 ++
  repeat LPipeline 5 ++
  [LEngineThrow 0 (runtime_error "x")] ++ repeat (LWorker 0) 9 ++
  repeat LPipeline 12.

Definition worker_next_action {A : Type} (c : config A) (j : nat) : option action :=
  match workers c j with
  | WFunc p => next_action p
  | WRead p _ _ => next_action p
  | _ => None
  end.

(** An engine result with one "vmaf" entry per scored frame; its pooled
    value stands for whatever the engine computes. *)
Definition result_with (series : list double) (pooled : double) : Result :=
  {| result_scores := [("vmaf"%string, series)];
     result_pooled := fun _ _ => pooled;
     result_method := MEAN |}.

(** Two comparison streams, one output cycle, no error, then NULL. *)
Definition clean_teardown_script : list pcall :=
  [call_change_state 3 GST_STATE_CHANGE_READY_TO_PAUSED;
   call_aggregate_frames [Some frame_a; Some frame_b; Some frame_b] 0;
   call_change_state 3 GST_STATE_CHANGE_READY_TO_NULL].

(** Both workers consume their pair; [vmaf_threads_close] releases both and
    waits for task 0; meanwhile worker 1 sees the end of the stream, its
    engine returns, its task function returns and, task 1 being still
    STARTED, is entered again and calls the engine, whose first read waits
    for [wait_frame]; worker 0 ends and leaves; the join of task 1 waits. *)
Definition clean_teardown_schedule : list label :=
  repeat LPipeline 13 ++ repeat (LWorker 0) 8 ++
  [LEngineRead 0 8] ++ repeat (LWorker 0) 17 ++
  repeat LPipeline 16 ++ repeat (LWorker 1) 8 ++
  [LEngineRead 1 8] ++ repeat (LWorker 1) 17 ++
  repeat LPipeline 13 ++
  [LEngineRead 1 8] ++ repeat (LWorker 1) 4 ++
  [LEngineReturn 1 (result_with [97.5%float] 97.5%float)] ++
  repeat (LWorker 1) 17 ++ [LEngineRead 1 8] ++
  [LEngineRead 0 8] ++ repeat (LWorker 0) 4 ++
  [LEngineReturn 0 (result_with [97.5%float] 97.5%float)] ++
  repeat (LWorker 0) 11 ++
  repeat LPipeline 2.

(** ** Complete executions of one thread, whatever the others do *)

(** [path p t r]: [p] can execute the commands [t] and return [r], for some
    answers to its commands. *)
Fixpoint path {A : Type} (p : prog A) (t : list action) (r : A) : Prop :=
  match p with
  | Ret a => t = [] /\ r = a
  | Act a k => exists x t', t = a :: t' /\ path (k x) t' r
  end.

(** The prepared frames of the sink pads, in pad order. *)
Definition prepared_frames (sinkpads : list (option GstVideoFrame))
  : list GstVideoFrame :=
  omap id sinkpads.

(** [t] is made of one complete dispatch per frame of [cmps], in order,
    against [ref], with stream indices from [k] on; [rs] are their
    results. *)
Fixpoint dispatches (ref : GstVideoFrame) (cmps : list GstVideoFrame) (k : nat)
    (t : list action) (rs : list bool) : Prop :=
  match cmps with
  | [] => t = [] /\ rs = []
  | f :: cmps' =>
      exists t1 r1 t2 rs2,
        path (compare_frames ref f k) t1 r1 /\
        dispatches ref cmps' (S k) t2 rs2 /\
        t = t1 ++ t2 /\ rs = r1 :: rs2
  end.

(** What a complete [gst_vmaf_aggregate_frames] amounts to: nothing but the
    result when no pad has a frame; else every frame after the first is
    dispatched against the first, and the message is posted exactly when no
    dispatch failed. *)
Definition aggregate_cycle (sinkpads : list (option GstVideoFrame)) (position : Z)
    (t : list action) (r : GstFlowReturn) : Prop :=
  match prepared_frames sinkpads with
  | [] => t = [PostMessage position] /\ r = GST_FLOW_OK
  | ref :: cmps =>
      exists td rs,
        dispatches ref cmps 0 td rs /\
        if forallb id rs
        then t = td ++ [PostMessage position] /\ r = GST_FLOW_OK
        else t = td /\ r = GST_FLOW_ERROR
  end.

Definition not_a_note (a : action) : Prop :=
  match a with
  | Note _ => False
  | _ => True
  end.

(** One output cycle on one comparison stream, served by the worker. *)
Definition one_cycle_schedule : list label :=
  repeat LPipeline 12 ++ repeat (LWorker 0) 8 ++
  [LEngineRead 0 8] ++ repeat (LWorker 0) 17 ++ repeat LPipeline 5.

(** ** What a program writes to the open report *)

(** The items a program writes and its result, when it does nothing but
    write to the open file (and does not abort). *)
Fixpoint written {A : Type} (p : prog A) : option (A * list tok) :=
  match p with
  | Ret a => Some (a, [])
  | Act a k =>
      match a as a0 return (answer a0 -> prog A) -> option (A * list tok) with
      | OfstreamWrite t => fun k0 =>
          match written (k0 tt) with
          | Some (r, l) => Some (r, t :: l)
          | None => None
          end
      | _ => fun _ => None
      end k
  end.

(** The key that introduces a frame number in the report. *)
Definition frameNum_key : string := ("      " ++ quoted "frameNum" ++ ":")%string.

(** The frame numbers of a report: every integer written right after the
    frame number key. *)
Fixpoint frame_numbers (l : list tok) : list Z :=
  match l with
  | [] => []
  | TStr s :: l' =>
      match l' with
      | TInt z :: _ =>
          if String.eqb s frameNum_key then z :: frame_numbers l'
          else frame_numbers l'
      | _ => frame_numbers l'
      end
  | _ :: l' => frame_numbers l'
  end.

(** Modelled from the spec: the engine is not part of the sources; it
    "computes the metric on every stride-th frame, frames not on the stride
    are skipped", so of [total] frames it scores those whose index is a
    multiple of [stride]. *)
Definition scored_frames (total stride : nat) : list nat :=
  List.filter (fun i => (i mod stride =? 0)%nat) (seq 0 total).

(** Every series of the result has [n] entries. *)
Definition rectangular (r : Result) (n : nat) : Prop :=
  Forall (fun kv => length (snd kv) = n) (result_scores r).

(** The items of the ["metrics"] member of frame [i]. *)
Definition frame_metrics_toks (result : Result) (result_keys : list string)
    (i : nat) : list tok :=
  flat_map (fun j =>
    let key := nth j result_keys EmptyString in
    [TStr ("        " ++ quoted key ++ ":")%string;
     TDouble (nth i (get_scores result key) 0%float)] ++
    (if (j =? length result_keys - 1)%nat then [TEndl]
     else [TStr ","%string; TEndl]))
    (seq 0 (length result_keys)).

(** The items of frame record [i], after its frame number. *)
Definition frame_record_rest (result : Result) (result_keys : list string)
    (n : nat) (i : nat) : list tok :=
  [TStr ","%string; TEndl;
   TStr ("      " ++ quoted "metrics" ++ ":{")%string; TEndl] ++
  frame_metrics_toks result result_keys i ++
  [TStr "      }"%string; TEndl] ++
  (if (i =? n - 1)%nat then [TStr "    }"%string; TEndl]
   else [TStr "    },"%string; TEndl]).

Definition frame_record_toks (result : Result) (result_keys : list string)
    (n_subsample : Z) (n : nat) (i : nat) : list tok :=
  [TStr "    {"%string; TEndl; TStr frameNum_key;
   TInt (size_t_mul_int (Z.of_nat i) n_subsample)] ++
  frame_record_rest result result_keys n i.

Definition is_int_tok (t : tok) : bool :=
  match t with
  | TInt _ => true
  | _ => false
  end.

(** No integer item. *)
Definition no_int (l : list tok) : bool := negb (existsb is_int_tok l).

Definition starts_with_int (l : list tok) : bool :=
  match l with
  | TInt _ :: _ => true
  | _ => false
  end.

(** The items [report_aggregates] writes. *)
Definition report_aggregates_toks (aggregate_vmaf aggregate_psnr aggregate_ssim
    aggregate_ms_ssim : double) : list tok :=
  [TStr ("  " ++ quoted "VMAF score" ++ ":")%string; TDouble aggregate_vmaf] ++
  (if double_true aggregate_psnr then
     [TStr ","%string; TEndl; TStr ("  " ++ quoted "PSNR score" ++ ":")%string;
      TDouble aggregate_psnr]
   else []) ++
  (if double_true aggregate_ssim then
     [TStr ","%string; TEndl; TStr ("  " ++ quoted "SSIM score" ++ ":")%string;
      TDouble aggregate_ssim]
   else []) ++
  (if double_true aggregate_ms_ssim then
     [TStr ","%string; TEndl; TStr ("  " ++ quoted "MS-SSIM score" ++ ":")%string;
      TDouble aggregate_ms_ssim]
   else []) ++
  [TEndl; TStr "}"%string; TEndl].

(** The items of the ["params"] member. *)
Definition json_params_toks (model : string) (width height n_subsample : Z)
    (num_bootstrap_models : Z) (bootstrap_model_list_str : string) : list tok :=
  [TStr "{"%string; TEndl;
   TStr ("  " ++ quoted "params" ++ ":{")%string; TEndl;
   TStr ("    " ++ quoted "model" ++ ":" ++ dq)%string;
   TStr (_get_file_name model); TStr (dq ++ ",")%string; TEndl;
   TStr ("    " ++ quoted "scaledWidth" ++ ":")%string; TInt width;
   TStr ","%string; TEndl;
   TStr ("    " ++ quoted "scaledHeight" ++ ":")%string; TInt height;
   TStr ","%string; TEndl;
   TStr ("    " ++ quoted "subsample" ++ ":")%string; TInt n_subsample;
   TStr ","%string; TEndl;
   TStr ("    " ++ quoted "num_bootstrap_models" ++ ":")%string;
   TInt num_bootstrap_models; TStr ","%string; TEndl;
   TStr ("    " ++ quoted "bootstrap_model_list_str" ++ ":" ++ dq)%string;
   TStr bootstrap_model_list_str; TStr dq; TEndl;
   TStr "  },"%string; TEndl].

(** The items of the ["metrics"] array. *)
Definition json_keys_toks (result_keys : list string) : list tok :=
  flat_map (fun j =>
    [TStr ("    " ++ quoted (nth j result_keys EmptyString))%string] ++
    (if (j <? length result_keys - 1)%nat then [TStr ","%string] else []) ++
    [TEndl])
    (seq 0 (length result_keys)).

(** The whole report. *)
Definition json_toks (model : string) (width height n_subsample : Z)
    (num_bootstrap_models : Z) (bootstrap_model_list_str : string)
    (result : Result) (result_keys : list string)
    (aggregate_vmaf aggregate_psnr aggregate_ssim aggregate_ms_ssim : double)
  : list tok :=
  json_params_toks model width height n_subsample num_bootstrap_models
    bootstrap_model_list_str ++
  [TStr ("  " ++ quoted "metrics" ++ ":[")%string; TEndl] ++
  json_keys_toks result_keys ++
  [TStr "  ],"%string; TEndl;
   TStr ("  " ++ quoted "frames" ++ ":[")%string; TEndl] ++
  flat_map (frame_record_toks result result_keys n_subsample
              (length (get_scores result "vmaf")))
    (seq 0 (length (get_scores result "vmaf"))) ++
  [TStr "  ],"%string; TEndl] ++
  report_aggregates_toks aggregate_vmaf aggregate_psnr aggregate_ssim
    aggregate_ms_ssim.

(** The item is the literal [s]. *)
Definition is_str (s : string) (t : tok) : bool :=
  match t with
  | TStr s' => String.eqb s s'
  | _ => false
  end.

Definition PSNR_key : string := ("  " ++ quoted "PSNR score" ++ ":")%string.
Definition SSIM_key : string := ("  " ++ quoted "SSIM score" ++ ":")%string.
Definition MS_SSIM_key : string := ("  " ++ quoted "MS-SSIM score" ++ ":")%string.
Definition VMAF_key : string := ("  " ++ quoted "VMAF score" ++ ":")%string.

(** The settings with a report path. *)
Definition logging_settings : GstVmaf := {|
  model_path := DEFAULT_MODEL_PATH;
  log_path := Some "log.json"%string;
  log_fmt := JSON_LOG_FMT;
  vmaf_config_disable_clip := false;
  vmaf_config_enable_transform := false;
  vmaf_config_phone_model := false;
  vmaf_config_psnr := false;
  vmaf_config_ssim := false;
  vmaf_config_ms_ssim := false;
  pool_method := MEAN_POOL_METHOD;
  num_threads := 0;
  subsample := 1;
  vmaf_config_conf_int := false
|}.

(** The report [RunVMAF] writes for stream 0 with no optional metric
    selected, after an engine run that scored two frames. *)
Definition unselected_report : list tok :=
  match files (final_world
                 (exec None
                    (RunVMAF_finish 0 logging_settings 2 2
                       (result_with [90%float; 92%float] 91%float))
                    (with_helpers [offered_helper]
                       (initial_world logging_settings)))) with
  | (_, content) :: _ => content
  | [] => []
  end.


(** The answer of a command that has only one. *)
Definition unit_answer (a : action) : option (answer a) :=
  match a return option (answer a) with
  | MutexLock _ _ => Some tt
  | MutexUnlock _ _ => Some tt
  | Store _ _ => Some tt
  | TaskStart _ => Some tt
  | TaskWait _ => Some tt
  | Printf _ => Some tt
  | WriteFloat _ _ _ => Some tt
  | WriteOut _ => Some tt
  | PostMessage _ => Some tt
  | OfstreamOpen _ => Some tt
  | OfstreamWrite _ => Some tt
  | SetHelpers _ _ => Some tt
  | FreeHelpers => Some tt
  | Note _ => Some tt
  | _ => None
  end.

(** The commands and the result of a program whose commands have no answer
    to wait for (and which does not abort). *)
Fixpoint straight {A : Type} (p : prog A) : option (A * list action) :=
  match p with
  | Ret a => Some (a, [])
  | Act a k =>
      match unit_answer a with
      | Some x =>
          match straight (k x) with
          | Some (r, t) => Some (r, a :: t)
          | None => None
          end
      | None => None
      end
  end.

(** ["Caught ...: <what>\n"], the line [RunVMAF] prints for an exception. *)
Definition caught_line (e : exception) : list tok :=
  match e with
  | runtime_error what =>
      [TStr "Caught runtime_error: "%string; TStr what; TStr nl]
  | logic_error what =>
      [TStr "Caught logic_error: "%string; TStr what; TStr nl]
  | std_exception what =>
      [TStr "Caught exception: "%string; TStr what; TStr nl]
  | unknown_exception => [TStr ("Unknown exception!" ++ nl)%string]
  end.

(** The code [RunVMAF] returns for an exception. *)
Definition exception_code (e : exception) : Z :=
  match e with
  | runtime_error _ => -3
  | logic_error _ => -4
  | std_exception _ => -5
  | unknown_exception => -6
  end.


(** The lines of the bootstrap models, numbered from [n + 1]. *)
Fixpoint bootstrap_lines (keys : list string) (result : Result)
    (pool : GstVmafPoolMethodEnum) (n : Z) : list (list tok) :=
  match keys with
  | [] => []
  | key :: keys' =>
      if string_contains BOOSTRAP_VMAF_MODEL_PREFIX key then
        [TStr "VMAF score ("%string; TStr (pool_method_name pool);
         TStr "), model "%string; TInt (n + 1);
         TStr " = "%string; TDouble (get_score result key); TStr nl] ::
        bootstrap_lines keys' result pool (n + 1)
      else bootstrap_lines keys' result pool n
  end.


(** The line the task function prints last. *)
Definition sink_line (hp : GstVmafThreadHelper) : list tok :=
  if negb (error hp =? 0) then
    [TStr "Error sink_"%string; TInt (sink_index hp); TStr ": "%string;
     TInt (error hp); TStr nl]
  else
    [TStr "VMAF sink_"%string; TInt (sink_index hp); TStr ": "%string;
     TDouble (score hp); TStr nl].



(** ** The streaming thread's view of one stream (for C4) *)

(** What the streaming thread knows of stream [i] for sure, because only it
    writes these: the recorded geometry, the number of [gst_task_start]
    calls, and whether a dispatch of the stream has been entered and has
    returned. *)
Record gview : Type := {
  gv_width : Z;
  gv_height : Z;
  gv_starts : nat;
  gv_called : bool;
  gv_returned : bool
}.

Definition gview_of (hp : GstVmafThreadHelper) (called returned : bool) : gview :=
  {| gv_width := frame_width hp; gv_height := frame_height hp;
     gv_starts := task_starts (vmaf_thread hp);
     gv_called := called; gv_returned := returned |}.

Definition fresh_view : gview :=
  {| gv_width := 0; gv_height := 0; gv_starts := 0;
     gv_called := false; gv_returned := false |}.

(** The effect of a command of the streaming thread on the view. *)
Definition gv_step (i : nat) (a : action) (g : gview) : gview :=
  match a with
  | Store j (set_frame_width z) =>
      if (j =? i)%nat then
        {| gv_width := z; gv_height := gv_height g; gv_starts := gv_starts g;
           gv_called := gv_called g; gv_returned := gv_returned g |}
      else g
  | Store j (set_frame_height z) =>
      if (j =? i)%nat then
        {| gv_width := gv_width g; gv_height := z; gv_starts := gv_starts g;
           gv_called := gv_called g; gv_returned := gv_returned g |}
      else g
  | TaskStart j =>
      if (j =? i)%nat then
        {| gv_width := gv_width g; gv_height := gv_height g;
           gv_starts := S (gv_starts g);
           gv_called := gv_called g; gv_returned := gv_returned g |}
      else g
  | SetHelpers _ l =>
      match l !! i with
      | Some hp => gview_of hp (gv_called g) (gv_returned g)
      | None => g
      end
  | Note (call_compare_frames j) =>
      if (j =? i)%nat then
        {| gv_width := gv_width g; gv_height := gv_height g;
           gv_starts := gv_starts g;
           gv_called := true; gv_returned := gv_returned g |}
      else g
  | Note (ret_compare_frames j _) =>
      if (j =? i)%nat then
        {| gv_width := gv_width g; gv_height := gv_height g;
           gv_starts := gv_starts g;
           gv_called := gv_called g; gv_returned := true |}
      else g
  | _ => g
  end.

(** The answers that agree with the view: a load of helper [i] shows the
    geometry of the view. *)
Definition gv_cons (i : nat) (a : action) : answer a -> gview -> Prop :=
  match a return answer a -> gview -> Prop with
  | Load j => fun hp g =>
      j = i -> frame_width hp = gv_width g /\ frame_height hp = gv_height g
  | _ => fun _ _ => True
  end.

(** [inv] holds of the view at every point of [p] and [post] when it
    returns, for all answers that agree with the view. *)
Fixpoint track {A : Type} (i : nat) (inv : gview -> Prop)
    (post : A -> gview -> Prop) (p : prog A) (g : gview) : Prop :=
  inv g /\
  match p with
  | Ret a => post a g
  | Act a k => forall x, gv_cons i a x g -> track i inv post (k x) (gv_step i a g)
  end.

(** A command that leaves geometry and start count of every helper alone. *)
Definition geom_neutral (a : action) : Prop :=
  match a with
  | Store _ (set_frame_width _) | Store _ (set_frame_height _) => False
  | TaskStart _ | SetHelpers _ _ => False
  | _ => True
  end.

(** A command that does not change the view of stream [i]. *)
Definition view_neutral (i : nat) (a : action) : Prop :=
  forall g, gv_step i a g = g.

Definition wthread_neutral (t : wthread) : Prop :=
  match t with
  | WFunc p => acts geom_neutral any_answer p
  | WEngine _ k => forall o, acts geom_neutral any_answer (k o)
  | WRead p _ k =>
      acts geom_neutral any_answer p /\
      forall o, acts geom_neutral any_answer (k o)
  | _ => True
  end.

(** The view describes helper [i] and the streaming thread's log. *)
Definition view_of_config {A : Type} (i : nat) (c : config A) (g : gview) : Prop :=
  (forall hp, helper (shared c) i = Some hp ->
     frame_width hp = gv_width g /\ frame_height hp = gv_height g /\
     task_starts (vmaf_thread hp) = gv_starts g) /\
  (gv_called g = true -> In (Note (call_compare_frames i)) (plog c)) /\
  (forall r, In (Note (ret_compare_frames i r)) (plog c) -> gv_returned g = true).

Definition tracked {A : Type} (i : nat) (inv : gview -> Prop) (c : config A)
  : Prop :=
  exists g, view_of_config i c g /\
            track i inv (fun _ _ => True) (pipeline c) g /\
            forall j, wthread_neutral (workers c j).

(** The reference frame stream [i] is dispatched against in a cycle, if it
    is dispatched at all. *)
Definition cycle_ref (i : nat) (sinkpads : list (option GstVideoFrame))
  : option GstVideoFrame :=
  match prepared_frames sinkpads with
  | ref :: cmps => if (i <? length cmps)%nat then Some ref else None
  | [] => None
  end.

(** The reference frame of the first cycle that dispatches stream [i]. *)
Fixpoint first_ref (i : nat) (cycles : list (list (option GstVideoFrame) * Z))
  : option GstVideoFrame :=
  match cycles with
  | [] => None
  | (sinkpads, _) :: cycles' =>
      match cycle_ref i sinkpads with
      | Some ref => Some ref
      | None => first_ref i cycles'
      end
  end.

(** Activation followed by output cycles. *)
Definition activation_script (n_sinkpads : nat)
    (cycles : list (list (option GstVideoFrame) * Z)) : list pcall :=
  call_change_state n_sinkpads GST_STATE_CHANGE_READY_TO_PAUSED ::
  map (fun c => call_aggregate_frames (fst c) (snd c)) cycles.

(** The frames of the runtime have a geometry: no zero width or height. *)
Definition frame_ok (f : GstVideoFrame) : Prop :=
  info_width f <> 0 /\ info_height f <> 0.

Definition cycles_ok (cycles : list (list (option GstVideoFrame) * Z)) : Prop :=
  Forall (fun c => Forall frame_ok (prepared_frames (fst c))) cycles.

(** The invariant of C4 on the view, [F] being the reference frame of the
    first dispatch of the stream. *)
Definition started_once (F : option GstVideoFrame) (g : gview) : Prop :=
  (gv_starts g <= 1)%nat /\
  (gv_starts g = 1%nat ->
     gv_called g = true /\
     exists ref, F = Some ref /\ frame_ok ref /\
                 gv_width g = info_width ref /\ gv_height g = info_height ref) /\
  (gv_returned g = true -> gv_starts g = 1%nat).

(** The view agrees with helper [i] of the world. *)
Definition helper_view (i : nat) (w : world) (g : gview) : Prop :=
  forall hp, helper w i = Some hp ->
    frame_width hp = gv_width g /\ frame_height hp = gv_height g /\
    task_starts (vmaf_thread hp) = gv_starts g.

(** No geometry recorded, never started, no dispatch returned yet. *)
Definition is_fresh (g : gview) : Prop :=
  gv_width g = 0 /\ gv_height g = 0 /\ gv_starts g = 0%nat /\
  gv_returned g = false.

(** Started once, with the geometry of [ref]. *)
Definition is_started (ref : GstVideoFrame) (g : gview) : Prop :=
  gv_width g = info_width ref /\ gv_height g = info_height ref /\
  gv_starts g = 1%nat /\ gv_called g = true.

(** ** A comparison frame of another geometry *)

(** A frame of 4x2 samples, where [frame_a] has 2x2. *)
Definition frame_wide : GstVideoFrame :=
  {| info_width := 4; info_height := 2;
     buffer := [9; 8; 7; 6; 5; 4; 3; 2; 1; 0; 1; 2] |}.

(** The frame [f] announced with another geometry: same buffer. *)
Definition with_geometry (width height : Z) (f : GstVideoFrame) : GstVideoFrame :=
  {| info_width := width; info_height := height; buffer := buffer f |}.

(** What is seen of stream 0 and of the cycle once the schedule has run:
    the result of the cycle, the results of the dispatches, and the error
    code, geometry and number of starts of the helper. *)
Definition cycle_observation (c : config GstFlowReturn)
  : option GstFlowReturn * list (nat * bool) * option (Z * Z * Z * nat) :=
  (match pipeline c with
   | Ret r => Some r
   | Act _ _ => None
   end,
   dispatch_results (plog c),
   match helper (shared c) 0 with
   | Some hp => Some (error hp, frame_width hp, frame_height hp,
                      task_starts (vmaf_thread hp))
   | None => None
   end).

(** ** The element's properties (vmaf.c) *)

Module Props.

(** [GValue], for the four types the element's properties have; a string
    value may hold NULL ([None]). *)
Inductive GValue : Type :=
| GString (s : option string)
| GEnum (v : Z)
| GBoolean (b : bool)
| GUint (u : Z).

(** GLib's accessors: a getter on a value of another type returns 0, FALSE
    or NULL (after a warning); a setter on a value of another type leaves it
    alone. *)
Definition g_value_dup_string (value : GValue) : option string :=
  match value with GString s => s | _ => None end.

Definition g_value_get_enum (value : GValue) : Z :=
  match value with GEnum v => v | _ => 0 end.

Definition g_value_get_boolean (value : GValue) : bool :=
  match value with GBoolean b => b | _ => false end.

Definition g_value_get_uint (value : GValue) : Z :=
  match value with GUint u => u | _ => 0 end.

Definition g_value_set_string (value : GValue) (s : option string) : GValue :=
  match value with GString _ => GString s | _ => value end.

Definition g_value_set_enum (value : GValue) (v : Z) : GValue :=
  match value with GEnum _ => GEnum v | _ => value end.

Definition g_value_set_boolean (value : GValue) (b : bool) : GValue :=
  match value with GBoolean _ => GBoolean b | _ => value end.

Definition g_value_set_uint (value : GValue) (u : Z) : GValue :=
  match value with GUint _ => GUint u | _ => value end.

(** [enum { PROP_0, PROP_MODEL_PATH, ..., PROP_LAST }], in order: the id of
    a property is its position. *)
Inductive property : Type :=
| PROP_0
| PROP_MODEL_PATH
| PROP_LOG_PATH
| PROP_LOG_FMT
| PROP_DISABLE_CLIP
| PROP_ENABLE_TRANSFORM
| PROP_PHONE_MODEL
| PROP_PSNR
| PROP_SSIM
| PROP_MS_SSIM
| PROP_POOL_METHOD
| PROP_NUM_THREADS
| PROP_SUBSAMPLE
| PROP_CONF_INT
| PROP_LAST.

Definition properties : list property :=
  [PROP_0; PROP_MODEL_PATH; PROP_LOG_PATH; PROP_LOG_FMT; PROP_DISABLE_CLIP;
   PROP_ENABLE_TRANSFORM; PROP_PHONE_MODEL; PROP_PSNR; PROP_SSIM; PROP_MS_SSIM;
   PROP_POOL_METHOD; PROP_NUM_THREADS; PROP_SUBSAMPLE; PROP_CONF_INT; PROP_LAST].

(** The enumerator a [guint prop_id] names, if any. *)
Definition property_of_id (prop_id : Z) : option property :=
  if prop_id <? 0 then None else nth_error properties (Z.to_nat prop_id).

Definition id_of_property (p : property) : Z :=
  match p with
  | PROP_0 => 0
  | PROP_MODEL_PATH => 1
  | PROP_LOG_PATH => 2
  | PROP_LOG_FMT => 3
  | PROP_DISABLE_CLIP => 4
  | PROP_ENABLE_TRANSFORM => 5
  | PROP_PHONE_MODEL => 6
  | PROP_PSNR => 7
  | PROP_SSIM => 8
  | PROP_MS_SSIM => 9
  | PROP_POOL_METHOD => 10
  | PROP_NUM_THREADS => 11
  | PROP_SUBSAMPLE => 12
  | PROP_CONF_INT => 13
  | PROP_LAST => 14
  end.

(** The settings fields of [struct _GstVmaf] as the property functions see
    them: [model_path] may be NULL. *)
Record GstVmaf : Type := {
  model_path : option string;
  log_path : option string;
  log_fmt : GstVmafLogFmtEnum;
  vmaf_config_disable_clip : bool;
  vmaf_config_enable_transform : bool;
  vmaf_config_phone_model : bool;
  vmaf_config_psnr : bool;
  vmaf_config_ssim : bool;
  vmaf_config_ms_ssim : bool;
  pool_method : GstVmafPoolMethodEnum;
  num_threads : Z;
  subsample : Z;
  vmaf_config_conf_int : bool
}.

(** The value of an enumerator, as an [int]. *)
Definition log_fmt_value (f : GstVmafLogFmtEnum) : Z :=
  match f with JSON_LOG_FMT => 0 end.

Definition pool_method_value (m : GstVmafPoolMethodEnum) : Z :=
  Z.of_nat (pool_method_index m).

(** The outcome of a property function: the case of the property ran; the
    [default] case ran ([G_OBJECT_WARN_INVALID_PROPERTY_ID] warns and
    nothing is changed); or [g_assert_not_reached ()] was reached. *)
Inductive property_result (A : Type) : Type :=
| Accepted (a : A)
| InvalidPropertyId (a : A)
| AssertNotReached.

Arguments Accepted {A} a.
Arguments InvalidPropertyId {A} a.
Arguments AssertNotReached {A}.

(** [gst_vmaf_set_log_fmt (self, log_fmt)]; [None] is
    [g_assert_not_reached ()]. *)
Definition gst_vmaf_set_log_fmt (self : GstVmaf) (fmt : Z) : option GstVmaf :=
  if fmt =? log_fmt_value JSON_LOG_FMT then
    Some {| model_path := model_path self; log_path := log_path self;
            log_fmt := JSON_LOG_FMT;
            vmaf_config_disable_clip := vmaf_config_disable_clip self;
            vmaf_config_enable_transform := vmaf_config_enable_transform self;
            vmaf_config_phone_model := vmaf_config_phone_model self;
            vmaf_config_psnr := vmaf_config_psnr self;
            vmaf_config_ssim := vmaf_config_ssim self;
            vmaf_config_ms_ssim := vmaf_config_ms_ssim self;
            pool_method := pool_method self;
            num_threads := num_threads self; subsample := subsample self;
            vmaf_config_conf_int := vmaf_config_conf_int self |}
  else None.

Definition with_pool_method (m : GstVmafPoolMethodEnum) (self : GstVmaf)
  : GstVmaf :=
  {| model_path := model_path self; log_path := log_path self;
     log_fmt := log_fmt self;
     vmaf_config_disable_clip := vmaf_config_disable_clip self;
     vmaf_config_enable_transform := vmaf_config_enable_transform self;
     vmaf_config_phone_model := vmaf_config_phone_model self;
     vmaf_config_psnr := vmaf_config_psnr self;
     vmaf_config_ssim := vmaf_config_ssim self;
     vmaf_config_ms_ssim := vmaf_config_ms_ssim self;
     pool_method := m;
     num_threads := num_threads self; subsample := subsample self;
     vmaf_config_conf_int := vmaf_config_conf_int self |}.

(** [gst_vmaf_set_pool_method (self, pool_method)]; [None] is
    [g_assert_not_reached ()]. *)
Definition gst_vmaf_set_pool_method (self : GstVmaf) (method : Z)
  : option GstVmaf :=
  if method =? pool_method_value MIN_POOL_METHOD then
    Some (with_pool_method MIN_POOL_METHOD self)
  else if method =? pool_method_value MEAN_POOL_METHOD then
    Some (with_pool_method MEAN_POOL_METHOD self)
  else if method =? pool_method_value HARMONIC_MEAN_POOL_METHOD then
    Some (with_pool_method HARMONIC_MEAN_POOL_METHOD self)
  else None.

Definition of_setter (r : option GstVmaf) : property_result GstVmaf :=
  match r with
  | Some self => Accepted self
  | None => AssertNotReached
  end.

(** [_set_property (object, prop_id, value, pspec)]. *)
Definition _set_property (self : GstVmaf) (prop_id : Z) (value : GValue)
  : property_result GstVmaf :=
  match property_of_id prop_id with
  | Some PROP_MODEL_PATH =>
      Accepted
        {| model_path := g_value_dup_string value; log_path := log_path self;
           log_fmt := log_fmt self;
           vmaf_config_disable_clip := vmaf_config_disable_clip self;
           vmaf_config_enable_transform := vmaf_config_enable_transform self;
           vmaf_config_phone_model := vmaf_config_phone_model self;
           vmaf_config_psnr := vmaf_config_psnr self;
           vmaf_config_ssim := vmaf_config_ssim self;
           vmaf_config_ms_ssim := vmaf_config_ms_ssim self;
           pool_method := pool_method self;
           num_threads := num_threads self; subsample := subsample self;
           vmaf_config_conf_int := vmaf_config_conf_int self |}
  | Some PROP_LOG_PATH =>
      Accepted
        {| model_path := model_path self; log_path := g_value_dup_string value;
           log_fmt := log_fmt self;
           vmaf_config_disable_clip := vmaf_config_disable_clip self;
           vmaf_config_enable_transform := vmaf_config_enable_transform self;
           vmaf_config_phone_model := vmaf_config_phone_model self;
           vmaf_config_psnr := vmaf_config_psnr self;
           vmaf_config_ssim := vmaf_config_ssim self;
           vmaf_config_ms_ssim := vmaf_config_ms_ssim self;
           pool_method := pool_method self;
           num_threads := num_threads self; subsample := subsample self;
           vmaf_config_conf_int := vmaf_config_conf_int self |}
  | Some PROP_LOG_FMT =>
      of_setter (gst_vmaf_set_log_fmt self (g_value_get_enum value))
  | Some PROP_DISABLE_CLIP =>
      Accepted
        {| model_path := model_path self; log_path := log_path self;
           log_fmt := log_fmt self;
           vmaf_config_disable_clip := g_value_get_boolean value;
           vmaf_config_enable_transform := vmaf_config_enable_transform self;
           vmaf_config_phone_model := vmaf_config_phone_model self;
           vmaf_config_psnr := vmaf_config_psnr self;
           vmaf_config_ssim := vmaf_config_ssim self;
           vmaf_config_ms_ssim := vmaf_config_ms_ssim self;
           pool_method := pool_method self;
           num_threads := num_threads self; subsample := subsample self;
           vmaf_config_conf_int := vmaf_config_conf_int self |}
  | Some PROP_ENABLE_TRANSFORM =>
      Accepted
        {| model_path := model_path self; log_path := log_path self;
           log_fmt := log_fmt self;
           vmaf_config_disable_clip := vmaf_config_disable_clip self;
           vmaf_config_enable_transform := g_value_get_boolean value;
           vmaf_config_phone_model := vmaf_config_phone_model self;
           vmaf_config_psnr := vmaf_config_psnr self;
           vmaf_config_ssim := vmaf_config_ssim self;
           vmaf_config_ms_ssim := vmaf_config_ms_ssim self;
           pool_method := pool_method self;
           num_threads := num_threads self; subsample := subsample self;
           vmaf_config_conf_int := vmaf_config_conf_int self |}
  | Some PROP_PHONE_MODEL =>
      Accepted
        {| model_path := model_path self; log_path := log_path self;
           log_fmt := log_fmt self;
           vmaf_config_disable_clip := vmaf_config_disable_clip self;
           vmaf_config_enable_transform := vmaf_config_enable_transform self;
           vmaf_config_phone_model := g_value_get_boolean value;
           vmaf_config_psnr := vmaf_config_psnr self;
           vmaf_config_ssim := vmaf_config_ssim self;
           vmaf_config_ms_ssim := vmaf_config_ms_ssim self;
           pool_method := pool_method self;
           num_threads := num_threads self; subsample := subsample self;
           vmaf_config_conf_int := vmaf_config_conf_int self |}
  | Some PROP_PSNR =>
      Accepted
        {| model_path := model_path self; log_path := log_path self;
           log_fmt := log_fmt self;
           vmaf_config_disable_clip := vmaf_config_disable_clip self;
           vmaf_config_enable_transform := vmaf_config_enable_transform self;
           vmaf_config_phone_model := vmaf_config_phone_model self;
           vmaf_config_psnr := g_value_get_boolean value;
           vmaf_config_ssim := vmaf_config_ssim self;
           vmaf_config_ms_ssim := vmaf_config_ms_ssim self;
           pool_method := pool_method self;
           num_threads := num_threads self; subsample := subsample self;
           vmaf_config_conf_int := vmaf_config_conf_int self |}
  | Some PROP_SSIM =>
      Accepted
        {| model_path := model_path self; log_path := log_path self;
           log_fmt := log_fmt self;
           vmaf_config_disable_clip := vmaf_config_disable_clip self;
           vmaf_config_enable_transform := vmaf_config_enable_transform self;
           vmaf_config_phone_model := vmaf_config_phone_model self;
           vmaf_config_psnr := vmaf_config_psnr self;
           vmaf_config_ssim := g_value_get_boolean value;
           vmaf_config_ms_ssim := vmaf_config_ms_ssim self;
           pool_method := pool_method self;
           num_threads := num_threads self; subsample := subsample self;
           vmaf_config_conf_int := vmaf_config_conf_int self |}
  | Some PROP_MS_SSIM =>
      Accepted
        {| model_path := model_path self; log_path := log_path self;
           log_fmt := log_fmt self;
           vmaf_config_disable_clip := vmaf_config_disable_clip self;
           vmaf_config_enable_transform := vmaf_config_enable_transform self;
           vmaf_config_phone_model := vmaf_config_phone_model self;
           vmaf_config_psnr := vmaf_config_psnr self;
           vmaf_config_ssim := vmaf_config_ssim self;
           vmaf_config_ms_ssim := g_value_get_boolean value;
           pool_method := pool_method self;
           num_threads := num_threads self; subsample := subsample self;
           vmaf_config_conf_int := vmaf_config_conf_int self |}
  | Some PROP_POOL_METHOD =>
      of_setter (gst_vmaf_set_pool_method self (g_value_get_enum value))
  | Some PROP_NUM_THREADS =>
      Accepted
        {| model_path := model_path self; log_path := log_path self;
           log_fmt := log_fmt self;
           vmaf_config_disable_clip := vmaf_config_disable_clip self;
           vmaf_config_enable_transform := vmaf_config_enable_transform self;
           vmaf_config_phone_model := vmaf_config_phone_model self;
           vmaf_config_psnr := vmaf_config_psnr self;
           vmaf_config_ssim := vmaf_config_ssim self;
           vmaf_config_ms_ssim := vmaf_config_ms_ssim self;
           pool_method := pool_method self;
           num_threads := g_value_get_uint value; subsample := subsample self;
           vmaf_config_conf_int := vmaf_config_conf_int self |}
  | Some PROP_SUBSAMPLE =>
      Accepted
        {| model_path := model_path self; log_path := log_path self;
           log_fmt := log_fmt self;
           vmaf_config_disable_clip := vmaf_config_disable_clip self;
           vmaf_config_enable_transform := vmaf_config_enable_transform self;
           vmaf_config_phone_model := vmaf_config_phone_model self;
           vmaf_config_psnr := vmaf_config_psnr self;
           vmaf_config_ssim := vmaf_config_ssim self;
           vmaf_config_ms_ssim := vmaf_config_ms_ssim self;
           pool_method := pool_method self;
           num_threads := num_threads self; subsample := g_value_get_uint value;
           vmaf_config_conf_int := vmaf_config_conf_int self |}
  | Some PROP_CONF_INT =>
      Accepted
        {| model_path := model_path self; log_path := log_path self;
           log_fmt := log_fmt self;
           vmaf_config_disable_clip := vmaf_config_disable_clip self;
           vmaf_config_enable_transform := vmaf_config_enable_transform self;
           vmaf_config_phone_model := vmaf_config_phone_model self;
           vmaf_config_psnr := vmaf_config_psnr self;
           vmaf_config_ssim := vmaf_config_ssim self;
           vmaf_config_ms_ssim := vmaf_config_ms_ssim self;
           pool_method := pool_method self;
           num_threads := num_threads self; subsample := subsample self;
           vmaf_config_conf_int := g_value_get_boolean value |}
  | _ => InvalidPropertyId self
  end.

(** [_get_property (object, prop_id, value, pspec)]: the result is what
    [value] holds afterwards. *)
Definition _get_property (self : GstVmaf) (prop_id : Z) (value : GValue)
  : property_result GValue :=
  match property_of_id prop_id with
  | Some PROP_MODEL_PATH => Accepted (g_value_set_string value (model_path self))
  | Some PROP_LOG_PATH => Accepted (g_value_set_string value (log_path self))
  | Some PROP_LOG_FMT =>
      Accepted (g_value_set_enum value (log_fmt_value (log_fmt self)))
  | Some PROP_DISABLE_CLIP =>
      Accepted (g_value_set_boolean value (vmaf_config_disable_clip self))
  | Some PROP_ENABLE_TRANSFORM =>
      Accepted (g_value_set_boolean value (vmaf_config_enable_transform self))
  | Some PROP_PHONE_MODEL =>
      Accepted (g_value_set_boolean value (vmaf_config_phone_model self))
  | Some PROP_PSNR => Accepted (g_value_set_boolean value (vmaf_config_psnr self))
  | Some PROP_SSIM => Accepted (g_value_set_boolean value (vmaf_config_ssim self))
  | Some PROP_MS_SSIM =>
      Accepted (g_value_set_boolean value (vmaf_config_ms_ssim self))
  | Some PROP_POOL_METHOD =>
      Accepted (g_value_set_enum value (pool_method_value (pool_method self)))
  | Some PROP_NUM_THREADS => Accepted (g_value_set_uint value (num_threads self))
  | Some PROP_SUBSAMPLE => Accepted (g_value_set_uint value (subsample self))
  | Some PROP_CONF_INT =>
      Accepted (g_value_set_boolean value (vmaf_config_conf_int self))
  | _ => InvalidPropertyId value
  end.

(** [gst_vmaf_init (self)]: every settings field is assigned, the two
    enumerations through their setters. *)
Definition gst_vmaf_init (self : GstVmaf) : option GstVmaf :=
  match gst_vmaf_set_log_fmt self (log_fmt_value JSON_LOG_FMT) with
  | None => None
  | Some self1 =>
      match gst_vmaf_set_pool_method self1 (pool_method_value MEAN_POOL_METHOD) with
      | None => None
      | Some self2 =>
          Some {| model_path := Some DEFAULT_MODEL_PATH; log_path := None;
                  log_fmt := log_fmt self2;
                  vmaf_config_disable_clip := false;
                  vmaf_config_enable_transform := false;
                  vmaf_config_phone_model := false;
                  vmaf_config_psnr := false;
                  vmaf_config_ssim := false;
                  vmaf_config_ms_ssim := false;
                  pool_method := pool_method self2;
                  num_threads := 0; subsample := 1;
                  vmaf_config_conf_int := false |}
      end
  end.

(** [GEnumValue]: value, name and nick. *)
Record GEnumValue : Type := {
  value : Z;
  value_name : string;
  value_nick : string
}.

(** The table [gst_vmaf_pool_method_get_type] registers. *)
Definition gst_vmaf_pool_method_get_type : list GEnumValue :=
  [{| value := pool_method_value MIN_POOL_METHOD;
      value_name := "Minimum value"; value_nick := "min" |};
   {| value := pool_method_value MEAN_POOL_METHOD;
      value_name := "Arithmetic mean"; value_nick := "mean" |};
   {| value := pool_method_value HARMONIC_MEAN_POOL_METHOD;
      value_name := "Harmonic mean"; value_nick := "harmonic_mean" |}].

(** The table [gst_vmaf_log_fmt_get_type] registers. *)
Definition gst_vmaf_log_fmt_get_type : list GEnumValue :=
  [{| value := log_fmt_value JSON_LOG_FMT;
      value_name := "JSON format"; value_nick := "json" |}].

(** The parameter specifications [gst_vmaf_class_init] uses: name and
    default value, the registered values of an enumeration, the bounds of an
    unsigned integer. *)
Inductive GParamSpec : Type :=
| g_param_spec_string (name : string) (default_value : option string)
| g_param_spec_enum (name : string) (enum_type : list GEnumValue)
    (default_value : Z)
| g_param_spec_boolean (name : string) (default_value : bool)
| g_param_spec_uint (name : string) (minimum maximum default_value : Z).

(** The [g_object_class_install_property] calls of [gst_vmaf_class_init],
    in order (all of them G_PARAM_READWRITE). *)
Definition gst_vmaf_class_init : list (property * GParamSpec) :=
  [(PROP_MODEL_PATH, g_param_spec_string "model-path" (Some DEFAULT_MODEL_PATH));
   (PROP_LOG_PATH, g_param_spec_string "log-path" None);
   (PROP_LOG_FMT,
    g_param_spec_enum "log-fmt" gst_vmaf_log_fmt_get_type
      (log_fmt_value JSON_LOG_FMT));
   (PROP_DISABLE_CLIP, g_param_spec_boolean "disable-clip" false);
   (PROP_ENABLE_TRANSFORM, g_param_spec_boolean "enable-transform" false);
   (PROP_PHONE_MODEL, g_param_spec_boolean "phone-model" false);
   (PROP_PSNR, g_param_spec_boolean "psnr" false);
   (PROP_SSIM, g_param_spec_boolean "ssim" false);
   (PROP_MS_SSIM, g_param_spec_boolean "ms-ssim" false);
   (PROP_POOL_METHOD,
    g_param_spec_enum "pool-method" gst_vmaf_pool_method_get_type
      (pool_method_value MEAN_POOL_METHOD));
   (PROP_NUM_THREADS, g_param_spec_uint "threads" 0 32 0);
   (PROP_SUBSAMPLE, g_param_spec_uint "subsample" 1 128 1);
   (PROP_CONF_INT, g_param_spec_boolean "conf-interval" false)].

(** A value of the type of the specification that the specification admits:
    a registered value of the enumeration, an integer within the bounds.
    (GObject hands [_set_property] such values only.) *)
Definition conforms (pspec : GParamSpec) (v : GValue) : bool :=
  match pspec, v with
  | g_param_spec_string _ _, GString _ => true
  | g_param_spec_enum _ enum_type _, GEnum z =>
      existsb (fun e => value e =? z) enum_type
  | g_param_spec_boolean _ _, GBoolean _ => true
  | g_param_spec_uint _ minimum maximum _, GUint u =>
      (minimum <=? u) && (u <=? maximum)
  | _, _ => false
  end.

(** The default value of a specification. *)
Definition default_of (pspec : GParamSpec) : GValue :=
  match pspec with
  | g_param_spec_string _ d => GString d
  | g_param_spec_enum _ _ d => GEnum d
  | g_param_spec_boolean _ d => GBoolean d
  | g_param_spec_uint _ _ _ d => GUint d
  end.

(** The value [g_value_init] gives for the type of a specification. *)
Definition g_value_init (pspec : GParamSpec) : GValue :=
  match pspec with
  | g_param_spec_string _ _ => GString None
  | g_param_spec_enum _ _ _ => GEnum 0
  | g_param_spec_boolean _ _ => GBoolean false
  | g_param_spec_uint _ _ _ _ => GUint 0
  end.

(** The instance as GObject allocates it: zero-filled. *)
Definition zero_filled : GstVmaf :=
  {| model_path := None; log_path := None; log_fmt := JSON_LOG_FMT;
     vmaf_config_disable_clip := false;
     vmaf_config_enable_transform := false;
     vmaf_config_phone_model := false;
     vmaf_config_psnr := false;
     vmaf_config_ssim := false;
     vmaf_config_ms_ssim := false;
     pool_method := MIN_POOL_METHOD;
     num_threads := 0; subsample := 0;
     vmaf_config_conf_int := false |}.

End Props.

(** The settings the worker reads, when the model path is not NULL. *)
Definition settings (o : Props.GstVmaf) : option GstVmaf :=
  match Props.model_path o with
  | None => None
  | Some path =>
      Some {| model_path := path; log_path := Props.log_path o;
              log_fmt := Props.log_fmt o;
              vmaf_config_disable_clip := Props.vmaf_config_disable_clip o;
              vmaf_config_enable_transform :=
                Props.vmaf_config_enable_transform o;
              vmaf_config_phone_model := Props.vmaf_config_phone_model o;
              vmaf_config_psnr := Props.vmaf_config_psnr o;
              vmaf_config_ssim := Props.vmaf_config_ssim o;
              vmaf_config_ms_ssim := Props.vmaf_config_ms_ssim o;
              pool_method := Props.pool_method o;
              num_threads := Props.num_threads o;
              subsample := Props.subsample o;
              vmaf_config_conf_int := Props.vmaf_config_conf_int o |}
  end.

(** ** The bootstrap models of a result *)

(** The keys [RunVMAF] takes for bootstrap models: those that contain the
    prefix, in key order. *)
Definition bootstrap_keys (keys : list string) : list string :=
  List.filter (string_contains BOOSTRAP_VMAF_MODEL_PREFIX) keys.

(** The list of model names for the given bootstrap keys: the names joined
    by commas when there are two or more, the name followed by a comma when
    there is one. *)
Definition bootstrap_model_list (models : list string) : string :=
  match models with
  | [] => EmptyString
  | [a] => (a ++ ",")%string
  | _ => String.concat "," models
  end.

(** ** The outcome of a completed run *)




(** ** What the callback writes *)

(** The stores of a trace into the engine's reference buffer
    ([main = false]) or main buffer ([main = true]): offset and value, in
    order. *)
Definition writes (main : bool) (t : list action) : list (Z * Z) :=
  flat_map (fun a =>
    match a with
    | WriteFloat m off v => if Bool.eqb m main then [(off, v)] else []
    | _ => []
    end) t.

(** The frame data the callback reads for a buffer. *)
Definition source_ptr (main : bool) (hp : GstVmafThreadHelper) : pixels :=
  if main then distorted_ptr hp else original_ptr hp.

(** ** The shape of a dispatch *)

(** The commands by which [compare_frames] offers a frame pair to the
    worker and waits for it: the error check, the two frame pointers
    stored, [wait_frame] released, [wait_reading_complete] taken and the
    helper read. *)
Definition offer_trace (ref cmp : GstVideoFrame) (k : nat) : list action :=
  [MutexLock k m_check_error; Load k; MutexUnlock k m_check_error;
   Store k (set_reading_correct false);
   Store k (set_original_ptr (Some (buffer ref)));
   Store k (set_distorted_ptr (Some (buffer cmp)));
   MutexUnlock k m_wait_frame; MutexLock k m_wait_reading_complete; Load k].

(** A command that hands nothing to the worker and copies nothing out: no
    release of [wait_frame], no frame pointer stored, no write of the output
    buffer. *)
Definition hands_nothing (a : action) : Prop :=
  match a with
  | MutexUnlock _ m_wait_frame => False
  | Store _ (set_original_ptr _) | Store _ (set_distorted_ptr _) => False
  | WriteOut _ => False
  | _ => True
  end.

(** The helper a command works on, if any. *)
Definition helper_index (a : action) : option nat :=
  match a with
  | MutexLock i _ | MutexTrylock i _ | MutexUnlock i _ | Load i | Store i _
  | TaskStart i | TaskGetState i | TaskStop i | TaskWait i | RunnerRun i _ =>
      Some i
  | _ => None
  end.

(** The command works on no helper but [k]. *)
Definition on_stream (k : nat) (a : action) : Prop :=
  match helper_index a with
  | Some i => i = k
  | None => True
  end.

(** The command works on no helper of index [bound] or more. *)
Definition below (bound : nat) (a : action) : Prop :=
  match helper_index a with
  | Some i => (i < bound)%nat
  | None => True
  end.

(** ** What the streaming thread alone puts out *)

(** The times of the messages a trace posts, in order. *)
Definition posted (t : list action) : list Z :=
  flat_map (fun a =>
    match a with
    | PostMessage time => [time]
    | _ => []
    end) t.

(** The output buffer after the writes of a trace. *)
Definition outbuf_after (t : list action) (b : list Z) : list Z :=
  fold_left (fun b a =>
    match a with
    | WriteOut data => data ++ drop (length data) b
    | _ => b
    end) t b.

(** A command that posts no message and leaves the output buffer alone. *)
Definition posts_nothing (a : action) : Prop :=
  match a with
  | PostMessage _ | WriteOut _ => False
  | _ => True
  end.

(** Every command a worker thread still has to execute satisfies [ok]. *)
Definition wthread_acts (ok : action -> Prop) (t : wthread) : Prop :=
  match t with
  | WFunc p => acts ok any_answer p
  | WEngine _ k => forall o, acts ok any_answer (k o)
  | WRead p _ k => acts ok any_answer p /\ forall o, acts ok any_answer (k o)
  | _ => True
  end.

(** Bus and output buffer are what the streaming thread's commands made
    them, and no worker is about to touch them. *)
Definition streaming_outputs {A : Type} (c : config A) : Prop :=
  bus (shared c) = posted (plog c) /\
  outbuf (shared c) = outbuf_after (plog c) [] /\
  forall j, wthread_acts posts_nothing (workers c j).




(** ** The hand-over of one frame pair *)

(** What [compare_frames] does once it has taken [wait_reading_complete]:
    the rest of the function after the offer. *)
Definition hand_over_rest (ref : GstVideoFrame) (stream_index : nat)
  : prog bool :=
  hp ← load stream_index;
  if reading_correct hp then
    act (WriteOut (buffer ref)) ;;
    Ret true
  else
    g_mutex_lock stream_index m_check_error ;;
    hp ← load stream_index;
    (if negb (error hp =? 0) then try_thread_stop stream_index ;; Ret tt
     else Ret tt) ;;
    g_mutex_unlock stream_index m_check_error ;;
    Ret false.

(** The helper once the streaming thread has offered the pair: the frame
    pointers stored, [reading_correct] cleared, [wait_frame] released. *)
Definition offered (ref cmp : GstVideoFrame) (hp : GstVmafThreadHelper)
  : GstVmafThreadHelper :=
  with_mutex m_wait_frame false
    (apply_update (set_distorted_ptr (Some (buffer cmp)))
       (apply_update (set_original_ptr (Some (buffer ref)))
          (apply_update (set_reading_correct false)
             (with_mutex m_check_error false
                (with_mutex m_check_error true hp))))).

(** The helper once the callback has copied the pair. *)
Definition copied (hp : GstVmafThreadHelper) : GstVmafThreadHelper :=
  with_mutex m_wait_reading_complete false
    (apply_update (set_reading_correct true)
       (with_mutex m_wait_frame true hp)).

(** The helper once the task function has recorded the code [RunVMAF]
    returned: the error code assigned under [check_error], then
    [wait_reading_complete] released. *)
Definition finished (code : Z) (hp : GstVmafThreadHelper) : GstVmafThreadHelper :=
  with_mutex m_wait_reading_complete false
    (with_mutex m_check_error false
       (apply_update (set_error code) (with_mutex m_check_error true hp))).

(** The helper once a dispatch that waited has found the worker failed:
    [wait_reading_complete] taken, the task stopped, [check_error] taken and
    released. *)
Definition given_up (hp : GstVmafThreadHelper) : GstVmafThreadHelper :=
  with_mutex m_check_error false
    (with_task (task_with_state GST_TASK_STOPPED (vmaf_thread hp))
       (with_mutex m_check_error true
          (with_mutex m_wait_reading_complete true hp))).

(** ** Deactivation *)

(** The helper once [vmaf_threads_close] has signalled the end of the
    stream: [no_frames] set and [wait_frame] released. *)
Definition released (hp : GstVmafThreadHelper) : GstVmafThreadHelper :=
  with_mutex m_wait_frame false (apply_update (set_no_frames true) hp).

(** The helper once its task has been joined. *)
Definition joined (hp : GstVmafThreadHelper) : GstVmafThreadHelper :=
  with_task (task_with_state GST_TASK_STOPPED (vmaf_thread hp)) hp.

(** The commands of the two loops of [vmaf_threads_close] for helper [i]. *)
Definition signal_trace (i : nat) : list action :=
  [Store i (set_no_frames true); MutexTrylock i m_wait_frame;
   MutexUnlock i m_wait_frame].

Definition join_trace (i : nat) : list action := [TaskStop i; TaskWait i].

(** ** The error code of a stream *)

(** The command does not give helper [i] an error code other than 0. *)
Definition keeps_error (i : nat) (a : action) : Prop :=
  match a with
  | Store j (set_error e) => j <> i \/ e = 0
  | SetHelpers _ l => forall hp, l !! i = Some hp -> error hp = 0
  | _ => True
  end.

(** The answers of the engine's run on helper [h] that are followed: all
    but an exception of the run on helper [i]. *)
Definition engine_not_thrown (i h : nat) (o : engine_outcome) : Prop :=
  match o with
  | Thrown _ => h <> i
  | Returned _ => True
  end.

Definition unless_thrown (i : nat) (a : action) : answer a -> Prop :=
  match a return answer a -> Prop with
  | RunnerRun h _ => engine_not_thrown i h
  | _ => fun _ => True
  end.

(** [acts] with a condition on the result: every command reached under the
    answers [cont] admits satisfies [ok], and every result satisfies [P]. *)
Fixpoint acts_to {A : Type} (ok : action -> Prop)
    (cont : forall a : action, answer a -> Prop) (P : A -> Prop) (p : prog A)
  : Prop :=
  match p with
  | Ret a => P a
  | Act a k => ok a /\ forall x, cont a x -> acts_to ok cont P (k x)
  end.

Definition error_safe (i : nat) {A : Type} (p : prog A) : Prop :=
  acts (keeps_error i) (unless_thrown i) p.

Definition wthread_error_safe (i : nat) (t : wthread) : Prop :=
  match t with
  | WFunc p => error_safe i p
  | WEngine h k => forall o, engine_not_thrown i h o -> error_safe i (k o)
  | WRead p h k =>
      error_safe i p /\ forall o, engine_not_thrown i h o -> error_safe i (k o)
  | _ => True
  end.

(** Helper [i] has the error code 0 and no thread is about to change that
    before the engine throws. *)
Definition error_untouched (i : nat) {A : Type} (c : config A) : Prop :=
  (forall hp, helper (shared c) i = Some hp -> error hp = 0) /\
  error_safe i (pipeline c) /\
  forall j, wthread_error_safe i (workers c j).

(** ** A failed run after a completed one *)



(** ** A cycle behind a failed stream *)

(** Two comparison streams and three output cycles. *)
Definition two_stream_script : list pcall :=
  [call_change_state 3 GST_STATE_CHANGE_READY_TO_PAUSED;
   call_aggregate_frames [Some frame_a; Some frame_b; Some frame_b] 0;
   call_aggregate_frames [Some frame_a; Some frame_b; Some frame_b] 1;
   call_aggregate_frames [Some frame_a; Some frame_b; Some frame_b] 2].

(** Both workers consume the pair of the first cycle; then the engine of
    stream 0 throws and its worker records the error.  In the second cycle
    the dispatch of stream 0 fails and stream 1 is served; worker 0 leaves.
    The third cycle enters the dispatch of stream 0, and the engine of
    stream 1 asks for its next frame. *)
Definition two_stream_schedule : list label :=
  repeat LPipeline 13 ++ repeat (LWorker 0) 8 ++ [LEngineRead 0 8] ++
  repeat (LWorker 0) 17 ++ repeat LPipeline 16 ++
  repeat (LWorker 1) 8 ++ [LEngineRead 1 8] ++ repeat (LWorker 1) 17 ++
  [LEngineThrow 0 (runtime_error "no model")] ++ repeat (LWorker 0) 6 ++
  repeat LPipeline 21 ++ repeat (LWorker 0) 3 ++
  [LEngineRead 1 8] ++ repeat (LWorker 1) 17 ++
  repeat LPipeline 6 ++ [LEngineRead 1 8].

(** * Properties *)

(** ** Running one thread *)

Lemma exec_bind {A B : Type} (eng : option engine_outcome) (p : prog A) (f : A -> prog B) (w : world) :
  exec eng (bind p f) w =
  match exec eng p w with
  | Done a w' t => after_all t (exec eng (f a) w')
  | BlockedAt b k w' t => BlockedAt b (fun x => bind (k x) f) w' t
  | Crashed w' t => Crashed w' t
  end.
Proof.
  revert w. induction p as [a | a k IH]; intros w; simpl.
  - destruct (exec eng (f a) w); reflexivity.
  - destruct (act_sem_with eng a w) as [x w' | |]; simpl; try reflexivity.
    rewrite IH. destruct (exec eng (k x) w'); simpl; try reflexivity.
    destruct (exec eng (f a0) w0); reflexivity.
Qed.

Lemma exec_mbind {A B : Type} (eng : option engine_outcome) (p : prog A) (f : A -> prog B) (w : world) :
  exec eng (p ≫= f) w =
  match exec eng p w with
  | Done a w' t => after_all t (exec eng (f a) w')
  | BlockedAt b k w' t => BlockedAt b (fun x => bind (k x) f) w' t
  | Crashed w' t => Crashed w' t
  end.
Proof. apply exec_bind. Qed.

(** A loop whose body leaves the world alone. *)
Lemma exec_for_loop_pure (eng : option engine_outcome) (body : nat -> prog unit) (tr : nat -> list action)
    (w : world) (n i : nat) :
  (forall j, exec eng (body j) w = Done tt w (tr j)) ->
  exec eng (for_loop n i body) w = Done tt w (flat_map tr (seq i n)).
Proof.
  intros Hbody. revert i. induction n as [| n IH]; intros i; simpl.
  - reflexivity.
  - rewrite exec_mbind, Hbody, IH. simpl. reflexivity.
Qed.

Lemma exec_read_frame_row (eng : option engine_outcome) (h : nat) (hp : GstVmafThreadHelper) (w : world)
    (width row_off : Z) (i : nat) :
  helper w h = Some hp ->
  exec eng (read_frame_row h width row_off i) w =
  Done tt w (row_trace h hp width row_off i).
Proof.
  intros Hh. unfold read_frame_row, row_trace.
  apply exec_for_loop_pure. intros j.
  simpl. unfold on_helper. rewrite Hh. reflexivity.
Qed.

Lemma helper_set_helper_eq (w : world) (i : nat) (h0 h : GstVmafThreadHelper) :
  helper w i = Some h0 -> helper (set_helper i h w) i = Some h.
Proof.
  unfold helper, set_helper. simpl. intros H.
  apply list_lookup_insert_eq. eapply lookup_lt_Some; eauto.
Qed.

Lemma helper_set_helper_ne (w : world) (i j : nat) (h : GstVmafThreadHelper) :
  i <> j -> helper (set_helper i h w) j = helper w j.
Proof.
  unfold helper, set_helper. simpl. intros H.
  apply list_lookup_insert_ne. exact H.
Qed.


Lemma copy_trace_complete (h : nat) (hp : GstVmafThreadHelper) (stride : Z)
    (i j : nat) :
  (Z.of_nat i < frame_height hp) -> (Z.of_nat j < frame_width hp) ->
  In (WriteFloat false (Z.of_nat i * (stride / 4) + Z.of_nat j)
        (pixel_at (original_ptr hp) (Z.of_nat i * frame_width hp + Z.of_nat j)))
     (copy_trace h hp stride) /\
  In (WriteFloat true (Z.of_nat i * (stride / 4) + Z.of_nat j)
        (pixel_at (distorted_ptr hp) (Z.of_nat i * frame_width hp + Z.of_nat j)))
     (copy_trace h hp stride).
Proof.
  intros Hi Hj. unfold copy_trace.
  split; apply in_flat_map; exists i;
    (split; [apply in_seq; lia |]);
    unfold row_trace; apply in_flat_map; exists j;
    (split; [apply in_seq; lia |]); simpl; auto.
Qed.

(** ** C1: the pull callback *)



(** ** Programs and the commands they can reach *)

Lemma acts_bind {A B : Type} (ok : action -> Prop)
    (cont : forall a : action, answer a -> Prop) (p : prog A) (f : A -> prog B) :
  acts ok cont p -> (forall a, acts ok cont (f a)) -> acts ok cont (bind p f).
Proof.
  intros Hp Hf. induction p as [a | a k IH]; simpl in *.
  - apply Hf.
  - destruct Hp as [Ha Hk]. split; [exact Ha |].
    intros x Hx. apply IH. apply Hk. exact Hx.
Qed.

Lemma acts_mbind {A B : Type} (ok : action -> Prop)
    (cont : forall a : action, answer a -> Prop) (p : prog A) (f : A -> prog B) :
  acts ok cont p -> (forall a, acts ok cont (f a)) -> acts ok cont (p ≫= f).
Proof. apply acts_bind. Qed.

Lemma acts_for_loop (ok : action -> Prop)
    (cont : forall a : action, answer a -> Prop) (body : nat -> prog unit)
    (n i : nat) :
  (forall j, acts ok cont (body j)) -> acts ok cont (for_loop n i body).
Proof.
  intros Hb. revert i. induction n as [| n IH]; intros i; simpl.
  - exact I.
  - apply acts_bind; [apply Hb | intros _; apply IH].
Qed.

Lemma acts_act (ok : action -> Prop)
    (cont : forall a : action, answer a -> Prop) (a : action) :
  ok a -> acts ok cont (act a).
Proof. intros H. simpl. split; [exact H | intros; exact I]. Qed.

Lemma acts_log_file (ok : action -> Prop)
    (cont : forall a : action, answer a -> Prop) (l : list tok) :
  (forall t, ok (OfstreamWrite t)) -> acts ok cont (log_file l).
Proof.
  intros H. induction l as [| t l IH]; simpl.
  - exact I.
  - split; [apply H | intros _ _; exact IH].
Qed.

Lemma acts_act_bind {B : Type} (ok : action -> Prop)
    (cont : forall a : action, answer a -> Prop) (a : action)
    (f : answer a -> prog B) :
  ok a -> (forall x, cont a x -> acts ok cont (f x)) ->
  acts ok cont (act a ≫= f).
Proof. intros Ha Hf. simpl. split; [exact Ha | exact Hf]. Qed.

Lemma acts_bootstrap_loop (ok : action -> Prop)
    (cont : forall a : action, answer a -> Prop) (keys : list string)
    (result : Result) (pool : GstVmafPoolMethodEnum) (n : Z) (str : string) :
  (forall l, ok (Printf l)) ->
  acts ok cont (bootstrap_loop keys result pool n str).
Proof.
  intros Hok. revert n str.
  induction keys as [| key keys IH]; intros n str; cbn [bootstrap_loop].
  - exact I.
  - destruct (string_contains BOOSTRAP_VMAF_MODEL_PREFIX key); [| apply IH].
    apply acts_mbind; [| intros _; apply IH].
    apply acts_act. apply Hok.
Qed.

(** Splits a goal [acts ok cont p] along the structure of [p]. *)
Ltac acts_step :=
  match goal with
  | |- acts _ _ (act _ ≫= _) => apply acts_act_bind; [| intros ? ?]
  | |- acts _ _ (bootstrap_loop _ _ _ _ _) =>
      apply acts_bootstrap_loop; intros ?; exact I
  | |- acts _ _ (_ ≫= _) => apply acts_mbind; [| intros ?]
  | |- acts _ _ (bind _ _) => apply acts_bind; [| intros ?]
  | |- acts _ _ (for_loop _ _ _) => apply acts_for_loop; intros ?
  | |- acts _ _ (log_file _) => apply acts_log_file; intros ?; exact I
  | |- acts _ _ (act _) => apply acts_act
  | |- acts _ _ (Ret _) => exact I
  | |- acts _ _ (mret _) => exact I
  | |- acts _ _ abort => split; [| intros []]
  | |- acts _ _ (if ?b then _ else _) => destruct b
  | |- acts _ _ (match ?x with _ => _ end) => destruct x
  | |- acts _ _ (let '(_, _) := ?x in _) => destruct x
  end.

Ltac acts_unfold :=
  unfold g_mutex_lock, g_mutex_trylock, g_mutex_unlock, load, store, printf,
    gst_task_start, gst_task_get_state, gst_task_stop, gst_task_join,
    try_thread_stop, print_if, RunVMAF, RunVMAF_finish, write_json_log,
    frame_record, frame_metrics, report_aggregates, vmaf_thread_call_end,
    start_on_first_frame, hand_over_frame.

Ltac acts_solve :=
  repeat first [acts_step | progress acts_unfold]; try exact I.

Lemma score_safe_read_frame (i : nat) (stride : Z) (h : nat) :
  score_safe i (read_frame stride h).
Proof. unfold score_safe, read_frame, read_frame_row. acts_solve. Qed.

Lemma score_safe_compare_frames (i : nat) (ref cmp : GstVideoFrame) (j : nat) :
  score_safe i (compare_frames ref cmp j).
Proof.
  unfold score_safe, compare_frames, compare_frames_body. acts_solve.
Qed.

Lemma score_safe_aggregate_loop (i : nat) (l : list (option GstVideoFrame))
    (ref_frame : option GstVideoFrame) (res : bool) (j : nat) :
  score_safe i (aggregate_loop l ref_frame res j).
Proof.
  revert ref_frame res j.
  induction l as [| [f |] l IH]; intros ref_frame res j; cbn [aggregate_loop].
  - exact I.
  - destruct ref_frame as [r |]; [| apply IH].
    apply acts_mbind; [apply score_safe_compare_frames | intros b; apply IH].
  - apply IH.
Qed.

Lemma score_safe_open (i n : nat) : score_safe i (vmaf_threads_open n).
Proof.
  unfold score_safe, vmaf_threads_open. acts_solve. simpl.
  intros hp Hhp. apply list_lookup_fmap_Some in Hhp as (k & -> & _).
  reflexivity.
Qed.

Lemma score_safe_close (i : nat) : score_safe i vmaf_threads_close.
Proof. unfold score_safe, vmaf_threads_close. acts_solve. Qed.

Lemma score_safe_pipeline_prog (i : nat) (l : list pcall) :
  score_safe i (pipeline_prog l).
Proof.
  induction l as [| c l IH]; cbn [pipeline_prog]; [exact I |].
  apply acts_mbind; [| intros _; exact IH].
  destruct c as [n tr | pads pos]; cbn [pcall_prog].
  - unfold gst_vmaf_change_state.
    apply acts_mbind; [| intros _].
    + destruct tr; try exact I.
      apply acts_mbind; [apply score_safe_open | intros _; exact I].
    + destruct tr; try exact I.
      apply acts_mbind; [apply score_safe_close | intros _; exact I].
  - apply acts_mbind; [| intros _; exact I].
    unfold gst_vmaf_aggregate_frames.
    apply acts_mbind; [apply score_safe_aggregate_loop |].
    intros res. acts_solve.
Qed.

Lemma score_safe_vmaf_thread_call (i : nat) (vs : option nat) :
  score_safe i (vmaf_thread_call vs).
Proof.
  unfold score_safe, vmaf_thread_call. destruct vs as [h |]; [| exact I].
  acts_solve; simpl in *; try exact I; assumption.
Qed.

(** ** Steps of the system *)

Lemma helper_set_helper_inv (w : world) (n i : nat) (h' hp : GstVmafThreadHelper) :
  helper (set_helper n h' w) i = Some hp ->
  (n = i /\ hp = h') \/ (n <> i /\ helper w i = Some hp).
Proof.
  unfold helper, set_helper. simpl. intros H.
  apply list_lookup_insert_Some in H as [(-> & -> & _) | (Hne & H)]; auto.
Qed.

(** Inverts a step [act_sem a w = Stepped x w']. *)
Ltac act_sem_inv H :=
  match type of H with
  | act_sem ?a ?w = Stepped _ _ =>
      destruct a; simpl in H; unfold on_helper in H;
      try match type of H with
          | context [helper w ?n] =>
              let E := fresh "Eh" in
              destruct (helper w n) eqn:E; [| discriminate H]
          end;
      try match type of H with
          | context [if ?b then _ else _] => destruct b
          end;
      try match type of H with
          | context [match files w with _ => _ end] =>
              destruct (files w) as [| [? ?] ?]
          end;
      try discriminate H;
      injection H as ? ?; subst
  end.

Lemma act_sem_answer_followed (i : nat) (a : action) (w w' : world) (x : answer a) :
  act_sem a w = Stepped x w' -> unless_returned i a x.
Proof. intros H. destruct a; try exact I. simpl in H. discriminate H. Qed.

Lemma act_sem_keeps_score (i : nat) (a : action) (w w' : world) (x : answer a) :
  act_sem a w = Stepped x w' -> keeps_score i a ->
  (forall hp, helper w i = Some hp -> score hp = (-1)%float) ->
  forall hp, helper w' i = Some hp -> score hp = (-1)%float.
Proof.
  intros H Hok Hw hp Hhp.
  act_sem_inv H; simpl in *;
    try (apply Hw; exact Hhp);
    try (apply helper_set_helper_inv in Hhp as [(-> & ->) | (_ & Hhp)];
         [| apply Hw; exact Hhp]; simpl; try (apply Hw; assumption)).
  - destruct u; simpl; try (apply Hw; assumption). congruence.
  - apply Hok. exact Hhp.
  - unfold helper in Hhp. simpl in Hhp. discriminate Hhp.
Qed.

Lemma thread_act_inv {A X : Type} (c c' : config A) (i : nat) (a : action)
    (k : answer a -> prog X) (resume : prog X -> wthread)
    (engine : nat -> (engine_outcome -> prog X) -> option wthread) :
  thread_act c i a k resume engine = Some c' ->
  (exists x w', act_sem a (shared c) = Stepped x w' /\
                c' = set_worker i (resume (k x)) w' c) \/
  (exists t, c' = set_worker i t (shared c) c /\
     match a as a0 return (answer a0 -> prog X) -> Prop with
     | RunnerRun h _ => fun k0 => engine h k0 = Some t
     | _ => fun _ => False
     end k).
Proof.
  intros H.
  destruct a; cbv beta iota zeta delta [thread_act] in H;
    try (match type of H with
         | match act_sem ?a0 ?w with _ => _ end = _ =>
             destruct (act_sem a0 w) as [x w' | |] eqn:E; try discriminate H;
             injection H as <-; left; exists x, w'; split;
             [reflexivity | reflexivity]
         end).
  match type of H with
  | context [engine ?h ?k0] => destruct (engine h k0) as [t |] eqn:E
  end; [| discriminate H].
  injection H as <-. right. exists t. split; reflexivity.
Qed.

Lemma score_untouched_set_worker {A : Type} (i j : nat) (t : wthread)
    (w : world) (c : config A) :
  score_safe i (pipeline c) ->
  (forall j', wthread_score_safe i (workers c j')) ->
  (forall hp, helper w i = Some hp -> score hp = (-1)%float) ->
  wthread_score_safe i t ->
  score_untouched i (set_worker j t w c).
Proof.
  intros Hp Hws Hw Ht. split; [| split]; simpl.
  - exact Hw.
  - exact Hp.
  - intros j'. destruct (j' =? j)%nat; [exact Ht | apply Hws].
Qed.

Lemma score_untouched_step {A : Type} (i : nat) (l : label) (c c' : config A) :
  mstep l c = Some c' -> score_untouched i c ->
  score_untouched i c' \/ exists r, In (i, Returned r) (elog c').
Proof.
  intros Hstep (Hw & Hp & Hws).
  destruct l as [| j | j stride | j r | j e]; unfold mstep in Hstep.
  - (* the pipeline thread *)
    destruct (pipeline c) as [a | a k] eqn:Ep; [discriminate |].
    destruct (act_sem a (shared c)) as [x w' | |] eqn:Ea; try discriminate.
    injection Hstep as <-. left.
    destruct Hp as [Hok Hk]. split; [| split]; simpl.
    + eapply act_sem_keeps_score; eauto.
    + apply Hk. eapply act_sem_answer_followed; eauto.
    + exact Hws.
  - (* a worker thread *)
    pose proof (Hws j) as Hj.
    destruct (workers c j) as [| | p | h k | p h k |] eqn:Ew.
    + destruct (worker_task c j) as [t |]; [| discriminate].
      destruct (task_running t); [| discriminate].
      injection Hstep as <-. left.
      apply score_untouched_set_worker; auto; exact I.
    + unfold task_loop in Hstep.
      destruct (helper (shared c) j) as [hp |] eqn:Eh; [| discriminate].
      destruct (task_state (vmaf_thread hp)); try discriminate;
        injection Hstep as <-; left.
      * apply score_untouched_set_worker; auto.
        exact (score_safe_vmaf_thread_call i (Some j)).
      * apply score_untouched_set_worker; auto.
        intros hp' Hhp'.
        apply helper_set_helper_inv in Hhp' as [(-> & ->) | (_ & Hhp')];
          [| apply Hw; exact Hhp'].
        simpl. apply Hw. exact Eh.
    + destruct p as [u | a k].
      * injection Hstep as <-. left.
        apply score_untouched_set_worker; auto; exact I.
      * apply thread_act_inv in Hstep
          as [(x & w' & Ea & ->) | (t & -> & Ht)];
          left; destruct Hj as [Hok Hk].
        -- apply score_untouched_set_worker; auto.
           ++ eapply act_sem_keeps_score; eauto.
           ++ simpl. apply Hk. eapply act_sem_answer_followed; eauto.
        -- apply score_untouched_set_worker; auto.
           destruct a; try contradiction.
           injection Ht as <-. simpl. exact Hk.
    + discriminate.
    + destruct Hj as [Hp' Hk'].
      destruct p as [u | a kr].
      * injection Hstep as <-. left.
        apply score_untouched_set_worker; auto.
      * apply thread_act_inv in Hstep
          as [(x & w' & Ea & ->) | (t & -> & Ht)]; left.
        -- destruct Hp' as [Hok Hk].
           apply score_untouched_set_worker; auto.
           ++ eapply act_sem_keeps_score; eauto.
           ++ simpl. split; [| exact Hk'].
              apply Hk. eapply act_sem_answer_followed; eauto.
        -- destruct a; try contradiction. discriminate Ht.
    + destruct (worker_task c j) as [t |]; [| discriminate].
      destruct (task_running t); [| discriminate].
      injection Hstep as <-. left.
      apply score_untouched_set_worker; auto; exact I.
  - (* the engine calls the callback *)
    pose proof (Hws j) as Hj.
    destruct (workers c j) as [| | p | h k | p h k |]; try discriminate.
    injection Hstep as <-. left.
    apply score_untouched_set_worker; auto.
    split; [exact (score_safe_read_frame i stride h) | exact Hj].
  - (* the engine returns *)
    pose proof (Hws j) as Hj.
    destruct (workers c j) as [| | p | h k | p h k |]; try discriminate.
    injection Hstep as <-.
    destruct (decide (h = i)) as [-> | Hne].
    + right. exists r. simpl. apply in_or_app. right. left. reflexivity.
    + left.
      assert (Hs : score_untouched i
                     (set_worker j (WFunc (k (Returned r))) (shared c) c)).
      { apply score_untouched_set_worker; auto. simpl. apply Hj. exact Hne. }
      exact Hs.
  - (* the engine throws *)
    pose proof (Hws j) as Hj.
    destruct (workers c j) as [| | p | h k | p h k |]; try discriminate.
    injection Hstep as <-. left.
    assert (Hs : score_untouched i
                   (set_worker j (WFunc (k (Thrown e))) (shared c) c)).
    { apply score_untouched_set_worker; auto. simpl. apply Hj. exact I. }
    exact Hs.
Qed.

Lemma elog_mstep {A : Type} (l : label) (c c' : config A) (x : nat * engine_outcome) :
  mstep l c = Some c' -> In x (elog c) -> In x (elog c').
Proof.
  intros Hstep Hx.
  destruct l as [| j | j stride | j r | j e]; unfold mstep in Hstep.
  - destruct (pipeline c) as [a | a k]; [discriminate |].
    destruct (act_sem a (shared c)); try discriminate.
    injection Hstep as <-. exact Hx.
  - destruct (workers c j) as [| | p | h k | p h k |].
    + destruct (worker_task c j) as [t |]; [| discriminate].
      destruct (task_running t); [| discriminate].
      injection Hstep as <-. exact Hx.
    + unfold task_loop in Hstep.
      destruct (helper (shared c) j) as [hp |]; [| discriminate].
      destruct (task_state (vmaf_thread hp)); try discriminate;
        injection Hstep as <-; exact Hx.
    + destruct p as [u | a k].
      * injection Hstep as <-. exact Hx.
      * apply thread_act_inv in Hstep as [(y & w' & _ & ->) | (t & -> & _)];
          exact Hx.
    + discriminate.
    + destruct p as [u | a kr].
      * injection Hstep as <-. exact Hx.
      * apply thread_act_inv in Hstep as [(y & w' & _ & ->) | (t & -> & _)];
          exact Hx.
    + destruct (worker_task c j) as [t |]; [| discriminate].
      destruct (task_running t); [| discriminate].
      injection Hstep as <-. exact Hx.
  - destruct (workers c j); try discriminate. injection Hstep as <-. exact Hx.
  - destruct (workers c j); try discriminate. injection Hstep as <-.
    simpl. apply in_or_app. left. exact Hx.
  - destruct (workers c j); try discriminate. injection Hstep as <-.
    simpl. apply in_or_app. left. exact Hx.
Qed.

Lemma elog_mrun {A : Type} (s : list label) (c c' : config A)
    (x : nat * engine_outcome) :
  mrun s c = Some c' -> In x (elog c) -> In x (elog c').
Proof.
  revert c. induction s as [| l s IH]; intros c Hrun Hx; simpl in Hrun.
  - injection Hrun as <-. exact Hx.
  - destruct (mstep l c) as [c1 |] eqn:E; [| discriminate].
    eapply IH; eauto. eapply elog_mstep; eauto.
Qed.

Lemma score_untouched_mrun {A : Type} (i : nat) (s : list label) (c c' : config A) :
  mrun s c = Some c' -> score_untouched i c ->
  score_untouched i c' \/ exists r, In (i, Returned r) (elog c').
Proof.
  revert c. induction s as [| l s IH]; intros c Hrun Hc; simpl in Hrun.
  - injection Hrun as <-. left. exact Hc.
  - destruct (mstep l c) as [c1 |] eqn:E; [| discriminate].
    destruct (score_untouched_step i l c c1 E Hc) as [Hc1 | [r Hr]].
    + eapply IH; eauto.
    + right. exists r. eapply elog_mrun; eauto.
Qed.

Lemma score_untouched_element_config (i : nat) (cfg : GstVmaf) (l : list pcall) :
  score_untouched i (element_config cfg l).
Proof.
  split; [| split]; simpl.
  - intros hp H. unfold helper in H. simpl in H. discriminate H.
  - apply score_safe_pipeline_prog.
  - intros j. exact I.
Qed.

Lemma rets_exec {A : Type} (P : A -> Prop) (eng : option engine_outcome)
    (p : prog A) (w w' : world) (a : A) (t : list action) :
  rets P p -> exec eng p w = Done a w' t -> P a.
Proof.
  revert w w' t. induction p as [b | b k IH]; intros w w' t Hp H; simpl in *.
  - injection H as <- _ _. exact Hp.
  - destruct (act_sem_with eng b w) as [x w1 | |]; try discriminate.
    destruct (exec eng (k x) w1) as [a1 w2 t2 | |] eqn:E;
      simpl in H; try discriminate.
    injection H as <- _ _. eapply IH; eauto.
Qed.

Lemma rets_bind {A B : Type} (P : B -> Prop) (p : prog A) (f : A -> prog B) :
  (forall a, rets P (f a)) -> rets P (bind p f).
Proof.
  intros Hf. induction p as [a | a k IH]; simpl.
  - apply Hf.
  - intros x. apply IH.
Qed.

Lemma rets_mbind {A B : Type} (P : B -> Prop) (p : prog A) (f : A -> prog B) :
  (forall a, rets P (f a)) -> rets P (p ≫= f).
Proof. apply rets_bind. Qed.

Lemma RunVMAF_finish_returns_0 (h : nat) (cfg : GstVmaf) (width height : Z)
    (r : Result) :
  rets (fun code => code = 0) (RunVMAF_finish h cfg width height r).
Proof.
  unfold RunVMAF_finish.
  repeat (apply rets_mbind; intros ?).
  match goal with |- rets _ (let '(_, _) := ?x in _) => destruct x end.
  repeat (apply rets_mbind; intros ?).
  reflexivity.
Qed.

Lemma opened_world_helpers (cfg : GstVmaf) (n : nat) :
  helper_struct_pointer (opened_world cfg n) =
  map new_helper (seq 0 (Z.to_nat (Z.of_nat n - 1))).
Proof.
  unfold opened_world, vmaf_threads_open. cbv zeta.
  destruct (Z.ltb_spec (Z.of_nat n - 1) 0) as [Hlt | Hge].
  - replace (Z.to_nat (Z.of_nat n - 1)) with 0%nat by lia. reflexivity.
  - reflexivity.
Qed.

Lemma opened_world_helper (cfg : GstVmaf) (n i : nat) (hp : GstVmafThreadHelper) :
  helper (opened_world cfg n) i = Some hp -> hp = new_helper i.
Proof.
  unfold helper. rewrite opened_world_helpers. intros H.
  apply list_lookup_fmap_Some in H as (k & -> & Hk).
  apply lookup_seq in Hk as [-> _]. reflexivity.
Qed.

Lemma RunVMAF_thrown (e : exception) (w : world) (h : nat)
    (hp : GstVmafThreadHelper) :
  helper w h = Some hp ->
  exists code w' t,
    exec (Some (Thrown e)) (RunVMAF h) w = Done code w' t /\
    code < 0 /\ helper w' h = Some hp /\
    w' = with_stdout
           (stdout w ++
            [match e with
             | runtime_error what =>
                 [TStr "Caught runtime_error: "%string; TStr what; TStr nl]
             | logic_error what =>
                 [TStr "Caught logic_error: "%string; TStr what; TStr nl]
             | std_exception what =>
                 [TStr "Caught exception: "%string; TStr what; TStr nl]
             | unknown_exception =>
                 [TStr ("Unknown exception!" ++ nl)%string]
             end]) w /\
    code = match e with
           | runtime_error _ => -3
           | logic_error _ => -4
           | std_exception _ => -5
           | unknown_exception => -6
           end.
Proof.
  intros Hh. unfold RunVMAF. simpl. unfold on_helper. rewrite Hh.
  destruct e; simpl; eexists _, _, _; (split; [reflexivity |]);
    (split; [lia |]); (split; [exact Hh |]); split; reflexivity.
Qed.

Lemma RunVMAF_returned (r : Result) (w w' : world) (h : nat) (code : Z)
    (t : list action) :
  exec (Some (Returned r)) (RunVMAF h) w = Done code w' t -> code = 0.
Proof.
  unfold RunVMAF. cbn [mbind prog_bind bind act load exec act_sem_with].
  cbn [act_sem]. unfold on_helper.
  destruct (helper w h) as [hp |]; [| discriminate].
  cbn [after exec act_sem_with act_sem bind].
  set (p := RunVMAF_finish h (self w) (frame_width hp) (frame_height hp) r).
  destruct (exec (Some (Returned r)) p w) as [a w1 t1 | |] eqn:E;
    cbn [after]; try discriminate.
  intros H. injection H as <- _ _.
  eapply (rets_exec (fun code => code = 0)); [| exact E].
  apply RunVMAF_finish_returns_0.
Qed.

(** A run is given by what can be observed of its final configuration. *)
Lemma mrun_observe {A B : Type} (obs : config A -> B) (s : list label)
    (c0 : config A) (b : B) :
  option_map obs (mrun s c0) = Some b ->
  exists c, mrun s c0 = Some c /\ obs c = b.
Proof.
  destruct (mrun s c0) as [c |]; simpl; intros H; [| discriminate H].
  exists c. split; [reflexivity | congruence].
Defined.

(** ** The score field *)

(** X23.  [vmaf_threads_open] gives every helper the score -1 and the error
    0.  [RunVMAF] returns a negative code when the engine throws, leaving
    the helper as it was, and returns 0 whenever the engine's run returned.
    In every run of the element, under every schedule and every behaviour of
    the engine, a helper on whose stream no run of the engine has returned
    still has the score -1; so a score that is not negative tells that some
    run of the engine on that stream has returned.  It does not tell that
    the stream's last run did. *)
Theorem score_written_only_on_success :
  (forall cfg n i hp,
     helper (opened_world cfg n) i = Some hp ->
     score hp = (-1)%float /\ error hp = 0) /\
  (forall e w h hp,
     helper w h = Some hp ->
     exists code w' t,
       exec (Some (Thrown e)) (RunVMAF h) w = Done code w' t /\
       code < 0 /\ helper w' h = Some hp) /\
  (forall r w h code w' t,
     exec (Some (Returned r)) (RunVMAF h) w = Done code w' t -> code = 0) /\
  (forall cfg l s c i hp,
     mrun s (element_config cfg l) = Some c ->
     helper (shared c) i = Some hp ->
     (score hp = (-1)%float \/ exists r, In (i, Returned r) (elog c)) /\
     (PrimFloat.leb 0%float (score hp) = true ->
      exists r, In (i, Returned r) (elog c))).
Proof.
  split; [| split; [| split]].
  - intros cfg n i hp H. apply opened_world_helper in H as ->.
    split; reflexivity.
  - intros e w h hp H.
    destruct (RunVMAF_thrown e w h hp H) as (code & w' & t & H1 & H2 & H3 & _).
    exists code, w', t. auto.
  - intros r w h code w' t H. eapply RunVMAF_returned; eauto.
  - intros cfg l s c i hp Hrun Hhp.
    assert (Hor : score hp = (-1)%float \/ exists r, In (i, Returned r) (elog c)).
    { destruct (score_untouched_mrun i s _ c Hrun
                  (score_untouched_element_config i cfg l)) as [(Hw & _) | Hr].
      - left. apply Hw. exact Hhp.
      - right. exact Hr. }
    split; [exact Hor |].
    intros Hpos. destruct Hor as [Hs | Hr]; [| exact Hr].
    rewrite Hs in Hpos. vm_compute in Hpos. discriminate Hpos.
Qed.

Lemma score_written_only_on_success_witness :
  exists c hp,
    mrun failing_start_schedule
      (element_config gst_vmaf_init failing_start_script) = Some c /\
    helper (shared c) 0 = Some hp /\
    error hp = -3 /\
    (score hp = (-1)%float \/ exists r, In (0%nat, Returned r) (elog c)).
Proof.
  destruct (mrun_observe (fun c => option_map error (helper (shared c) 0))
              failing_start_schedule
              (element_config gst_vmaf_init failing_start_script)
              (Some (-3)))
    as (c & Hrun & Hobs); [vm_compute; reflexivity |].
  destruct (helper (shared c) 0) as [hp |] eqn:Hhp; [| discriminate Hobs].
  exists c, hp.
  split; [exact Hrun |]. split; [exact Hhp |].
  split; [simpl in Hobs; congruence |].
  destruct score_written_only_on_success as (_ & _ & _ & H).
  exact (proj1 (H gst_vmaf_init failing_start_script failing_start_schedule
                  c 0%nat hp Hrun Hhp)).
Defined.

(** ** C10: the score on an error path *)


(** ** Deadlock *)

Lemma thread_act_stuck {A X : Type} (c : config A) (i : nat) (a : action)
    (k : answer a -> prog X) (resume : prog X -> wthread)
    (engine : nat -> (engine_outcome -> prog X) -> option wthread) :
  is_runner_run a = false -> can_step a (shared c) = false ->
  thread_act c i a k resume engine = None.
Proof.
  unfold can_step. intros Hr Hs.
  destruct a; try discriminate Hr;
    cbv beta iota zeta delta [thread_act];
    destruct (act_sem _ (shared c)); try reflexivity; discriminate Hs.
Qed.

Lemma thread_act_no_engine {A X : Type} (c : config A) (i : nat) (a : action)
    (k : answer a -> prog X) (resume : prog X -> wthread) :
  is_runner_run a = true ->
  thread_act c i a k resume (fun _ _ => None) = None.
Proof. intros Hr. destruct a; try discriminate Hr. reflexivity. Qed.

Lemma deadlocked_of_stuck {A : Type} (c : config A) :
  pipeline_stuck c = true -> (forall j, worker_stuck c j = true) -> deadlocked c.
Proof.
  intros Hp Hw. split.
  - intros a Ha. unfold pipeline_stuck in Hp. rewrite Ha in Hp. discriminate Hp.
  - intros l. destruct l as [| j | j stride | j r | j e]; unfold mstep.
    + unfold pipeline_stuck, can_step in Hp.
      destruct (pipeline c) as [a | a k]; [reflexivity |].
      destruct (act_sem a (shared c)); try reflexivity. discriminate Hp.
    + specialize (Hw j). unfold worker_stuck in Hw.
      destruct (workers c j) as [| | p | h k | p h k |].
      * destruct (worker_task c j) as [t |]; [| reflexivity].
        destruct (task_running t); [discriminate Hw | reflexivity].
      * unfold task_loop.
        destruct (helper (shared c) j) as [hp |]; [| reflexivity].
        destruct (task_state (vmaf_thread hp)); try discriminate Hw.
        reflexivity.
      * destruct p as [u | a k]; [discriminate Hw |].
        apply andb_true_iff in Hw as [Hr Hs].
        apply thread_act_stuck.
        -- destruct (is_runner_run a); [discriminate Hr | reflexivity].
        -- destruct (can_step a (shared c)); [discriminate Hs | reflexivity].
      * discriminate Hw.
      * destruct p as [u | a kr]; [discriminate Hw |].
        destruct (is_runner_run a) eqn:Hr.
        -- apply thread_act_no_engine. exact Hr.
        -- apply thread_act_stuck; [exact Hr |].
           simpl in Hw.
           destruct (can_step a (shared c)); [discriminate Hw | reflexivity].
      * destruct (worker_task c j) as [t |]; [| reflexivity].
        destruct (task_running t); [discriminate Hw | reflexivity].
    + specialize (Hw j). unfold worker_stuck in Hw.
      destruct (workers c j) as [| | p | h k | p h k |];
        try reflexivity; discriminate Hw.
    + specialize (Hw j). unfold worker_stuck in Hw.
      destruct (workers c j) as [| | p | h k | p h k |];
        try reflexivity; discriminate Hw.
    + specialize (Hw j). unfold worker_stuck in Hw.
      destruct (workers c j) as [| | p | h k | p h k |];
        try reflexivity; discriminate Hw.
Qed.

Lemma workers_untouched_mstep {A : Type} (l : label) (c c' : config A) (j : nat) :
  mstep l c = Some c' -> label_worker l <> Some j -> workers c' j = workers c j.
Proof.
  intros Hstep Hl.
  assert (Hset : forall i t w, i <> j -> workers (set_worker i t w c) j = workers c j).
  { intros i t w Hi. simpl. destruct (Nat.eqb_spec j i); [congruence | reflexivity]. }
  destruct l as [| i | i stride | i r | i e]; unfold mstep in Hstep; simpl in Hl.
  - destruct (pipeline c) as [a | a k]; [discriminate |].
    destruct (act_sem a (shared c)); try discriminate.
    injection Hstep as <-. reflexivity.
  - assert (Hi : i <> j) by congruence.
    destruct (workers c i) as [| | p | h k | p h k |].
    + destruct (worker_task c i) as [t |]; [| discriminate].
      destruct (task_running t); [| discriminate].
      injection Hstep as <-. apply Hset. exact Hi.
    + unfold task_loop in Hstep.
      destruct (helper (shared c) i) as [hp |]; [| discriminate].
      destruct (task_state (vmaf_thread hp)); try discriminate;
        injection Hstep as <-; apply Hset; exact Hi.
    + destruct p as [u | a k].
      * injection Hstep as <-. apply Hset. exact Hi.
      * apply thread_act_inv in Hstep as [(y & w' & _ & ->) | (t & -> & _)];
          apply Hset; exact Hi.
    + discriminate.
    + destruct p as [u | a kr].
      * injection Hstep as <-. apply Hset. exact Hi.
      * apply thread_act_inv in Hstep as [(y & w' & _ & ->) | (t & -> & _)];
          apply Hset; exact Hi.
    + destruct (worker_task c i) as [t |]; [| discriminate].
      destruct (task_running t); [| discriminate].
      injection Hstep as <-. apply Hset. exact Hi.
  - assert (Hi : i <> j) by congruence.
    destruct (workers c i); try discriminate. injection Hstep as <-.
    apply Hset. exact Hi.
  - assert (Hi : i <> j) by congruence.
    destruct (workers c i); try discriminate. injection Hstep as <-.
    simpl. destruct (Nat.eqb_spec j i); [congruence | reflexivity].
  - assert (Hi : i <> j) by congruence.
    destruct (workers c i); try discriminate. injection Hstep as <-.
    simpl. destruct (Nat.eqb_spec j i); [congruence | reflexivity].
Qed.

Lemma workers_untouched_mrun {A : Type} (n : nat) (s : list label)
    (c c' : config A) (j : nat) :
  mrun s c = Some c' -> schedule_within n s = true -> (n <= j)%nat ->
  workers c' j = workers c j.
Proof.
  revert c. induction s as [| l s IH]; intros c Hrun Hs Hj; simpl in Hrun.
  - injection Hrun as <-. reflexivity.
  - destruct (mstep l c) as [c1 |] eqn:E; [| discriminate].
    simpl in Hs. apply andb_true_iff in Hs as [Hl Hs].
    rewrite (IH c1 Hrun Hs Hj).
    eapply workers_untouched_mstep; eauto.
    destruct (label_worker l) as [i |]; [| discriminate].
    apply Nat.ltb_lt in Hl. intros Heq. injection Heq as ->. lia.
Qed.

(** A run that ends in a configuration observed to be stuck ends in a
    deadlock. *)
Lemma deadlock_by_observation {A : Type} (n : nat) (s : list label)
    (c0 c : config A) :
  mrun s c0 = Some c ->
  (forall j, workers c0 j = WNotSpawned) ->
  schedule_within n s = true ->
  stuck_observation n c = true ->
  deadlocked c.
Proof.
  intros Hrun H0 Hs Hobs. unfold stuck_observation in Hobs.
  apply andb_true_iff in Hobs as [Hobs Hall].
  apply andb_true_iff in Hobs as [Hlen Hp].
  apply Nat.leb_le in Hlen.
  apply deadlocked_of_stuck; [exact Hp |].
  intros j. destruct (Nat.lt_ge_cases j n) as [Hlt | Hge].
  - rewrite forallb_forall in Hall. apply Hall. apply in_seq. lia.
  - unfold worker_stuck.
    rewrite (workers_untouched_mrun n s c0 c j Hrun Hs Hge), H0.
    unfold worker_task, helper.
    rewrite (lookup_ge_None_2 (helper_struct_pointer (shared c)) j); [reflexivity |].
    lia.
Qed.

(** ** C5: dispatch after a recorded error *)

(** C5, at the failing input.  With the error -3 recorded on stream 0, the
    next [compare_frames] returns FALSE without releasing [wait_frame] (the
    frame is not offered) but leaves [check_error] locked; the dispatch
    after that one does not return: it stays at its lock of [check_error];
    so does the task function, which therefore does not return either.  In
    the whole system: with an engine that throws at once and three output
    cycles, the streaming thread ends deadlocked in the third dispatch,
    after two dispatches that returned FALSE. *)
Theorem dispatch_after_error_blocks :
  let o1 := exec None (compare_frames frame_a frame_b 0)
              (world_of [errored_helper]) in
  let w1 := world_after_failed_dispatch in
  (result_of o1 = Some false /\
   existsb (is_unlock_of 0 m_wait_frame) (trace_of o1) = false /\
   option_map check_error (helper w1 0) = Some true) /\
  blocked_at (exec None (compare_frames frame_a frame_b 0) w1) =
    Some (MutexLock 0 m_check_error) /\
  (blocked_at (exec None (vmaf_thread_call (Some 0%nat)) w1) =
     Some (MutexLock 0 m_check_error) /\
   trace_of (exec None (vmaf_thread_call (Some 0%nat)) w1) = []) /\
  exists c,
    mrun errored_schedule (element_config gst_vmaf_init errored_script) = Some c /\
    deadlocked c /\
    next_action (pipeline c) = Some (MutexLock 0 m_check_error) /\
    dispatch_calls (plog c) = [0; 0; 0]%nat /\
    dispatch_results (plog c) = [(0%nat, false); (0%nat, false)] /\
    option_map error (helper (shared c) 0) = Some (-3).
Proof.
  cbv zeta. split; [| split; [| split]].
  - split; [| split]; vm_compute; reflexivity.
  - vm_compute. reflexivity.
  - split; vm_compute; reflexivity.
  - destruct (mrun_observe
                (fun c => (stuck_observation 1 c, next_action (pipeline c),
                           dispatch_calls (plog c), dispatch_results (plog c),
                           option_map error (helper (shared c) 0)))
                errored_schedule
                (element_config gst_vmaf_init errored_script)
                (true, Some (MutexLock 0 m_check_error), [0; 0; 0]%nat,
                 [(0%nat, false); (0%nat, false)], Some (-3)))
      as (c & Hrun & Hobs); [vm_compute; reflexivity |].
    injection Hobs as Hstuck Hnext Hcalls Hres Herr.
    exists c. split; [exact Hrun |].
    split; [| auto].
    apply (deadlock_by_observation 1 errored_schedule _ c Hrun);
      [intros j; reflexivity | vm_compute; reflexivity | exact Hstuck].
Qed.

(** ** C2: deactivation *)

(** C2, at the failing input.  A pool of three workers that never received
    a frame is closed by [vmaf_threads_close] alone: every helper gets
    [no_frames] and a released [wait_frame] before the first join, and every
    join returns at once.  But after a worker has recorded an error, the
    dispatch that finds the error returns with [check_error] held; the
    worker's task function, entered again by the task loop, waits for that
    mutex; [vmaf_threads_close] then waits in [gst_task_join] for a thread
    that cannot leave: the system is deadlocked with the task still
    running.  Without any error, too: a worker whose engine run has ended
    before its task is joined is sent into [RunVMAF] again by the task loop,
    where the first read waits for [wait_frame], and its join never
    returns. *)
Theorem deactivation_deadlock_after_error :
  (let o := exec None vmaf_threads_close (opened_world gst_vmaf_init 4) in
   result_of o = Some true /\
   trace_of o =
     [LoadNumber;
      Store 0 (set_no_frames true); MutexTrylock 0 m_wait_frame;
      MutexUnlock 0 m_wait_frame;
      Store 1 (set_no_frames true); MutexTrylock 1 m_wait_frame;
      MutexUnlock 1 m_wait_frame;
      Store 2 (set_no_frames true); MutexTrylock 2 m_wait_frame;
      MutexUnlock 2 m_wait_frame;
      TaskStop 0; TaskWait 0; TaskStop 1; TaskWait 1; TaskStop 2; TaskWait 2;
      FreeHelpers]) /\
  (exists c,
    mrun teardown_schedule (element_config gst_vmaf_init teardown_script) = Some c /\
    deadlocked c /\
    next_action (pipeline c) = Some (TaskWait 0) /\
    worker_next_action c 0 = Some (MutexLock 0 m_check_error) /\
    dispatch_results (plog c) = [(0%nat, true); (0%nat, false)] /\
    option_map (fun h => (error h, check_error h, no_frames h, wait_frame h,
                          task_running (vmaf_thread h)))
      (helper (shared c) 0) = Some (-3, true, true, false, true)) /\
  exists c,
    mrun clean_teardown_schedule
      (element_config gst_vmaf_init clean_teardown_script) = Some c /\
    deadlocked c /\
    next_action (pipeline c) = Some (TaskWait 1) /\
    worker_next_action c 1 = Some (MutexLock 1 m_wait_frame) /\
    dispatch_results (plog c) = [(0%nat, true); (1%nat, true)] /\
    map (fun h => (error h, no_frames h, wait_frame h,
                   task_running (vmaf_thread h)))
      (helper_struct_pointer (shared c)) =
    [(0, true, true, false); (0, true, true, true)].
Proof.
  split; [| split].
  - cbv zeta. split; vm_compute; reflexivity.
  - destruct (mrun_observe
                (fun c => (stuck_observation 1 c, next_action (pipeline c),
                           worker_next_action c 0, dispatch_results (plog c),
                           option_map
                             (fun h => (error h, check_error h, no_frames h,
                                        wait_frame h,
                                        task_running (vmaf_thread h)))
                             (helper (shared c) 0)))
                teardown_schedule
                (element_config gst_vmaf_init teardown_script)
                (true, Some (TaskWait 0), Some (MutexLock 0 m_check_error),
                 [(0%nat, true); (0%nat, false)],
                 Some (-3, true, true, false, true)))
      as (c & Hrun & Hobs); [vm_compute; reflexivity |].
    injection Hobs as Hstuck Hnext Hw Hres Hh.
    exists c. split; [exact Hrun |].
    split; [| auto].
    apply (deadlock_by_observation 1 teardown_schedule _ c Hrun);
      [intros j; reflexivity | vm_compute; reflexivity | exact Hstuck].
  - destruct (mrun_observe
                (fun c => (stuck_observation 2 c, next_action (pipeline c),
                           worker_next_action c 1, dispatch_results (plog c),
                           map (fun h => (error h, no_frames h, wait_frame h,
                                          task_running (vmaf_thread h)))
                             (helper_struct_pointer (shared c))))
                clean_teardown_schedule
                (element_config gst_vmaf_init clean_teardown_script)
                (true, Some (TaskWait 1), Some (MutexLock 1 m_wait_frame),
                 [(0%nat, true); (1%nat, true)],
                 [(0, true, true, false); (0, true, true, true)]))
      as (c & Hrun & Hobs); [vm_compute; reflexivity |].
    injection Hobs as Hstuck Hnext Hw Hres Hh.
    exists c. split; [exact Hrun |].
    split; [| auto].
    apply (deadlock_by_observation 2 clean_teardown_schedule _ c Hrun);
      [intros j; reflexivity | vm_compute; reflexivity | exact Hstuck].
Qed.

(** ** One output cycle *)

Lemma path_bind {A B : Type} (p : prog A) (f : A -> prog B) (t : list action)
    (r : B) :
  path (bind p f) t r ->
  exists t1 a t2, path p t1 a /\ path (f a) t2 r /\ t = t1 ++ t2.
Proof.
  revert t. induction p as [a | a k IH]; intros t H; simpl in H.
  - exists [], a, t. simpl. auto.
  - destruct H as (x & t' & -> & H).
    destruct (IH x t' H) as (t1 & a1 & t2 & H1 & H2 & ->).
    exists (a :: t1), a1, t2. simpl. split; [| auto].
    exists x, t1. auto.
Qed.

Lemma path_mbind {A B : Type} (p : prog A) (f : A -> prog B) (t : list action)
    (r : B) :
  path (p ≫= f) t r ->
  exists t1 a t2, path p t1 a /\ path (f a) t2 r /\ t = t1 ++ t2.
Proof. apply path_bind. Qed.

Lemma path_exec {A : Type} (eng : option engine_outcome) (p : prog A)
    (w w' : world) (t : list action) (r : A) :
  exec eng p w = Done r w' t -> path p t r.
Proof.
  revert w w' t. induction p as [a | a k IH]; intros w w' t H; simpl in *.
  - injection H as <- _ <-. auto.
  - destruct (act_sem_with eng a w) as [x w1 | |]; try discriminate.
    destruct (exec eng (k x) w1) as [a1 w2 t2 | |] eqn:E;
      simpl in H; try discriminate.
    injection H as <- _ <-. exists x, t2. split; [reflexivity |].
    eapply IH. exact E.
Qed.

Lemma aggregate_loop_path (l : list (option GstVideoFrame))
    (ref : GstVideoFrame) (res : bool) (k : nat) (t : list action) (r : bool) :
  path (aggregate_loop l (Some ref) res k) t r ->
  exists rs, dispatches ref (prepared_frames l) k t rs /\
             r = res && forallb id rs.
Proof.
  revert res k t.
  induction l as [| [f |] l IH]; intros res k t H; cbn [aggregate_loop] in H.
  - destruct H as [-> ->]. exists []. simpl. rewrite andb_true_r. auto.
  - apply path_mbind in H as (t1 & r1 & t2 & H1 & H2 & ->).
    destruct (IH _ _ _ H2) as (rs & Hd & ->).
    exists (r1 :: rs). split.
    + cbn. exists t1, r1, t2, rs. auto.
    + simpl. unfold id at 2. rewrite andb_assoc. reflexivity.
  - apply IH. exact H.
Qed.

Lemma aggregate_loop_path_none (l : list (option GstVideoFrame))
    (t : list action) (r : bool) :
  path (aggregate_loop l None true 0) t r ->
  match prepared_frames l with
  | [] => t = [] /\ r = true
  | ref :: cmps => exists rs, dispatches ref cmps 0 t rs /\ r = forallb id rs
  end.
Proof.
  induction l as [| [f |] l IH]; cbn [aggregate_loop]; intros H.
  - exact H.
  - cbn. apply aggregate_loop_path in H as (rs & Hd & ->).
    exists rs. auto.
  - apply IH. exact H.
Qed.

Lemma aggregate_frames_path (sinkpads : list (option GstVideoFrame))
    (position : Z) (t : list action) (r : GstFlowReturn) :
  path (gst_vmaf_aggregate_frames sinkpads position) t r ->
  aggregate_cycle sinkpads position t r.
Proof.
  unfold gst_vmaf_aggregate_frames, aggregate_cycle. intros H.
  apply path_mbind in H as (t1 & res & t2 & H1 & H2 & ->).
  apply aggregate_loop_path_none in H1.
  destruct (prepared_frames sinkpads) as [| ref cmps].
  - destruct H1 as [-> ->]. simpl in H2.
    destruct H2 as (x & t' & -> & -> & ->). auto.
  - destruct H1 as (rs & Hd & ->). exists t1, rs. split; [exact Hd |].
    destruct (forallb id rs); simpl in H2.
    + destruct H2 as (x & t' & -> & -> & ->). auto.
    + destruct H2 as [-> ->]. rewrite app_nil_r. auto.
Qed.

Lemma acts_path {A : Type} (ok : action -> Prop) (p : prog A) (t : list action)
    (r : A) :
  acts ok any_answer p -> path p t r -> Forall ok t.
Proof.
  revert t. induction p as [a | a k IH]; intros t Hp H; simpl in *.
  - destruct H as [-> _]. constructor.
  - destruct Hp as [Ha Hk]. destruct H as (x & t' & -> & H).
    constructor; [exact Ha |]. apply (IH x); [apply Hk; exact I | exact H].
Qed.

Lemma dispatch_calls_app (t1 t2 : list action) :
  dispatch_calls (t1 ++ t2) = dispatch_calls t1 ++ dispatch_calls t2.
Proof. unfold dispatch_calls. apply flat_map_app. Qed.

Lemma dispatch_results_app (t1 t2 : list action) :
  dispatch_results (t1 ++ t2) = dispatch_results t1 ++ dispatch_results t2.
Proof. unfold dispatch_results. apply flat_map_app. Qed.

Lemma no_notes_no_dispatch (t : list action) :
  Forall not_a_note t -> dispatch_calls t = [] /\ dispatch_results t = [].
Proof.
  induction 1 as [| a t Ha _ [IH1 IH2]]; [split; reflexivity |].
  destruct a; try contradiction; simpl; auto.
Qed.

Lemma compare_frames_body_no_notes (ref cmp : GstVideoFrame) (k : nat) :
  acts not_a_note any_answer (compare_frames_body ref cmp k).
Proof. unfold compare_frames_body. acts_solve. Qed.

Lemma compare_frames_path (ref cmp : GstVideoFrame) (k : nat) (t : list action)
    (r : bool) :
  path (compare_frames ref cmp k) t r ->
  dispatch_calls t = [k] /\ dispatch_results t = [(k, r)].
Proof.
  unfold compare_frames. intros H.
  apply path_mbind in H as (t1 & [] & t2 & H1 & H2 & ->).
  apply path_mbind in H2 as (t3 & res & t4 & H3 & H4 & ->).
  simpl in H1. destruct H1 as (_ & t' & -> & -> & _).
  simpl in H4. destruct H4 as (_ & t' & -> & (-> & ->)).
  destruct (no_notes_no_dispatch t3) as [Hc Hr].
  { eapply acts_path; [apply compare_frames_body_no_notes | exact H3]. }
  rewrite !dispatch_calls_app, !dispatch_results_app, Hc, Hr. simpl. auto.
Qed.

Lemma dispatches_trace (ref : GstVideoFrame) (cmps : list GstVideoFrame)
    (k : nat) (t : list action) (rs : list bool) :
  dispatches ref cmps k t rs ->
  length rs = length cmps /\
  dispatch_calls t = seq k (length cmps) /\
  dispatch_results t = combine (seq k (length cmps)) rs.
Proof.
  revert k t rs. induction cmps as [| f cmps IH]; intros k t rs H; simpl in H.
  - destruct H as [-> ->]. simpl. auto.
  - destruct H as (t1 & r1 & t2 & rs2 & H1 & H2 & -> & ->).
    apply compare_frames_path in H1 as [Hc Hr].
    destruct (IH _ _ _ H2) as (Hl & Hc2 & Hr2).
    rewrite dispatch_calls_app, dispatch_results_app, Hc, Hr, Hc2, Hr2.
    simpl. rewrite Hl. auto.
Qed.

Lemma mstep_pipeline {A : Type} (l : label) (c c' : config A) :
  mstep l c = Some c' ->
  (l = LPipeline /\ exists a k x,
      pipeline c = Act a k /\ pipeline c' = k x /\ plog c' = plog c ++ [a]) \/
  (pipeline c' = pipeline c /\ plog c' = plog c).
Proof.
  intros Hstep.
  destruct l as [| j | j stride | j r | j e]; unfold mstep in Hstep.
  - left. split; [reflexivity |].
    destruct (pipeline c) as [a | a k]; [discriminate |].
    destruct (act_sem a (shared c)) as [x w' | |]; try discriminate.
    injection Hstep as <-. exists a, k, x. auto.
  - right. destruct (workers c j) as [| | p | h k | p h k |].
    + destruct (worker_task c j) as [t |]; [| discriminate].
      destruct (task_running t); [| discriminate].
      injection Hstep as <-. auto.
    + unfold task_loop in Hstep.
      destruct (helper (shared c) j) as [hp |]; [| discriminate].
      destruct (task_state (vmaf_thread hp)); try discriminate;
        injection Hstep as <-; auto.
    + destruct p as [u | a k].
      * injection Hstep as <-. auto.
      * apply thread_act_inv in Hstep as [(y & w' & _ & ->) | (t & -> & _)];
          auto.
    + discriminate.
    + destruct p as [u | a kr].
      * injection Hstep as <-. auto.
      * apply thread_act_inv in Hstep as [(y & w' & _ & ->) | (t & -> & _)];
          auto.
    + destruct (worker_task c j) as [t |]; [| discriminate].
      destruct (task_running t); [| discriminate].
      injection Hstep as <-. auto.
  - right. destruct (workers c j); try discriminate.
    injection Hstep as <-. auto.
  - right. destruct (workers c j); try discriminate.
    injection Hstep as <-. auto.
  - right. destruct (workers c j); try discriminate.
    injection Hstep as <-. auto.
Qed.

(** What the streaming thread has executed when it returns is a complete
    execution of its program. *)
Lemma mrun_pipeline_path {A : Type} (s : list label) (c c' : config A) (r : A) :
  mrun s c = Some c' -> pipeline c' = Ret r ->
  exists t, plog c' = plog c ++ t /\ path (pipeline c) t r.
Proof.
  revert c. induction s as [| l s IH]; intros c Hrun Hret; simpl in Hrun.
  - injection Hrun as <-. exists []. rewrite app_nil_r, Hret. simpl. auto.
  - destruct (mstep l c) as [c1 |] eqn:E; [| discriminate].
    destruct (IH c1 Hrun Hret) as (t & Hlog & Hpath).
    apply mstep_pipeline in E
      as [(_ & a & k & x & Hp & Hp1 & Hl) | (Hp & Hl)].
    + exists (a :: t). rewrite Hlog, Hl, <- app_assoc. split; [reflexivity |].
      rewrite Hp. simpl. exists x, t. rewrite Hp1 in Hpath. auto.
    + exists t. rewrite Hlog, Hl. rewrite Hp in Hpath. auto.
Qed.

Lemma forallb_id_false (rs : list bool) : forallb id rs = false <-> In false rs.
Proof.
  induction rs as [| b rs IH]; simpl.
  - split; [discriminate | contradiction].
  - destruct b; simpl.
    + rewrite IH. split; [auto | intros [H | H]; [discriminate | exact H]].
    + split; auto.
Qed.

(** X22.  Whenever [gst_vmaf_aggregate_frames] returns, under any schedule
    and whatever the workers and the engines did meanwhile, the streaming
    thread has executed one complete [compare_frames] for every prepared
    frame after the first one (the cycle's [ref_frame]), in pad order and
    with stream indices 0, 1, ..., whatever the earlier dispatches returned;
    the result is GST_FLOW_ERROR exactly when one of these dispatches
    returned FALSE, and otherwise the message carrying the time was posted
    last and the result is GST_FLOW_OK.  A cycle need not return: one that
    follows a failed dispatch of the same stream does not. *)
Theorem aggregate_frames_cycle (c0 c : config GstFlowReturn)
    (sinkpads : list (option GstVideoFrame)) (position : Z) (s : list label)
    (r : GstFlowReturn) :
  pipeline c0 = gst_vmaf_aggregate_frames sinkpads position ->
  plog c0 = [] ->
  mrun s c0 = Some c ->
  pipeline c = Ret r ->
  aggregate_cycle sinkpads position (plog c) r /\
  exists rs,
    length rs = (length (prepared_frames sinkpads) - 1)%nat /\
    dispatch_calls (plog c) = seq 0 (length rs) /\
    dispatch_results (plog c) = combine (seq 0 (length rs)) rs /\
    (r = GST_FLOW_ERROR <-> In false rs) /\
    (r = GST_FLOW_OK <-> ~ In false rs) /\
    (r = GST_FLOW_OK -> last (plog c) = Some (PostMessage position)).
Proof.
  intros Hp Hlog Hrun Hret.
  destruct (mrun_pipeline_path s c0 c r Hrun Hret) as (t & Ht & Hpath).
  rewrite Hlog in Ht. simpl in Ht. rewrite Ht. rewrite Hp in Hpath.
  apply aggregate_frames_path in Hpath.
  split; [exact Hpath |].
  unfold aggregate_cycle in Hpath.
  destruct (prepared_frames sinkpads) as [| ref cmps].
  - destruct Hpath as [-> ->]. exists []. simpl.
    repeat split; auto; try discriminate; try contradiction.
  - destruct Hpath as (td & rs & Hd & Hres).
    destruct (dispatches_trace _ _ _ _ _ Hd) as (Hl & Hc & Hr).
    exists rs. simpl. rewrite Nat.sub_0_r. split; [exact Hl |].
    rewrite Hl.
    destruct (forallb id rs) eqn:Hall.
    + destruct Hres as [-> ->].
      rewrite dispatch_calls_app, dispatch_results_app, Hc, Hr. simpl.
      rewrite !app_nil_r.
      assert (Hn : ~ In false rs).
      { intros Hin. apply forallb_id_false in Hin. congruence. }
      repeat split; auto; try discriminate; try contradiction.
      intros _. apply last_snoc.
    + destruct Hres as [-> ->].
      assert (Hin : In false rs) by (apply forallb_id_false; exact Hall).
      repeat split; auto; try discriminate; try contradiction.
Qed.

Lemma aggregate_frames_cycle_witness :
  exists c,
    mrun one_cycle_schedule
      (start_config (opened_world gst_vmaf_init 2)
         (gst_vmaf_aggregate_frames [Some frame_a; Some frame_b] 7)) = Some c /\
    pipeline c = Ret GST_FLOW_OK /\
    aggregate_cycle [Some frame_a; Some frame_b] 7 (plog c) GST_FLOW_OK /\
    dispatch_results (plog c) = [(0%nat, true)].
Proof.
  destruct (mrun_observe
              (fun c => (match pipeline c with
                         | Ret r => Some r
                         | Act _ _ => None
                         end, dispatch_results (plog c)))
              one_cycle_schedule
              (start_config (opened_world gst_vmaf_init 2)
                 (gst_vmaf_aggregate_frames [Some frame_a; Some frame_b] 7))
              (Some GST_FLOW_OK, [(0%nat, true)]))
    as (c & Hrun & Hobs); [vm_compute; reflexivity |].
  injection Hobs as Hret Hres.
  assert (Hp : pipeline c = Ret GST_FLOW_OK).
  { destruct (pipeline c); [congruence | discriminate]. }
  exists c. split; [exact Hrun |]. split; [exact Hp |].
  split; [| exact Hres].
  exact (proj1 (aggregate_frames_cycle
                  (start_config (opened_world gst_vmaf_init 2)
                     (gst_vmaf_aggregate_frames [Some frame_a; Some frame_b] 7))
                  c [Some frame_a; Some frame_b] 7
                  one_cycle_schedule GST_FLOW_OK eq_refl eq_refl Hrun Hp)).
Defined.

(** ** C3: a cycle behind a failed stream *)

(** C3, at the failing input.  Two comparison streams, three output cycles;
    the engine of stream 0 throws after the first pair.  The first cycle
    dispatches both streams and posts its message.  The second cycle
    dispatches stream 0, which fails, and still dispatches stream 1, which
    succeeds; it posts nothing.  The dispatch of stream 0 has left
    [check_error] locked, so the third cycle stays at that lock in its
    dispatch of stream 0: it never attempts the dispatch of stream 1, whose
    worker waits for its next frame, and it has no result.  No thread can
    take a step any more. *)
Theorem cycle_blocked_by_failed_stream :
  exists c,
    mrun two_stream_schedule
      (element_config gst_vmaf_init two_stream_script) = Some c /\
    deadlocked c /\
    next_action (pipeline c) = Some (MutexLock 0 m_check_error) /\
    worker_next_action c 1 = Some (MutexLock 1 m_wait_frame) /\
    dispatch_calls (plog c) = [0; 1; 0; 1; 0]%nat /\
    dispatch_results (plog c) =
      [(0%nat, true); (1%nat, true); (0%nat, false); (1%nat, true)] /\
    bus (shared c) = [0] /\
    map (fun h => (error h, check_error h, wait_frame h,
                   task_running (vmaf_thread h)))
      (helper_struct_pointer (shared c)) =
    [(-3, true, true, false); (0, false, true, true)].
Proof.
  destruct (mrun_observe
              (fun c => (stuck_observation 2 c, next_action (pipeline c),
                         worker_next_action c 1, dispatch_calls (plog c),
                         dispatch_results (plog c), bus (shared c),
                         map (fun h => (error h, check_error h, wait_frame h,
                                        task_running (vmaf_thread h)))
                           (helper_struct_pointer (shared c))))
              two_stream_schedule
              (element_config gst_vmaf_init two_stream_script)
              (true, Some (MutexLock 0 m_check_error),
               Some (MutexLock 1 m_wait_frame), [0; 1; 0; 1; 0]%nat,
               [(0%nat, true); (1%nat, true); (0%nat, false); (1%nat, true)],
               [0], [(-3, true, true, false); (0, false, true, true)]))
    as (c & Hrun & Hobs); [vm_compute; reflexivity |].
  injection Hobs as Hstuck Hnext Hw1 Hcalls Hres Hbus Hh.
  exists c. split; [exact Hrun |].
  split; [| repeat split; assumption].
  apply (deadlock_by_observation 2 two_stream_schedule _ c Hrun);
    [intros j; reflexivity | vm_compute; reflexivity | exact Hstuck].
Qed.

(** ** The report *)

Lemma written_bind {A B : Type} (p : prog A) (f : A -> prog B) (a : A)
    (l : list tok) (b : B) (l' : list tok) :
  written p = Some (a, l) -> written (f a) = Some (b, l') ->
  written (bind p f) = Some (b, l ++ l').
Proof.
  revert l. induction p as [a0 | a0 k IH]; intros l Hp Hf; simpl in *.
  - injection Hp as -> <-. exact Hf.
  - destruct a0; try discriminate Hp.
    destruct (written (k tt)) as [[r1 l1] |] eqn:E; [| discriminate Hp].
    injection Hp as -> <-.
    rewrite (IH tt l1 E Hf). reflexivity.
Qed.

Lemma written_mbind {A B : Type} (p : prog A) (f : A -> prog B) (a : A)
    (l : list tok) (b : B) (l' : list tok) :
  written p = Some (a, l) -> written (f a) = Some (b, l') ->
  written (p ≫= f) = Some (b, l ++ l').
Proof. apply written_bind. Qed.

Lemma written_log_file (l : list tok) : written (log_file l) = Some (tt, l).
Proof.
  unfold log_file. induction l as [| t l IH]; [reflexivity |].
  cbn [foldr fold_right]. cbn [mbind prog_bind act bind written].
  cbn [mbind prog_bind act bind] in IH. rewrite IH. reflexivity.
Qed.

Lemma written_for_loop (body : nat -> prog unit) (g : nat -> list tok)
    (n i : nat) :
  (forall j, (i <= j < i + n)%nat -> written (body j) = Some (tt, g j)) ->
  written (for_loop n i body) = Some (tt, flat_map g (seq i n)).
Proof.
  revert i. induction n as [| n IH]; intros i Hb; simpl.
  - reflexivity.
  - apply (written_bind (body i) _ tt (g i) tt).
    + apply Hb. lia.
    + apply IH. intros j Hj. apply Hb. lia.
Qed.

Lemma exec_written {A : Type} (eng : option engine_outcome) (p : prog A) (a : A)
    (l : list tok) (w : world) (path : string) (content : list tok)
    (rest : list (string * list tok)) :
  written p = Some (a, l) -> files w = (path, content) :: rest ->
  exec eng p w =
  Done a (with_files ((path, content ++ l) :: rest) w) (map OfstreamWrite l).
Proof.
  revert l w content. induction p as [a0 | a0 k IH]; intros l w content Hp Hf;
    simpl in *.
  - injection Hp as -> <-. rewrite app_nil_r.
    destruct w; simpl in *. subst. reflexivity.
  - destruct a0; try discriminate Hp.
    destruct (written (k tt)) as [[r1 l1] |] eqn:E; [| discriminate Hp].
    injection Hp as -> <-. simpl. rewrite Hf.
    rewrite (IH tt l1 _ (content ++ [t]) E); [| reflexivity].
    simpl. rewrite <- app_assoc. reflexivity.
Qed.

Lemma written_bind_eq {A B : Type} (p : prog A) (f : A -> prog B) :
  written (p ≫= f) =
  match written p with
  | Some (a, l) =>
      match written (f a) with
      | Some (b, l') => Some (b, l ++ l')
      | None => None
      end
  | None => None
  end.
Proof.
  change (p ≫= f) with (bind p f).
  induction p as [a0 | a0 k IH]; simpl.
  - destruct (written (f a0)) as [[b l'] |]; reflexivity.
  - destruct a0; try reflexivity.
    rewrite IH. destruct (written (k tt)) as [[a l] |]; [| reflexivity].
    destruct (written (f a)) as [[b l'] |]; reflexivity.
Qed.

Lemma find_scores_in (key : string) (l : list (string * list double)) :
  In key (map fst l) -> exists v, find_scores key l = Some v /\ In (key, v) l.
Proof.
  induction l as [| [k v] l IH]; simpl; [contradiction |].
  intros Hin. destruct (String.eqb_spec key k) as [-> | Hne].
  - exists v. auto.
  - destruct Hin as [Heq | Hin]; [congruence |].
    destruct (IH Hin) as (v' & Hf & Hv). exists v'. auto.
Qed.

Lemma rectangular_get_scores (r : Result) (n : nat) (key : string) :
  rectangular r n -> In key (get_keys r) -> length (get_scores r key) = n.
Proof.
  unfold rectangular, get_keys, get_scores. intros Hrect Hin.
  destruct (find_scores_in key _ Hin) as (v & -> & Hv).
  rewrite Forall_forall in Hrect. apply (Hrect (key, v)).
  apply list_elem_of_In. exact Hv.
Qed.

Lemma written_frame_metrics (r : Result) (n i : nat) :
  rectangular r n -> (i < n)%nat ->
  written (frame_metrics r (get_keys r) i) =
  Some (tt, frame_metrics_toks r (get_keys r) i).
Proof.
  intros Hrect Hi. unfold frame_metrics, frame_metrics_toks.
  apply written_for_loop. intros j Hj. cbv zeta.
  assert (Hlen : length (get_scores r (nth j (get_keys r) EmptyString)) = n).
  { apply rectangular_get_scores; [exact Hrect |]. apply nth_In. lia. }
  assert (Hnth : nth_error (get_scores r (nth j (get_keys r) EmptyString)) i =
                 Some (nth i (get_scores r (nth j (get_keys r) EmptyString))
                         0%float))
    by (apply nth_error_nth'; lia).
  rewrite Hnth.
  rewrite written_bind_eq, written_log_file.
  destruct (j =? length (get_keys r) - 1)%nat; rewrite written_log_file;
    reflexivity.
Qed.

Lemma written_frame_record (r : Result) (n_subsample : Z) (n i : nat) :
  rectangular r n -> (i < n)%nat ->
  written (frame_record r (get_keys r) n_subsample n i) =
  Some (tt, frame_record_toks r (get_keys r) n_subsample n i).
Proof.
  intros Hrect Hi. unfold frame_record.
  rewrite !written_bind_eq, !written_log_file.
  rewrite (written_frame_metrics r n i Hrect Hi).
  unfold frame_record_toks, frame_record_rest.
  destruct (i =? n - 1)%nat; rewrite written_log_file; reflexivity.
Qed.

Lemma written_report_aggregates (v p s m : double) :
  written (report_aggregates v p s m) = Some (tt, report_aggregates_toks v p s m).
Proof.
  unfold report_aggregates, report_aggregates_toks.
  rewrite !written_bind_eq, !written_log_file.
  destruct (double_true p), (double_true s), (double_true m);
    rewrite ?written_log_file; reflexivity.
Qed.

Lemma written_json_keys (keys : list string) :
  written
    (for_loop (length keys) 0 (fun j =>
       log_file [TStr ("    " ++ quoted (nth j keys EmptyString))%string] ;;
       (if (j <? length keys - 1)%nat then log_file [TStr ","%string]
        else Ret tt) ;;
       log_file [TEndl])) =
  Some (tt, json_keys_toks keys).
Proof.
  unfold json_keys_toks. apply written_for_loop. intros j _.
  rewrite !written_bind_eq, !written_log_file.
  destruct (j <? length keys - 1)%nat; rewrite ?written_log_file; reflexivity.
Qed.

(** The report [write_json_log] leaves in the file it opens. *)
Lemma exec_write_json_log (eng : option engine_outcome) (path model : string)
    (width height n_subsample nb : Z) (bl : string) (r : Result)
    (v p s m : double) (w : world) :
  rectangular r (length (get_scores r "vmaf")) ->
  exists t,
    exec eng (write_json_log path model width height n_subsample nb bl r
                (get_keys r) v p s m) w =
    Done tt
      (with_files
         ((path, json_toks model width height n_subsample nb bl r (get_keys r)
                   v p s m) :: files w) w) t.
Proof.
  intros Hrect. unfold write_json_log.
  rewrite exec_mbind.
  replace (exec eng (act (OfstreamOpen path)) w)
    with (Done tt (with_files ((path, []) :: files w) w) [OfstreamOpen path])
    by reflexivity.
  cbv beta iota.
  erewrite exec_written; [| | reflexivity].
  - cbn [after_all app]. eexists. destruct w. reflexivity.
  - rewrite !written_bind_eq, !written_log_file.
    rewrite written_json_keys.
    rewrite (written_for_loop _
               (frame_record_toks r (get_keys r) n_subsample
                  (length (get_scores r "vmaf")))).
    2: { intros j Hj. apply written_frame_record; [exact Hrect | lia]. }
    rewrite written_report_aggregates.
    reflexivity.
Qed.

(** *** Frame numbers of the report *)

Lemma frame_numbers_no_int (l1 l2 : list tok) :
  no_int l1 = true -> starts_with_int l2 = false ->
  frame_numbers (l1 ++ l2) = frame_numbers l2.
Proof.
  unfold no_int. induction l1 as [| t l1 IH]; intros H1 H2; [reflexivity |].
  simpl in H1. apply negb_true_iff in H1. apply orb_false_iff in H1 as [Ht H1].
  assert (IH' : frame_numbers (l1 ++ l2) = frame_numbers l2).
  { apply IH; [apply negb_true_iff; exact H1 | exact H2]. }
  destruct t; try discriminate Ht; cbn [app frame_numbers]; try exact IH'.
  destruct l1 as [| t1 l1]; cbn [app].
  - destruct l2 as [| [] l2]; try discriminate H2; exact IH'.
  - simpl in H1. apply orb_false_iff in H1 as [Ht1 _].
    destruct t1; try discriminate Ht1; exact IH'.
Qed.

Lemma frame_numbers_no_int_nil (l : list tok) :
  no_int l = true -> frame_numbers l = [].
Proof.
  intros H. rewrite <- (app_nil_r l).
  rewrite frame_numbers_no_int; [reflexivity | exact H | reflexivity].
Qed.

Lemma no_int_app (l1 l2 : list tok) :
  no_int (l1 ++ l2) = no_int l1 && no_int l2.
Proof.
  unfold no_int. rewrite existsb_app, negb_orb. reflexivity.
Qed.

Lemma no_int_flat_map {X : Type} (g : X -> list tok) (l : list X) :
  (forall x, no_int (g x) = true) -> no_int (flat_map g l) = true.
Proof.
  intros Hg. induction l as [| x l IH]; [reflexivity |].
  simpl. rewrite no_int_app, Hg, IH. reflexivity.
Qed.

Lemma no_int_frame_record_rest (r : Result) (keys : list string) (n i : nat) :
  no_int (frame_record_rest r keys n i) = true.
Proof.
  unfold frame_record_rest, frame_metrics_toks.
  rewrite !no_int_app. rewrite no_int_flat_map.
  - destruct (i =? n - 1)%nat; reflexivity.
  - intros j. cbv zeta. destruct (j =? length keys - 1)%nat; reflexivity.
Qed.

Lemma no_int_json_keys (keys : list string) : no_int (json_keys_toks keys) = true.
Proof.
  unfold json_keys_toks. apply no_int_flat_map. intros j.
  destruct (j <? length keys - 1)%nat; reflexivity.
Qed.

Lemma no_int_report_aggregates (v p s m : double) :
  no_int (report_aggregates_toks v p s m) = true.
Proof.
  unfold report_aggregates_toks.
  destruct (double_true p), (double_true s), (double_true m); reflexivity.
Qed.

Lemma frame_numbers_record (r : Result) (keys : list string) (n_subsample : Z)
    (n i : nat) (rest : list tok) :
  starts_with_int rest = false ->
  frame_numbers (frame_record_toks r keys n_subsample n i ++ rest) =
  size_t_mul_int (Z.of_nat i) n_subsample :: frame_numbers rest.
Proof.
  intros Hrest. unfold frame_record_toks.
  rewrite <- app_assoc. cbn [app frame_numbers].
  rewrite String.eqb_refl. f_equal.
  apply frame_numbers_no_int; [apply no_int_frame_record_rest | exact Hrest].
Qed.

Lemma starts_with_int_records (r : Result) (keys : list string) (n_subsample : Z)
    (n : nat) (l : list nat) (rest : list tok) :
  starts_with_int rest = false ->
  starts_with_int
    (flat_map (frame_record_toks r keys n_subsample n) l ++ rest) = false.
Proof. intros Hrest. destruct l; [exact Hrest | reflexivity]. Qed.

Lemma frame_numbers_records (r : Result) (keys : list string) (n_subsample : Z)
    (n : nat) (l : list nat) (rest : list tok) :
  starts_with_int rest = false ->
  frame_numbers (flat_map (frame_record_toks r keys n_subsample n) l ++ rest) =
  map (fun i => size_t_mul_int (Z.of_nat i) n_subsample) l ++ frame_numbers rest.
Proof.
  intros Hrest. induction l as [| i l IH]; [reflexivity |].
  cbn [flat_map map]. rewrite <- app_assoc.
  rewrite frame_numbers_record; [| apply starts_with_int_records; exact Hrest].
  rewrite IH. reflexivity.
Qed.

Lemma frame_numbers_json_toks (model : string) (width height n_subsample nb : Z)
    (bl : string) (r : Result) (keys : list string) (v p s m : double) :
  frame_numbers (json_toks model width height n_subsample nb bl r keys v p s m) =
  map (fun i => size_t_mul_int (Z.of_nat i) n_subsample)
    (seq 0 (length (get_scores r "vmaf"))).
Proof.
  unfold json_toks, json_params_toks. cbn [app frame_numbers].
  repeat match goal with
         | |- context [String.eqb ?x frameNum_key] =>
             let b := eval vm_compute in (String.eqb x frameNum_key) in
             change (String.eqb x frameNum_key) with b; cbv iota
         end.
  rewrite frame_numbers_no_int; [| apply no_int_json_keys | reflexivity].
  cbn [app frame_numbers].
  rewrite frame_numbers_records; [| reflexivity].
  cbn [app frame_numbers].
  rewrite frame_numbers_no_int_nil; [| apply no_int_report_aggregates].
  apply app_nil_r.
Qed.

(** *** The frames the engine scores *)

Lemma ceil_div_spec (t s : nat) :
  (1 <= s)%nat ->
  ((t + s - 1) / s = t / s + (if (t mod s =? 0)%nat then 0 else 1))%nat.
Proof.
  intros Hs. pose proof (Nat.div_mod_eq t s) as Hdm.
  pose proof (Nat.mod_upper_bound t s ltac:(lia)) as Hm.
  destruct (Nat.eqb_spec (t mod s) 0) as [H0 | H0].
  - symmetry. apply (Nat.div_unique _ _ _ (s - 1)%nat); lia.
  - symmetry. apply (Nat.div_unique _ _ _ (t mod s - 1)%nat); lia.
Qed.

Lemma scored_frames_S (t s : nat) :
  scored_frames (S t) s =
  scored_frames t s ++ (if (t mod s =? 0)%nat then [t] else []).
Proof.
  unfold scored_frames. rewrite seq_S. simpl.
  rewrite List.filter_app. simpl.
  destruct (t mod s =? 0)%nat; reflexivity.
Qed.

Lemma scored_frames_spec (total s : nat) :
  (1 <= s)%nat ->
  scored_frames total s =
  map (fun k => (k * s)%nat) (seq 0 ((total + s - 1) / s)).
Proof.
  intros Hs. induction total as [| t IH].
  - replace ((0 + s - 1) / s)%nat with 0%nat; [reflexivity |].
    symmetry. apply Nat.div_small. lia.
  - rewrite scored_frames_S, IH.
    rewrite (ceil_div_spec (S t) s Hs), (ceil_div_spec t s Hs).
    pose proof (Nat.div_mod_eq t s) as Hdm.
    pose proof (Nat.mod_upper_bound t s ltac:(lia)) as Hm.
    pose proof (Nat.div_mod_eq (S t) s) as Hdm'.
    pose proof (Nat.mod_upper_bound (S t) s ltac:(lia)) as Hm'.
    destruct (Nat.eqb_spec (t mod s) 0) as [H0 | H0].
    + (* t is on the stride: it is the next scored frame *)
      assert (Hq : (S t / s = t / s)%nat \/ s = 1%nat).
      { destruct (Nat.eq_dec s 1%nat) as [-> | Hs1]; [right; reflexivity | left].
        symmetry. apply (Nat.div_unique _ _ _ 1%nat); lia. }
      destruct (Nat.eqb_spec (S t mod s) 0) as [H1 | H1].
      * assert (s = 1%nat) by (destruct Hq as [Hq | Hq]; [nia | exact Hq]).
        subst s. rewrite !Nat.div_1_r, !Nat.add_0_r.
        rewrite seq_S, map_app. simpl. rewrite Nat.mul_1_r. reflexivity.
      * destruct Hq as [Hq | ->]; [| rewrite Nat.mod_1_r in H1; congruence].
        rewrite Hq, Nat.add_0_r.
        replace (t / s + 1)%nat with (S (t / s)) by lia.
        rewrite seq_S, map_app. simpl. f_equal. f_equal. nia.
    + (* t is off the stride *)
      rewrite app_nil_r. f_equal. f_equal.
      destruct (Nat.eqb_spec (S t mod s) 0) as [H1 | H1].
      * assert (S t / s = t / s + 1)%nat by nia. lia.
      * assert (S t / s = t / s)%nat by nia. lia.
Qed.

Lemma size_t_mul_int_small (i n : Z) :
  0 <= i -> 0 <= n -> i * n < 2 ^ 64 -> n < 2 ^ 64 ->
  size_t_mul_int i n = i * n.
Proof.
  intros Hi Hn Hin Hn64. unfold size_t_mul_int, size_t_modulus.
  rewrite (Z.mod_small n) by lia. apply Z.mod_small. nia.
Qed.

(** ** C6: frame numbers of the report *)

(** C6.  Let the engine have scored every [stride]-th of [total] frames, so
    that the result has one entry per scored frame in every series.  Then
    [write_json_log] returns, and in the report it leaves in the file the
    record at position i carries the frame number i * stride; the frame
    numbers are exactly the original indices of the scored frames, and
    there are ceil (total / stride) of them. *)
Theorem report_frame_numbers (eng : option engine_outcome) (path model : string)
    (width height nb : Z) (bl : string) (r : Result) (v p s m : double)
    (w : world) (total stride : nat) :
  (1 <= stride)%nat -> Z.of_nat stride < 2 ^ 31 -> Z.of_nat total < 2 ^ 64 ->
  length (get_scores r "vmaf") = length (scored_frames total stride) ->
  rectangular r (length (get_scores r "vmaf")) ->
  exists t content,
    exec eng (write_json_log path model width height (Z.of_nat stride) nb bl r
                (get_keys r) v p s m) w =
      Done tt (with_files ((path, content) :: files w) w) t /\
    frame_numbers content =
      map (fun i => Z.of_nat i * Z.of_nat stride)
        (seq 0 (length (get_scores r "vmaf"))) /\
    frame_numbers content = map Z.of_nat (scored_frames total stride) /\
    length (frame_numbers content) = ((total + stride - 1) / stride)%nat.
Proof.
  intros Hs Hs31 Htot Hlen Hrect.
  destruct (exec_write_json_log eng path model width height (Z.of_nat stride)
              nb bl r v p s m w Hrect) as (t & Hexec).
  exists t. eexists. split; [exact Hexec |].
  rewrite frame_numbers_json_toks.
  rewrite Hlen, (scored_frames_spec total stride Hs), length_map, length_seq.
  assert (Hceil : ((total + stride - 1) / stride * stride < total + stride)%nat).
  { pose proof (Nat.div_mod_eq (total + stride - 1) stride). nia. }
  assert (Hmap : map (fun i => size_t_mul_int (Z.of_nat i) (Z.of_nat stride))
                   (seq 0 ((total + stride - 1) / stride)) =
                 map (fun i => Z.of_nat i * Z.of_nat stride)
                   (seq 0 ((total + stride - 1) / stride))).
  { apply map_ext_in. intros i Hi. apply in_seq in Hi.
    apply size_t_mul_int_small; try lia. nia. }
  rewrite Hmap. split; [reflexivity |]. split.
  - rewrite map_map. apply map_ext. intros i. lia.
  - rewrite length_map, length_seq. reflexivity.
Qed.

Lemma report_frame_numbers_witness :
  exists t content,
    exec None
      (write_json_log "log.json" DEFAULT_MODEL_PATH 2 2 3 0 EmptyString
         (result_with [90%float; 91%float; 92%float; 93%float] 91.5%float)
         ["vmaf"%string] 91.5%float 0%float 0%float 0%float)
      (initial_world gst_vmaf_init) =
      Done tt
        (with_files [("log.json"%string, content)] (initial_world gst_vmaf_init))
        t /\
    frame_numbers content = [0; 3; 6; 9].
Proof.
  destruct (report_frame_numbers None "log.json" DEFAULT_MODEL_PATH 2 2 0
              EmptyString
              (result_with [90%float; 91%float; 92%float; 93%float] 91.5%float)
              91.5%float 0%float 0%float 0%float (initial_world gst_vmaf_init)
              10 3)
    as (t & content & Hexec & _ & Hnum & _).
  - lia.
  - reflexivity.
  - reflexivity.
  - reflexivity.
  - repeat constructor.
  - exists t, content. split; [exact Hexec | exact Hnum].
Defined.

(** ** C7: aggregates of metrics that were not selected *)

(** C7 as stated fails: with PSNR, SSIM and MS-SSIM not selected the report
    ends with the VMAF aggregate alone; no entry with the value 0.0 is
    written for the other three. *)
Lemma report_omits_unselected_metrics :
  existsb (is_str PSNR_key) unselected_report = false /\
  existsb (is_str SSIM_key) unselected_report = false /\
  existsb (is_str MS_SSIM_key) unselected_report = false /\
  skipn (length unselected_report - 5) unselected_report =
    [TStr VMAF_key; TDouble 91%float; TEndl; TStr "}"%string; TEndl].
Proof.
  split; [vm_compute; reflexivity |].
  split; [vm_compute; reflexivity |].
  split; vm_compute; reflexivity.
Qed.

(** C7, amended.  [report_aggregates] always writes the VMAF aggregate; it
    writes the PSNR, SSIM and MS-SSIM entries exactly when the respective
    aggregate is not zero; and the aggregate of a metric the result has no
    scores for is 0.0, so that its entry is omitted. *)
Theorem report_aggregates_omit_zero (v p s m : double) :
  written (report_aggregates v p s m) = Some (tt, report_aggregates_toks v p s m) /\
  existsb (is_str VMAF_key) (report_aggregates_toks v p s m) = true /\
  existsb (is_str PSNR_key) (report_aggregates_toks v p s m) = double_true p /\
  existsb (is_str SSIM_key) (report_aggregates_toks v p s m) = double_true s /\
  existsb (is_str MS_SSIM_key) (report_aggregates_toks v p s m) = double_true m /\
  forall (r : Result) (key : string),
    has_scores r key = false ->
    aggregate_or_zero r key = 0%float /\
    double_true (aggregate_or_zero r key) = false.
Proof.
  split; [apply written_report_aggregates |].
  unfold report_aggregates_toks.
  split; [reflexivity |].
  split; [destruct (double_true p), (double_true s), (double_true m);
          reflexivity |].
  split; [destruct (double_true p), (double_true s), (double_true m);
          reflexivity |].
  split; [destruct (double_true p), (double_true s), (double_true m);
          reflexivity |].
  intros r key H. unfold aggregate_or_zero. rewrite H. split; reflexivity.
Qed.

Lemma report_aggregates_omit_zero_witness :
  aggregate_or_zero (result_with [90%float; 92%float] 91%float) "psnr" = 0%float /\
  double_true
    (aggregate_or_zero (result_with [90%float; 92%float] 91%float) "psnr") = false.
Proof.
  destruct (report_aggregates_omit_zero 0%float 0%float 0%float 0%float)
    as (_ & _ & _ & _ & _ & H).
  apply H. reflexivity.
Defined.

(** ** C8: console lines *)



Lemma path_act (a : action) (t : list action) (r : answer a) :
  path (act a) t r -> t = [a].
Proof. simpl. intros (x & t' & -> & -> & _). reflexivity. Qed.





Lemma exec_step_lock {A : Type} (eng : option engine_outcome) (h : nat)
    (m : mutex) (f : unit -> prog A) (w : world) (hp : GstVmafThreadHelper) :
  helper w h = Some hp -> mutex_locked m hp = false ->
  exec eng (g_mutex_lock h m ≫= f) w =
  after (MutexLock h m)
    (exec eng (f tt) (set_helper h (with_mutex m true hp) w)).
Proof.
  intros H Hm. unfold g_mutex_lock.
  cbn [mbind prog_bind act bind exec act_sem_with act_sem].
  unfold on_helper. rewrite H, Hm. reflexivity.
Qed.

Lemma exec_step_unlock {A : Type} (eng : option engine_outcome) (h : nat)
    (m : mutex) (f : unit -> prog A) (w : world) (hp : GstVmafThreadHelper) :
  helper w h = Some hp -> mutex_locked m hp = true ->
  exec eng (g_mutex_unlock h m ≫= f) w =
  after (MutexUnlock h m)
    (exec eng (f tt) (set_helper h (with_mutex m false hp) w)).
Proof.
  intros H Hm. unfold g_mutex_unlock.
  cbn [mbind prog_bind act bind exec act_sem_with act_sem].
  unfold on_helper. rewrite H, Hm. reflexivity.
Qed.

Lemma exec_step_unlock_unheld {A : Type} (eng : option engine_outcome) (h : nat)
    (m : mutex) (f : unit -> prog A) (w : world) (hp : GstVmafThreadHelper) :
  helper w h = Some hp -> mutex_locked m hp = false ->
  exec eng (g_mutex_unlock h m ≫= f) w = Crashed w [].
Proof.
  intros H Hm. unfold g_mutex_unlock.
  cbn [mbind prog_bind act bind exec act_sem_with act_sem].
  unfold on_helper. rewrite H, Hm. reflexivity.
Qed.

Lemma exec_step_store {A : Type} (eng : option engine_outcome) (h : nat)
    (u : update) (f : unit -> prog A) (w : world) (hp : GstVmafThreadHelper) :
  helper w h = Some hp ->
  exec eng (store h u ≫= f) w =
  after (Store h u) (exec eng (f tt) (set_helper h (apply_update u hp) w)).
Proof.
  intros H. unfold store.
  cbn [mbind prog_bind act bind exec act_sem_with act_sem].
  unfold on_helper. rewrite H. reflexivity.
Qed.

Lemma exec_step_load {A : Type} (eng : option engine_outcome) (h : nat)
    (f : GstVmafThreadHelper -> prog A) (w : world) (hp : GstVmafThreadHelper) :
  helper w h = Some hp ->
  exec eng (load h ≫= f) w = after (Load h) (exec eng (f hp) w).
Proof.
  intros H. unfold load.
  cbn [mbind prog_bind act bind exec act_sem_with act_sem].
  unfold on_helper. rewrite H. reflexivity.
Qed.

Lemma exec_printf (eng : option engine_outcome) (l : list tok) (w : world) :
  exec eng (printf l) w = Done tt (with_stdout (stdout w ++ [l]) w) [Printf l].
Proof. reflexivity. Qed.








(** ** C4: lazy start and frozen geometry *)

Lemma helper_view_pipeline_step (i : nat) (a : action) (w w' : world)
    (x : answer a) (g : gview) :
  act_sem a w = Stepped x w' -> helper_view i w g ->
  gv_cons i a x g /\ helper_view i w' (gv_step i a g).
Proof.
  intros H Hv. unfold helper_view in *.
  act_sem_inv H; simpl; (split; [try exact I |]);
    try exact Hv;
    try (intros hp' Hhp';
         apply helper_set_helper_inv in Hhp' as [(-> & ->) | (Hne & Hhp')];
         [apply (Hv _ Eh) | apply Hv; exact Hhp']).
  - (* Load *) intros ->. destruct (Hv _ Eh) as (? & ? & ?). auto.
  - (* Store *)
    intros hp' Hhp'.
    apply helper_set_helper_inv in Hhp' as [(-> & ->) | (Hne & Hhp')].
    + destruct (Hv _ Eh) as (Hw & Hh & Hs).
      destruct u; simpl; rewrite ?Nat.eqb_refl; simpl; auto.
    + apply Nat.eqb_neq in Hne. destruct u; simpl; rewrite ?Hne; auto.
  - (* TaskStart *)
    intros hp' Hhp'.
    apply helper_set_helper_inv in Hhp' as [(-> & ->) | (Hne & Hhp')].
    + destruct (Hv _ Eh) as (Hw & Hh & Hs).
      rewrite Nat.eqb_refl. simpl. auto.
    + apply Nat.eqb_neq in Hne. rewrite Hne. auto.
  - (* SetHelpers *)
    intros hp' Hhp'. unfold helper in Hhp'. simpl in Hhp'.
    rewrite Hhp'. simpl. auto.
  - (* FreeHelpers *)
    intros hp' Hhp'. unfold helper in Hhp'. simpl in Hhp'. discriminate Hhp'.
  - (* Note *)
    intros hp' Hhp'. destruct (Hv _ Hhp') as (Hw & Hh & Hs).
    destruct e as [j | j r]; simpl; destruct (j =? i)%nat; simpl; auto.
Qed.

Lemma helper_view_neutral_step (i : nat) (a : action) (w w' : world)
    (x : answer a) (g : gview) :
  geom_neutral a -> act_sem a w = Stepped x w' -> helper_view i w g ->
  helper_view i w' g.
Proof.
  intros Hn H Hv. unfold helper_view in *.
  act_sem_inv H; simpl in Hn; try contradiction;
    try exact Hv;
    try (intros hp' Hhp';
         apply helper_set_helper_inv in Hhp' as [(-> & ->) | (Hne & Hhp')];
         [apply (Hv _ Eh) | apply Hv; exact Hhp']).
  - (* Store *)
    intros hp' Hhp'.
    apply helper_set_helper_inv in Hhp' as [(-> & ->) | (Hne & Hhp')];
      [| apply Hv; exact Hhp'].
    destruct (Hv _ Eh) as (Hw & Hh & Hs).
    destruct u; simpl; try contradiction; auto.
  - (* FreeHelpers *)
    intros hp' Hhp'. unfold helper in Hhp'. simpl in Hhp'. discriminate Hhp'.
Qed.

Lemma gv_step_called (i : nat) (a : action) (g : gview) :
  gv_called (gv_step i a g) = true ->
  gv_called g = true \/ a = Note (call_compare_frames i).
Proof.
  destruct a; simpl; auto.
  - destruct u; simpl; auto; destruct (i0 =? i)%nat; simpl; auto.
  - destruct (i0 =? i)%nat; simpl; auto.
  - destruct (l !! i); simpl; auto.
  - destruct e as [j | j r]; simpl.
    + destruct (Nat.eqb_spec j i) as [-> | Hne]; simpl; auto.
    + destruct (j =? i)%nat; simpl; auto.
Qed.

Lemma gv_step_returned (i : nat) (a : action) (g : gview) :
  gv_returned g = true \/ (exists r, a = Note (ret_compare_frames i r)) ->
  gv_returned (gv_step i a g) = true.
Proof.
  intros [H | (r & ->)].
  - destruct a; simpl; auto.
    + destruct u; simpl; auto; destruct (i0 =? i)%nat; simpl; auto.
    + destruct (i0 =? i)%nat; simpl; auto.
    + destruct (l !! i); simpl; auto.
    + destruct e as [j | j r]; simpl; destruct (j =? i)%nat; simpl; auto.
  - simpl. rewrite Nat.eqb_refl. reflexivity.
Qed.

Lemma acts_neutral_vmaf_thread_call (vs : option nat) :
  acts geom_neutral any_answer (vmaf_thread_call vs).
Proof.
  unfold vmaf_thread_call. destruct vs as [h |]; [| exact I].
  acts_solve.
Qed.

Lemma acts_neutral_read_frame (stride : Z) (h : nat) :
  acts geom_neutral any_answer (read_frame stride h).
Proof. unfold read_frame, read_frame_row. acts_solve. Qed.

Lemma tracked_step {A : Type} (i : nat) (inv : gview -> Prop) (l : label)
    (c c' : config A) :
  mstep l c = Some c' -> tracked i inv c -> tracked i inv c'.
Proof.
  intros Hstep (g & (Hv & Hcall & Hret) & Htrack & Hws).
  assert (Hset : forall j t w,
            helper_view i w g -> wthread_neutral t ->
            tracked i inv (set_worker j t w c)).
  { intros j t w Hw Ht. exists g. split; [| split].
    - split; [exact Hw | split; [exact Hcall | exact Hret]].
    - exact Htrack.
    - intros j'. simpl. destruct (j' =? j)%nat; [exact Ht | apply Hws]. }
  destruct l as [| j | j stride | j r | j e]; unfold mstep in Hstep.
  - (* the streaming thread *)
    destruct (pipeline c) as [a | a k] eqn:Ep; [discriminate |].
    destruct (act_sem a (shared c)) as [x w' | |] eqn:Ea; try discriminate.
    injection Hstep as <-.
    destruct (helper_view_pipeline_step i a _ _ x g Ea Hv) as [Hcons Hv'].
    destruct Htrack as [_ Hk].
    exists (gv_step i a g). split; [| split]; simpl.
    + split; [exact Hv' | split].
      * intros Hc. apply in_or_app.
        destruct (gv_step_called i a g Hc) as [Hc' | ->];
          [left; auto | right; left; reflexivity].
      * intros r Hin. apply gv_step_returned.
        apply in_app_or in Hin as [Hin | [Heq | []]];
          [left; eauto | right; exists r; exact Heq].
    + apply Hk. exact Hcons.
    + exact Hws.
  - (* a worker *)
    pose proof (Hws j) as Hj.
    destruct (workers c j) as [| | p | h k | p h k |] eqn:Ew.
    + destruct (worker_task c j) as [t |]; [| discriminate].
      destruct (task_running t); [| discriminate].
      injection Hstep as <-. apply Hset; [exact Hv | exact I].
    + unfold task_loop in Hstep.
      destruct (helper (shared c) j) as [hp |] eqn:Eh; [| discriminate].
      destruct (task_state (vmaf_thread hp)); try discriminate;
        injection Hstep as <-.
      * apply Hset; [exact Hv |].
        exact (acts_neutral_vmaf_thread_call (Some j)).
      * apply Hset; [| exact I].
        intros hp' Hhp'.
        apply helper_set_helper_inv in Hhp' as [(-> & ->) | (_ & Hhp')];
          [apply (Hv _ Eh) | apply Hv; exact Hhp'].
    + destruct p as [u | a k].
      * injection Hstep as <-. apply Hset; [exact Hv | exact I].
      * destruct Hj as [Hok Hk].
        apply thread_act_inv in Hstep
          as [(x & w' & Ea & ->) | (t & -> & Ht)].
        -- apply Hset.
           ++ eapply helper_view_neutral_step; eauto.
           ++ simpl. apply Hk. exact I.
        -- apply Hset; [exact Hv |].
           destruct a; try contradiction.
           injection Ht as <-. simpl. intros o. apply Hk. exact I.
    + discriminate.
    + destruct Hj as [Hp' Hk'].
      destruct p as [u | a kr].
      * injection Hstep as <-. apply Hset; [exact Hv | exact Hk'].
      * destruct Hp' as [Hok Hk].
        apply thread_act_inv in Hstep
          as [(x & w' & Ea & ->) | (t & -> & Ht)].
        -- apply Hset.
           ++ eapply helper_view_neutral_step; eauto.
           ++ simpl. split; [apply Hk; exact I | exact Hk'].
        -- destruct a; try contradiction. discriminate Ht.
    + destruct (worker_task c j) as [t |]; [| discriminate].
      destruct (task_running t); [| discriminate].
      injection Hstep as <-. apply Hset; [exact Hv | exact I].
  - (* the engine calls the callback *)
    pose proof (Hws j) as Hj.
    destruct (workers c j) as [| | p | h k | p h k |]; try discriminate.
    injection Hstep as <-. apply Hset; [exact Hv |].
    split; [exact (acts_neutral_read_frame stride h) | exact Hj].
  - (* the engine returns *)
    pose proof (Hws j) as Hj.
    destruct (workers c j) as [| | p | h k | p h k |]; try discriminate.
    injection Hstep as <-.
    exact (Hset j (WFunc (k (Returned r))) (shared c) Hv (Hj (Returned r))).
  - (* the engine throws *)
    pose proof (Hws j) as Hj.
    destruct (workers c j) as [| | p | h k | p h k |]; try discriminate.
    injection Hstep as <-.
    exact (Hset j (WFunc (k (Thrown e))) (shared c) Hv (Hj (Thrown e))).
Qed.

Lemma tracked_mrun {A : Type} (i : nat) (inv : gview -> Prop) (s : list label)
    (c c' : config A) :
  mrun s c = Some c' -> tracked i inv c -> tracked i inv c'.
Proof.
  revert c. induction s as [| l s IH]; intros c Hrun Hc; simpl in Hrun.
  - injection Hrun as <-. exact Hc.
  - destruct (mstep l c) as [c1 |] eqn:E; [| discriminate].
    eapply IH; eauto. eapply tracked_step; eauto.
Qed.

Lemma track_inv {A : Type} (i : nat) (inv : gview -> Prop)
    (post : A -> gview -> Prop) (p : prog A) (g : gview) :
  track i inv post p g -> inv g.
Proof. destruct p; simpl; intros [H _]; exact H. Qed.

Lemma track_bind {A B : Type} (i : nat) (inv : gview -> Prop)
    (mid : A -> gview -> Prop) (post : B -> gview -> Prop)
    (p : prog A) (f : A -> prog B) (g : gview) :
  track i inv mid p g ->
  (forall a g', mid a g' -> track i inv post (f a) g') ->
  track i inv post (bind p f) g.
Proof.
  intros Hp Hf. revert g Hp.
  induction p as [a | a k IH]; intros g Hp; simpl in *.
  - destruct Hp as [_ Hp]. apply Hf. exact Hp.
  - destruct Hp as [Hi Hk]. split; [exact Hi |].
    intros x Hx. apply IH. apply Hk. exact Hx.
Qed.

Lemma track_mbind {A B : Type} (i : nat) (inv : gview -> Prop)
    (mid : A -> gview -> Prop) (post : B -> gview -> Prop)
    (p : prog A) (f : A -> prog B) (g : gview) :
  track i inv mid p g ->
  (forall a g', mid a g' -> track i inv post (f a) g') ->
  track i inv post (p ≫= f) g.
Proof. apply track_bind. Qed.

Lemma track_weaken {A : Type} (i : nat) (inv : gview -> Prop)
    (post post' : A -> gview -> Prop) (p : prog A) (g : gview) :
  (forall a g', post a g' -> post' a g') ->
  track i inv post p g -> track i inv post' p g.
Proof.
  intros Hpost. revert g. induction p as [a | a k IH]; intros g; simpl.
  - intros [Hi Hp]. auto.
  - intros [Hi Hk]. split; [exact Hi |]. intros x Hx. apply IH. auto.
Qed.

(** A program whose commands do not change the view keeps it. *)
Lemma track_neutral {A : Type} (i : nat) (inv : gview -> Prop) (p : prog A)
    (g : gview) :
  acts (view_neutral i) any_answer p -> inv g ->
  track i inv (fun _ g' => g' = g) p g.
Proof.
  intros Hp Hi. induction p as [a | a k IH]; simpl in *.
  - auto.
  - destruct Hp as [Ha Hk]. split; [exact Hi |].
    intros x _. rewrite (Ha g). apply IH. apply Hk. exact I.
Qed.

Lemma track_ret {A : Type} (i : nat) (inv : gview -> Prop)
    (post : A -> gview -> Prop) (a : A) (g : gview) :
  inv g -> post a g -> track i inv post (Ret a) g.
Proof. simpl. auto. Qed.

Lemma started_once_fresh (F : option GstVideoFrame) (g : gview) :
  is_fresh g -> started_once F g.
Proof.
  intros (Hw & Hh & Hs & Hr). unfold started_once. rewrite Hs, Hr.
  split; [lia |]. split; [discriminate | discriminate].
Qed.

Lemma started_once_started (F : option GstVideoFrame) (ref : GstVideoFrame)
    (g : gview) :
  F = Some ref -> frame_ok ref -> is_started ref g -> started_once F g.
Proof.
  intros HF Hok (Hw & Hh & Hs & Hc). unfold started_once. rewrite Hs.
  split; [lia |]. split; [| auto].
  intros _. split; [exact Hc |]. exists ref. auto.
Qed.

Lemma view_neutral_hand_over (i : nat) (ref cmp : GstVideoFrame) (j : nat) :
  acts (view_neutral i) any_answer (hand_over_frame ref cmp j).
Proof.
  unfold hand_over_frame. acts_solve; intros g; reflexivity.
Qed.

Lemma view_neutral_compare_frames_other (i : nat) (ref cmp : GstVideoFrame)
    (j : nat) :
  j <> i -> acts (view_neutral i) any_answer (compare_frames ref cmp j).
Proof.
  intros Hne. apply Nat.eqb_neq in Hne.
  unfold compare_frames, compare_frames_body.
  acts_solve; intros g; simpl; rewrite ?Hne; reflexivity.
Qed.

Lemma started_once_unstarted (F : option GstVideoFrame) (g : gview) :
  gv_starts g = 0%nat -> gv_returned g = false -> started_once F g.
Proof.
  intros Hs Hr. unfold started_once. rewrite Hs, Hr.
  split; [lia |]. split; discriminate.
Qed.

Lemma track_start_fresh (i : nat) (F : option GstVideoFrame)
    (ref : GstVideoFrame) (g : gview) :
  is_fresh g -> gv_called g = true -> F = Some ref -> frame_ok ref ->
  track i (started_once F)
    (fun _ g' => is_started ref g' /\ gv_returned g' = false)
    (start_on_first_frame ref i) g.
Proof.
  intros Hf Hc HF Hok. pose proof Hf as (Hw & Hh & Hs & Hr).
  unfold start_on_first_frame, load, store, gst_task_start.
  cbn [mbind prog_bind bind act track].
  split; [apply started_once_fresh; exact Hf |].
  intros hp Hcons. destruct (Hcons eq_refl) as [Hhw Hhh].
  rewrite Hhw, Hw. cbn [Z.eqb orb]. simpl. rewrite !Nat.eqb_refl. simpl.
  assert (Hst : is_started ref
                  {| gv_width := info_width ref; gv_height := info_height ref;
                     gv_starts := S (gv_starts g); gv_called := gv_called g;
                     gv_returned := gv_returned g |}).
  { unfold is_started. simpl. rewrite Hs, Hc. auto. }
  split; [apply started_once_fresh; exact Hf |]. intros ? _.
  split; [apply started_once_unstarted; assumption |]. intros ? _.
  split; [apply started_once_unstarted; assumption |]. intros ? _.
  split; [eapply started_once_started; eauto |].
  split; [exact Hst | exact Hr].
Qed.

Lemma track_start_started (i : nat) (F : option GstVideoFrame)
    (ref ref0 : GstVideoFrame) (g : gview) :
  is_started ref0 g -> F = Some ref0 -> frame_ok ref0 ->
  track i (started_once F) (fun _ g' => g' = g) (start_on_first_frame ref i) g.
Proof.
  intros Hst HF Hok. pose proof Hst as (Hw & Hh & Hs & Hc).
  destruct Hok as [Hw0 Hh0].
  assert (Hinv : started_once F g).
  { eapply started_once_started; eauto. split; assumption. }
  unfold start_on_first_frame, load.
  cbn [mbind prog_bind bind act track].
  split; [exact Hinv |].
  intros hp Hcons. destruct (Hcons eq_refl) as [Hhw Hhh].
  rewrite Hhw, Hhh, Hw, Hh.
  apply Z.eqb_neq in Hw0. apply Z.eqb_neq in Hh0. rewrite Hw0, Hh0.
  simpl. auto.
Qed.

(** A dispatch of stream [i] itself: from a fresh view it starts the task
    with the geometry of [ref]; from a started view it changes nothing but
    the record that a dispatch has returned. *)
Lemma track_compare_frames_fresh (i : nat) (F : option GstVideoFrame)
    (ref cmp : GstVideoFrame) (g : gview) :
  is_fresh g -> F = Some ref -> frame_ok ref ->
  track i (started_once F) (fun _ g' => is_started ref g')
    (compare_frames ref cmp i) g.
Proof.
  intros Hf HF Hok. pose proof Hf as (Hw & Hh & Hs & Hr).
  unfold compare_frames.
  apply (track_mbind i _ (fun _ g' => is_fresh g' /\ gv_called g' = true)).
  { simpl. split; [apply started_once_fresh; exact Hf |]. intros _ _.
    rewrite Nat.eqb_refl.
    assert (Hf' : is_fresh
                    {| gv_width := gv_width g; gv_height := gv_height g;
                       gv_starts := gv_starts g; gv_called := true;
                       gv_returned := gv_returned g |})
      by (unfold is_fresh; simpl; auto).
    split; [apply started_once_fresh; exact Hf' |]. split; [exact Hf' | reflexivity]. }
  intros _ g1 [Hf1 Hc1].
  apply (track_mbind i _ (fun _ g' => is_started ref g' /\ gv_returned g' = false)).
  { unfold compare_frames_body.
    apply (track_mbind i _ (fun _ g' => is_started ref g' /\ gv_returned g' = false)).
    - apply track_start_fresh; assumption.
    - intros _ g2 [Hst2 Hr2].
      eapply track_weaken;
        [| apply track_neutral;
           [apply view_neutral_hand_over
           | eapply started_once_started; eauto]].
      intros b g' ->. auto. }
  intros result g3 [Hst3 Hr3]. pose proof Hst3 as (Hw3 & Hh3 & Hs3 & Hc3).
  simpl. rewrite Nat.eqb_refl.
  split; [eapply started_once_started; eauto |]. intros _ _.
  assert (Hst4 : is_started ref
                   {| gv_width := gv_width g3; gv_height := gv_height g3;
                      gv_starts := gv_starts g3; gv_called := gv_called g3;
                      gv_returned := true |})
    by (unfold is_started; simpl; auto).
  split; [eapply started_once_started; eauto | exact Hst4].
Qed.

Lemma track_compare_frames_started (i : nat) (F : option GstVideoFrame)
    (ref cmp ref0 : GstVideoFrame) (g : gview) :
  is_started ref0 g -> F = Some ref0 -> frame_ok ref0 ->
  track i (started_once F) (fun _ g' => is_started ref0 g')
    (compare_frames ref cmp i) g.
Proof.
  intros Hst HF Hok. pose proof Hst as (Hw & Hh & Hs & Hc).
  unfold compare_frames.
  apply (track_mbind i _ (fun _ g' => is_started ref0 g')).
  { simpl. split; [eapply started_once_started; eauto |]. intros _ _.
    rewrite Nat.eqb_refl.
    assert (Hst' : is_started ref0
                     {| gv_width := gv_width g; gv_height := gv_height g;
                        gv_starts := gv_starts g; gv_called := true;
                        gv_returned := gv_returned g |})
      by (unfold is_started; simpl; auto).
    split; [eapply started_once_started; eauto | exact Hst']. }
  intros _ g1 Hst1.
  apply (track_mbind i _ (fun _ g' => is_started ref0 g')).
  { unfold compare_frames_body.
    apply (track_mbind i _ (fun _ g' => is_started ref0 g')).
    - eapply track_weaken; [| eapply track_start_started; eauto].
      intros [] g' ->. exact Hst1.
    - intros _ g2 Hst2.
      eapply track_weaken;
        [| apply track_neutral;
           [apply view_neutral_hand_over
           | eapply started_once_started; eauto]].
      intros b g' ->. exact Hst2. }
  intros result g3 Hst3. pose proof Hst3 as (Hw3 & Hh3 & Hs3 & Hc3).
  simpl. rewrite Nat.eqb_refl.
  split; [eapply started_once_started; eauto |]. intros _ _.
  assert (Hst4 : is_started ref0
                   {| gv_width := gv_width g3; gv_height := gv_height g3;
                      gv_starts := gv_starts g3; gv_called := gv_called g3;
                      gv_returned := true |})
    by (unfold is_started; simpl; auto).
  split; [eapply started_once_started; eauto | exact Hst4].
Qed.

Lemma track_compare_frames_other (i : nat) (inv : gview -> Prop)
    (ref cmp : GstVideoFrame) (j : nat) (g : gview) :
  j <> i -> inv g ->
  track i inv (fun _ g' => g' = g) (compare_frames ref cmp j) g.
Proof.
  intros Hne Hi. apply track_neutral; [| exact Hi].
  apply view_neutral_compare_frames_other. exact Hne.
Qed.

Lemma track_loop_started (i : nat) (F : option GstVideoFrame)
    (ref0 : GstVideoFrame) (l : list (option GstVideoFrame))
    (ro : option GstVideoFrame) (res : bool) (k : nat) (g : gview) :
  is_started ref0 g -> F = Some ref0 -> frame_ok ref0 ->
  track i (started_once F) (fun _ g' => is_started ref0 g')
    (aggregate_loop l ro res k) g.
Proof.
  intros Hst HF Hok. revert ro res k g Hst.
  induction l as [| [f |] l IH]; intros ro res k g Hst; cbn [aggregate_loop].
  - apply track_ret; [eapply started_once_started; eauto | exact Hst].
  - destruct ro as [r |]; [| apply IH; exact Hst].
    apply (track_mbind i _ (fun _ g' => is_started ref0 g')).
    + destruct (Nat.eq_dec k i) as [-> | Hne].
      * eapply track_compare_frames_started; eauto.
      * eapply track_weaken;
          [| apply track_compare_frames_other;
             [exact Hne | eapply started_once_started; eauto]].
        intros b g' ->. exact Hst.
    + intros b g' Hst'. apply IH. exact Hst'.
  - apply IH. exact Hst.
Qed.

Lemma track_loop_fresh (i : nat) (F : option GstVideoFrame)
    (ref : GstVideoFrame) (l : list (option GstVideoFrame)) (res : bool)
    (k : nat) (g : gview) :
  is_fresh g -> (k <= i)%nat ->
  ((i < k + length (prepared_frames l))%nat -> F = Some ref /\ frame_ok ref) ->
  track i (started_once F)
    (fun _ g' => if (i <? k + length (prepared_frames l))%nat
                 then is_started ref g' else is_fresh g')
    (aggregate_loop l (Some ref) res k) g.
Proof.
  revert res k g.
  induction l as [| [f |] l IH]; intros res k g Hf Hk HF;
    cbn [aggregate_loop].
  - apply track_ret; [apply started_once_fresh; exact Hf |].
    unfold prepared_frames. simpl.
    destruct (Nat.ltb_spec i (k + 0)); [lia | exact Hf].
  - assert (Hlen : length (prepared_frames (Some f :: l)) =
                   S (length (prepared_frames l))) by reflexivity.
    rewrite Hlen in *.
    destruct (Nat.eq_dec k i) as [-> | Hne].
    + destruct HF as [HF Hok]; [lia |].
      apply (track_mbind i _ (fun _ g' => is_started ref g')).
      * apply track_compare_frames_fresh; assumption.
      * intros b g' Hst.
        eapply track_weaken; [| eapply track_loop_started; eauto].
        intros b' g'' Hst'. cbv beta.
        destruct (Nat.ltb_spec i (i + S (length (prepared_frames l))));
          [exact Hst' | lia].
    + apply (track_mbind i _ (fun _ g' => is_fresh g')).
      * eapply track_weaken;
          [| apply track_compare_frames_other;
             [exact Hne | apply started_once_fresh; exact Hf]].
        intros b g' ->. exact Hf.
      * intros b g' Hf'.
        eapply track_weaken; [| apply IH; [exact Hf' | lia |]].
        -- intros b' g'' H. cbv beta in *.
           replace (k + S (length (prepared_frames l)))%nat
             with (S k + length (prepared_frames l))%nat by lia.
           exact H.
        -- intros Hlt. apply HF. lia.
  - apply IH; assumption.
Qed.

Lemma track_loop_fresh_none (i : nat) (F : option GstVideoFrame)
    (l : list (option GstVideoFrame)) (res : bool) (g : gview) :
  is_fresh g ->
  (forall ref, cycle_ref i l = Some ref -> F = Some ref /\ frame_ok ref) ->
  track i (started_once F)
    (fun _ g' => match cycle_ref i l with
                 | Some ref => is_started ref g'
                 | None => is_fresh g'
                 end)
    (aggregate_loop l None res 0) g.
Proof.
  revert res.
  induction l as [| [f |] l IH]; intros res Hf HF; cbn [aggregate_loop].
  - apply track_ret; [apply started_once_fresh; exact Hf | exact Hf].
  - unfold cycle_ref in *.
    change (prepared_frames (Some f :: l)) with (f :: prepared_frames l) in *.
    cbv beta iota in *.
    eapply track_weaken; [| apply (track_loop_fresh i F f l res 0 g Hf)].
    + intros b g' H. cbv beta in H. simpl in H.
      destruct (i <? length (prepared_frames l))%nat; exact H.
    + lia.
    + intros Hlt. apply HF. simpl in Hlt.
      apply Nat.ltb_lt in Hlt. rewrite Hlt. reflexivity.
  - apply IH; [exact Hf |]. exact HF.
Qed.

Lemma track_aggregate_fresh (i : nat) (F : option GstVideoFrame)
    (sinkpads : list (option GstVideoFrame)) (position : Z) (g : gview) :
  is_fresh g ->
  (forall ref, cycle_ref i sinkpads = Some ref -> F = Some ref /\ frame_ok ref) ->
  track i (started_once F)
    (fun _ g' => match cycle_ref i sinkpads with
                 | Some ref => is_started ref g'
                 | None => is_fresh g'
                 end)
    (gst_vmaf_aggregate_frames sinkpads position) g.
Proof.
  intros Hf HF. unfold gst_vmaf_aggregate_frames.
  eapply track_mbind; [apply track_loop_fresh_none; eassumption |].
  intros res g' Hpost. cbv beta in Hpost.
  assert (Hinv : started_once F g').
  { destruct (cycle_ref i sinkpads) as [ref |] eqn:E.
    - destruct (HF ref eq_refl) as [HF' Hok].
      eapply started_once_started; eauto.
    - apply started_once_fresh. exact Hpost. }
  destruct (negb res).
  - apply track_ret; assumption.
  - simpl. split; [exact Hinv |]. intros _ _. split; assumption.
Qed.

Lemma track_aggregate_started (i : nat) (F : option GstVideoFrame)
    (ref0 : GstVideoFrame) (sinkpads : list (option GstVideoFrame))
    (position : Z) (g : gview) :
  is_started ref0 g -> F = Some ref0 -> frame_ok ref0 ->
  track i (started_once F) (fun _ g' => is_started ref0 g')
    (gst_vmaf_aggregate_frames sinkpads position) g.
Proof.
  intros Hst HF Hok. unfold gst_vmaf_aggregate_frames.
  eapply track_mbind; [eapply track_loop_started; eauto |].
  intros res g' Hst'. cbv beta in Hst'.
  assert (Hinv : started_once F g') by (eapply started_once_started; eauto).
  destruct (negb res).
  - apply track_ret; assumption.
  - simpl. split; [exact Hinv |]. intros _ _. split; assumption.
Qed.

Lemma track_cycles_started (i : nat) (F : option GstVideoFrame)
    (ref0 : GstVideoFrame) (cycles : list (list (option GstVideoFrame) * Z))
    (g : gview) :
  is_started ref0 g -> F = Some ref0 -> frame_ok ref0 ->
  track i (started_once F) (fun _ _ => True)
    (pipeline_prog (map (fun c => call_aggregate_frames (fst c) (snd c)) cycles))
    g.
Proof.
  intros Hst HF Hok. revert g Hst.
  induction cycles as [| [pads pos] cycles IH]; intros g Hst;
    cbn [map pipeline_prog pcall_prog fst snd].
  - apply track_ret; [eapply started_once_started; eauto | exact I].
  - eapply (track_mbind i _ (fun _ g' => is_started ref0 g'));
      [| intros [] g' Hst'; apply IH; exact Hst'].
    eapply (track_mbind i _ (fun _ g' => is_started ref0 g'));
      [eapply track_aggregate_started; eauto |].
    intros r g' Hst'. cbv beta in Hst'.
    apply track_ret; [eapply started_once_started; eauto | exact Hst'].
Qed.

Lemma cycle_ref_prepared (i : nat) (sinkpads : list (option GstVideoFrame))
    (ref : GstVideoFrame) :
  cycle_ref i sinkpads = Some ref -> In ref (prepared_frames sinkpads).
Proof.
  unfold cycle_ref. destruct (prepared_frames sinkpads) as [| r cmps];
    [discriminate |].
  destruct (i <? length cmps)%nat; [| discriminate].
  intros H. injection H as ->. left. reflexivity.
Qed.

Lemma track_cycles_fresh (i : nat) (cycles : list (list (option GstVideoFrame) * Z))
    (F : option GstVideoFrame) (g : gview) :
  is_fresh g -> cycles_ok cycles -> first_ref i cycles = F ->
  track i (started_once F) (fun _ _ => True)
    (pipeline_prog (map (fun c => call_aggregate_frames (fst c) (snd c)) cycles))
    g.
Proof.
  revert g.
  induction cycles as [| [pads pos] cycles IH]; intros g Hf Hok HF;
    cbn [map pipeline_prog pcall_prog fst snd].
  - apply track_ret; [apply started_once_fresh; exact Hf | exact I].
  - apply Forall_cons in Hok as [Hok1 Hok]. simpl in Hok1, HF.
    assert (Href : forall ref, cycle_ref i pads = Some ref ->
                               F = Some ref /\ frame_ok ref).
    { intros ref E. rewrite E in HF. split; [congruence |].
      rewrite Forall_forall in Hok1. apply Hok1.
      apply list_elem_of_In. eapply cycle_ref_prepared. exact E. }
    eapply (track_mbind i _
              (fun _ g'' => match cycle_ref i pads with
                            | Some ref => is_started ref g''
                            | None => is_fresh g''
                            end)).
    + eapply (track_mbind i _
                (fun _ g'' => match cycle_ref i pads with
                              | Some ref => is_started ref g''
                              | None => is_fresh g''
                              end));
        [apply track_aggregate_fresh; eassumption |].
      intros r g' Hpost. cbv beta in Hpost.
      apply (track_ret i _
               (fun _ g'' => match cycle_ref i pads with
                             | Some ref => is_started ref g''
                             | None => is_fresh g''
                             end)); [| exact Hpost].
      destruct (cycle_ref i pads) as [ref |] eqn:E.
      * destruct (Href ref eq_refl). eapply started_once_started; eauto.
      * apply started_once_fresh. exact Hpost.
    + intros [] g' Hpost. cbv beta in Hpost.
      destruct (cycle_ref i pads) as [ref |] eqn:E.
      * destruct (Href ref eq_refl).
        eapply track_cycles_started; eauto.
      * apply IH; assumption.
Qed.

Lemma track_activation_script (i : nat) (n : nat)
    (cycles : list (list (option GstVideoFrame) * Z)) :
  cycles_ok cycles ->
  track i (started_once (first_ref i cycles)) (fun _ _ => True)
    (pipeline_prog (activation_script n cycles)) fresh_view.
Proof.
  intros Hok. unfold activation_script. cbn [pipeline_prog pcall_prog].
  assert (Hf0 : is_fresh fresh_view) by (repeat split).
  eapply (track_mbind i _ (fun _ g' => is_fresh g')).
  - unfold gst_vmaf_change_state, vmaf_threads_open. cbv zeta.
    destruct (Z.of_nat n - 1 <? 0).
    { cbn [mbind prog_bind bind abort track].
      split; [apply started_once_fresh; exact Hf0 |]. intros []. }
    cbn [mbind prog_bind bind act track].
    split; [apply started_once_fresh; exact Hf0 |]. intros _ _.
    assert (Hf1 : is_fresh
                    (gv_step i
                       (SetHelpers (Z.of_nat n - 1)
                          (map new_helper (seq 0 (Z.to_nat (Z.of_nat n - 1)))))
                       fresh_view)).
    { simpl. destruct (map new_helper _ !! i) as [hp |] eqn:E; [| exact Hf0].
      apply list_lookup_fmap_Some in E as (k & -> & _). repeat split. }
    split; [apply started_once_fresh; exact Hf1 | exact Hf1].
  - intros [] g' Hf'. apply track_cycles_fresh; auto.
Qed.

Lemma tracked_element_config (i : nat) (cfg : GstVmaf) (n : nat)
    (cycles : list (list (option GstVideoFrame) * Z)) :
  cycles_ok cycles ->
  tracked i (started_once (first_ref i cycles))
    (element_config cfg (activation_script n cycles)).
Proof.
  intros Hok. exists fresh_view. split; [| split].
  - split; [| split]; simpl.
    + intros hp H. unfold helper in H. simpl in H. discriminate H.
    + discriminate.
    + intros r [].
  - apply track_activation_script. exact Hok.
  - intros j. exact I.
Qed.

(** ** C4: lazy start and frozen geometry *)

(** C4.  After [vmaf_threads_open] and any number of output cycles, under
    every interleaving with the workers and the engine, the task of stream
    [i] has been started at most once; it has been started only if a
    dispatch for the stream has been entered, and then the recorded
    geometry is that of the reference frame of the first cycle that
    dispatched the stream, whatever later cycles carried; and once a
    dispatch for the stream has returned, the task has been started.  The
    frames are those of a negotiated stream: neither width nor height is
    zero. *)
Theorem started_once_geometry_frozen (cfg : GstVmaf) (n : nat)
    (cycles : list (list (option GstVideoFrame) * Z)) (s : list label)
    (c : config unit) (i : nat) (hp : GstVmafThreadHelper) :
  cycles_ok cycles ->
  mrun s (element_config cfg (activation_script n cycles)) = Some c ->
  helper (shared c) i = Some hp ->
  (task_starts (vmaf_thread hp) <= 1)%nat /\
  (task_starts (vmaf_thread hp) = 1%nat ->
     In (Note (call_compare_frames i)) (plog c) /\
     exists ref, first_ref i cycles = Some ref /\
                 frame_width hp = info_width ref /\
                 frame_height hp = info_height ref) /\
  (forall r, In (Note (ret_compare_frames i r)) (plog c) ->
     task_starts (vmaf_thread hp) = 1%nat).
Proof.
  intros Hok Hrun Hhp.
  pose proof (tracked_element_config i cfg n cycles Hok) as H0.
  pose proof (tracked_mrun i _ s _ c Hrun H0) as (g & (Hv & Hcall & Hret) & Htr & _).
  apply track_inv in Htr. destruct Htr as (Hle & Hone & Hreturned).
  destruct (Hv hp Hhp) as (Hw & Hh & Hs).
  rewrite Hs. split; [exact Hle |]. split.
  - intros E. destruct (Hone E) as (Hc & ref & HF & _ & Hgw & Hgh).
    split; [apply Hcall; exact Hc |].
    exists ref. split; [exact HF |]. split; congruence.
  - intros r Hin. apply Hreturned. eapply Hret. exact Hin.
Qed.

Lemma started_once_geometry_frozen_witness :
  exists c hp,
    mrun failing_start_schedule
      (element_config gst_vmaf_init
         (activation_script 2 [([Some frame_a; Some frame_b], 0)])) = Some c /\
    helper (shared c) 0 = Some hp /\
    task_starts (vmaf_thread hp) = 1%nat /\
    frame_width hp = 2 /\ frame_height hp = 2.
Proof.
  destruct (mrun_observe
              (fun c => match helper (shared c) 0 with
                        | Some hp => Some (task_starts (vmaf_thread hp))
                        | None => None
                        end)
              failing_start_schedule
              (element_config gst_vmaf_init
                 (activation_script 2 [([Some frame_a; Some frame_b], 0)]))
              (Some 1%nat))
    as (c & Hrun & Hobs); [vm_compute; reflexivity |].
  destruct (helper (shared c) 0) as [hp |] eqn:Hhp; [| discriminate Hobs].
  injection Hobs as Hs.
  assert (Hok : cycles_ok [([Some frame_a; Some frame_b], 0)]).
  { repeat constructor; discriminate. }
  destruct (started_once_geometry_frozen gst_vmaf_init 2
              [([Some frame_a; Some frame_b], 0)] failing_start_schedule
              c 0 hp Hok Hrun Hhp) as (_ & Hone & _).
  destruct (Hone Hs) as (_ & ref & Href & Hw & Hh).
  injection Href as <-.
  exists c, hp. repeat split; assumption.
Defined.

(** ** C9: the comparison frame's geometry *)

(** C9 as stated fails: with a reference frame of 2x2 samples and a
    comparison frame of 4x2, the first cycle starts the worker with the
    geometry 2x2, the worker copies the pair for the engine, the dispatch
    returns TRUE with the error code still 0, and the cycle ends with
    GST_FLOW_OK: the mismatch is not detected and the pair is processed. *)
Lemma geometry_mismatch_processed :
  info_width frame_wide <> info_width frame_a /\
  exists c,
    mrun one_cycle_schedule
      (start_config (opened_world gst_vmaf_init 2)
         (gst_vmaf_aggregate_frames [Some frame_a; Some frame_wide] 7)) = Some c /\
    cycle_observation c =
      (Some GST_FLOW_OK, [(0%nat, true)], Some (0, 2, 2, 1%nat)).
Proof.
  split; [discriminate |].
  apply (mrun_observe cycle_observation). vm_compute. reflexivity.
Qed.

(** C9, amended.  While no geometry is recorded for the stream, the first
    statement of a dispatch records the geometry of the reference frame and
    starts the task, and leaves the error code as it was; and a dispatch
    reads nothing of the comparison frame but its buffer, so that it is the
    same program whatever geometry the comparison frame has. *)
Theorem start_geometry_from_reference (eng : option engine_outcome)
    (w0 : world) (hp : GstVmafThreadHelper) (ref cmp cmp' : GstVideoFrame)
    (i : nat) :
  helper w0 i = Some hp ->
  frame_width hp = 0 \/ frame_height hp = 0 ->
  buffer cmp = buffer cmp' ->
  compare_frames ref cmp i = compare_frames ref cmp' i /\
  exists w1 hp1,
    exec eng (start_on_first_frame ref i) w0 =
      Done tt w1
        [Load i; Store i (set_frame_width (info_width ref));
         Store i (set_frame_height (info_height ref)); TaskStart i] /\
    helper w1 i = Some hp1 /\
    frame_width hp1 = info_width ref /\
    frame_height hp1 = info_height ref /\
    error hp1 = error hp /\
    task_starts (vmaf_thread hp1) = S (task_starts (vmaf_thread hp)).
Proof.
  intros Hhp Hzero Hbuf. split.
  - unfold compare_frames, compare_frames_body, hand_over_frame.
    rewrite Hbuf. reflexivity.
  - set (hp_w := apply_update (set_frame_width (info_width ref)) hp).
    set (hp_h := apply_update (set_frame_height (info_height ref)) hp_w).
    set (hp1 := with_task (task_started (vmaf_thread hp_h)) hp_h).
    set (w_w := set_helper i hp_w w0).
    set (w_h := set_helper i hp_h w_w).
    assert (Hw : helper w_w i = Some hp_w)
      by (eapply helper_set_helper_eq; exact Hhp).
    assert (Hh : helper w_h i = Some hp_h)
      by (eapply helper_set_helper_eq; exact Hw).
    exists (set_helper i hp1 w_h), hp1. split; [| split].
    + unfold start_on_first_frame.
      rewrite (exec_step_load eng i _ w0 hp Hhp).
      assert (Hc : (frame_width hp =? 0) || (frame_height hp =? 0) = true).
      { apply orb_true_iff.
        destruct Hzero as [E | E]; rewrite E; [left | right]; reflexivity. }
      rewrite Hc.
      rewrite (exec_step_store eng i _ _ w0 hp Hhp).
      fold hp_w. fold w_w.
      rewrite (exec_step_store eng i _ _ w_w hp_w Hw).
      fold hp_h. fold w_h.
      unfold gst_task_start.
      cbn [act exec act_sem_with act_sem]. unfold on_helper. rewrite Hh.
      reflexivity.
    + eapply helper_set_helper_eq. exact Hh.
    + repeat split.
Qed.

Lemma start_geometry_from_reference_witness :
  compare_frames frame_a frame_wide 0 =
    compare_frames frame_a (with_geometry 2 2 frame_wide) 0 /\
  exists w1 hp1,
    exec None (start_on_first_frame frame_a 0) (opened_world gst_vmaf_init 2) =
      Done tt w1
        [Load 0; Store 0 (set_frame_width 2); Store 0 (set_frame_height 2);
         TaskStart 0] /\
    helper w1 0 = Some hp1 /\
    frame_width hp1 = 2 /\ frame_height hp1 = 2 /\
    error hp1 = 0 /\
    task_starts (vmaf_thread hp1) = 1%nat.
Proof.
  exact (start_geometry_from_reference None (opened_world gst_vmaf_init 2)
           (new_helper 0) frame_a frame_wide (with_geometry 2 2 frame_wide)
           0%nat eq_refl (or_introl eq_refl) eq_refl).
Defined.

(** * Further properties of the code *)

(** ** The element's properties *)

Lemma conforms_pool_method (z : Z) :
  existsb (fun e => Props.value e =? z) Props.gst_vmaf_pool_method_get_type = true ->
  z = 0 \/ z = 1 \/ z = 2.
Proof.
  intros H.
  change (((0 =? z) || ((1 =? z) || ((2 =? z) || false))) = true) in H.
  rewrite !orb_true_iff, !Z.eqb_eq in H. intuition (try lia; discriminate).
Qed.

Lemma conforms_log_fmt (z : Z) :
  existsb (fun e => Props.value e =? z) Props.gst_vmaf_log_fmt_get_type = true ->
  z = 0.
Proof.
  intros H. change (((0 =? z) || false) = true) in H.
  rewrite orb_true_iff, Z.eqb_eq in H. intuition (try lia; discriminate).
Qed.

(** X1.  For every property [gst_vmaf_class_init] installs and every value
    its specification admits, [_set_property] accepts the value and
    [_get_property], on a value initialised for the property's type, then
    gives that very value back. *)
Theorem property_round_trip (self : Props.GstVmaf) (p : Props.property)
    (pspec : Props.GParamSpec) (v : Props.GValue) :
  In (p, pspec) Props.gst_vmaf_class_init ->
  Props.conforms pspec v = true ->
  exists self',
    Props._set_property self (Props.id_of_property p) v = Props.Accepted self' /\
    Props._get_property self' (Props.id_of_property p) (Props.g_value_init pspec) =
      Props.Accepted v.
Proof.
  intros Hin Hv. simpl in Hin.
  repeat (destruct Hin as [Hin | Hin];
          [injection Hin as <- <-; destruct v; try discriminate Hv | ]);
    try contradiction;
    try (eexists; split; reflexivity).
  - apply conforms_log_fmt in Hv. subst. eexists; split; reflexivity.
  - apply conforms_pool_method in Hv.
    destruct Hv as [-> | [-> | ->]]; eexists; split; reflexivity.
Qed.

Lemma property_round_trip_witness :
  exists self',
    Props._set_property Props.zero_filled 12 (Props.GUint 3) =
      Props.Accepted self' /\
    Props._get_property self' 12 (Props.GUint 0) = Props.Accepted (Props.GUint 3).
Proof.
  exact (property_round_trip Props.zero_filled Props.PROP_SUBSAMPLE
           (Props.g_param_spec_uint "subsample" 1 128 1) (Props.GUint 3)
           ltac:(simpl; tauto) eq_refl).
Defined.

(** X2.  A [_set_property] that is accepted changes no other property: what
    [_get_property] gives for any other id is what it gave before. *)
Theorem set_property_leaves_others (self self' : Props.GstVmaf)
    (prop_id other : Z) (v value : Props.GValue) :
  Props._set_property self prop_id v = Props.Accepted self' ->
  Props.property_of_id other <> Props.property_of_id prop_id ->
  Props._get_property self' other value = Props._get_property self other value.
Proof.
  intros Hset Hne. unfold Props._set_property in Hset.
  unfold Props._get_property.
  destruct (Props.property_of_id prop_id) as [[] |]; try discriminate Hset;
    unfold Props.gst_vmaf_set_log_fmt, Props.gst_vmaf_set_pool_method in Hset;
    repeat match type of Hset with
           | context [if ?c then _ else _] => destruct c
           end;
    simpl in Hset; try discriminate Hset; injection Hset as <-;
    destruct (Props.property_of_id other) as [[] |];
    try reflexivity; contradiction Hne; reflexivity.
Qed.

Lemma set_property_leaves_others_witness :
  Props._get_property
    {| Props.model_path := None; Props.log_path := None;
       Props.log_fmt := JSON_LOG_FMT;
       Props.vmaf_config_disable_clip := false;
       Props.vmaf_config_enable_transform := false;
       Props.vmaf_config_phone_model := false;
       Props.vmaf_config_psnr := true;
       Props.vmaf_config_ssim := false;
       Props.vmaf_config_ms_ssim := false;
       Props.pool_method := MIN_POOL_METHOD;
       Props.num_threads := 0; Props.subsample := 0;
       Props.vmaf_config_conf_int := false |} 12 (Props.GUint 9) =
  Props._get_property Props.zero_filled 12 (Props.GUint 9).
Proof.
  apply (set_property_leaves_others Props.zero_filled _ 7 12
           (Props.GBoolean true) (Props.GUint 9)).
  - reflexivity.
  - discriminate.
Defined.

Lemma property_of_id_Some (prop_id : Z) (p : Props.property) :
  Props.property_of_id prop_id = Some p -> Props.id_of_property p = prop_id.
Proof.
  unfold Props.property_of_id.
  destruct (Z.ltb_spec prop_id 0) as [| Hpos]; [discriminate |].
  assert (Hid : prop_id = Z.of_nat (Z.to_nat prop_id)) by lia.
  destruct (Z.to_nat prop_id) as [| n];
    [intros [= <-]; simpl; lia |].
  do 14 (destruct n as [| n]; [intros [= <-]; simpl; lia |]).
  destruct n; discriminate.
Qed.

Lemma property_of_id_of_property (p : Props.property) :
  Props.property_of_id (Props.id_of_property p) = Some p.
Proof. destruct p; reflexivity. Qed.

Lemma installed_property (p : Props.property) :
  (exists pspec, In (p, pspec) Props.gst_vmaf_class_init) <->
  p <> Props.PROP_0 /\ p <> Props.PROP_LAST.
Proof.
  split.
  - intros (pspec & Hin). simpl in Hin.
    repeat (destruct Hin as [Hin | Hin];
            [injection Hin as <- <-; split; discriminate |]).
    contradiction.
  - intros [H0 HL]. unfold Props.gst_vmaf_class_init.
    destruct p; try contradiction; eexists; simpl; tauto.
Qed.

(** X3.  The ids [_set_property] and [_get_property] handle are exactly the
    ids [gst_vmaf_class_init] installs.  For an installed id the getter
    always succeeds and the setter never takes the default case; for every
    other id (PROP_0, PROP_LAST and beyond, a negative number) both take
    the default case, and neither the object nor the value changes. *)
Theorem property_ids_handled_iff_installed (self : Props.GstVmaf) (prop_id : Z)
    (v : Props.GValue) :
  ((exists p pspec, In (p, pspec) Props.gst_vmaf_class_init /\
                    Props.id_of_property p = prop_id) /\
   (exists v', Props._get_property self prop_id v = Props.Accepted v') /\
   (forall self', Props._set_property self prop_id v <>
                  Props.InvalidPropertyId self')) \/
  ((forall p pspec, In (p, pspec) Props.gst_vmaf_class_init ->
                    Props.id_of_property p <> prop_id) /\
   Props._set_property self prop_id v = Props.InvalidPropertyId self /\
   Props._get_property self prop_id v = Props.InvalidPropertyId v).
Proof.
  destruct (Props.property_of_id prop_id) as [p |] eqn:Ep.
  - destruct (installed_property p) as [_ Hinst].
    assert (Hcase : (p <> Props.PROP_0 /\ p <> Props.PROP_LAST) \/
                    p = Props.PROP_0 \/ p = Props.PROP_LAST)
      by (destruct p; auto; left; split; discriminate).
    destruct Hcase as [Hin | Hout].
    + left. destruct (Hinst Hin) as (pspec & Hp).
      split; [exists p, pspec; split;
              [exact Hp | apply property_of_id_Some; exact Ep] |].
      unfold Props._set_property, Props._get_property. rewrite Ep.
      destruct Hin as [H0 HL].
      destruct p; try contradiction;
        (split; [eexists; reflexivity |]);
        intros self';
        unfold Props.of_setter, Props.gst_vmaf_set_log_fmt,
          Props.gst_vmaf_set_pool_method;
        repeat match goal with
               | |- context [if ?c then _ else _] => destruct c
               end; discriminate.
    + right. split; [| split].
      * intros p' pspec Hp' Hid.
        rewrite <- Hid, property_of_id_of_property in Ep.
        injection Ep as ->.
        destruct (proj1 (installed_property p) (ex_intro _ pspec Hp')).
        destruct Hout; contradiction.
      * unfold Props._set_property. rewrite Ep.
        destruct Hout as [-> | ->]; reflexivity.
      * unfold Props._get_property. rewrite Ep.
        destruct Hout as [-> | ->]; reflexivity.
  - right. split; [| split].
    + intros p' pspec _ Hid.
      rewrite <- Hid, property_of_id_of_property in Ep. discriminate.
    + unfold Props._set_property. rewrite Ep. reflexivity.
    + unfold Props._get_property. rewrite Ep. reflexivity.
Qed.

(** X4.  [_set_property] reaches [g_assert_not_reached ()] exactly for a
    pool method or a log format that is not in the table the respective
    [..._get_type] function registers; an XML log format (1) is such a
    value. *)
Theorem unregistered_enum_value_asserts (self : Props.GstVmaf) (z : Z) :
  (Props._set_property self (Props.id_of_property Props.PROP_POOL_METHOD)
     (Props.GEnum z) = Props.AssertNotReached <->
   ~ In z (map Props.value Props.gst_vmaf_pool_method_get_type)) /\
  (Props._set_property self (Props.id_of_property Props.PROP_LOG_FMT)
     (Props.GEnum z) = Props.AssertNotReached <->
   ~ In z (map Props.value Props.gst_vmaf_log_fmt_get_type)) /\
  Props._set_property self (Props.id_of_property Props.PROP_LOG_FMT)
    (Props.GEnum 1) = Props.AssertNotReached.
Proof.
  split; [| split].
  - change (Props.of_setter (Props.gst_vmaf_set_pool_method self z) =
            Props.AssertNotReached <-> ~ In z [0; 1; 2]).
    unfold Props.gst_vmaf_set_pool_method.
    change (Props.pool_method_value MIN_POOL_METHOD) with 0.
    change (Props.pool_method_value MEAN_POOL_METHOD) with 1.
    change (Props.pool_method_value HARMONIC_MEAN_POOL_METHOD) with 2.
    destruct (Z.eqb_spec z 0); [subst; simpl; split; [discriminate | intros H; exfalso; apply H; auto] |].
    destruct (Z.eqb_spec z 1); [subst; simpl; split; [discriminate | intros H; exfalso; apply H; auto] |].
    destruct (Z.eqb_spec z 2); [subst; simpl; split; [discriminate | intros H; exfalso; apply H; auto] |].
    simpl. split; [intros _ | reflexivity]. intuition congruence.
  - change (Props.of_setter (Props.gst_vmaf_set_log_fmt self z) =
            Props.AssertNotReached <-> ~ In z [0]).
    unfold Props.gst_vmaf_set_log_fmt.
    change (Props.log_fmt_value JSON_LOG_FMT) with 0.
    destruct (Z.eqb_spec z 0); [subst; simpl; split; [discriminate | intros H; exfalso; apply H; auto] |].
    simpl. split; [intros _ | reflexivity]. intuition congruence.
  - reflexivity.
Qed.

(** X5.  Whatever the instance held before, [gst_vmaf_init] succeeds and
    leaves the settings the worker reads at their defaults; for every
    installed property the default of its specification is a value the
    specification admits, and it is what [_get_property] gives on the fresh
    instance. *)
Theorem fresh_element_defaults (self0 : Props.GstVmaf) :
  exists self,
    Props.gst_vmaf_init self0 = Some self /\
    settings self = Some gst_vmaf_init /\
    forall p pspec,
      In (p, pspec) Props.gst_vmaf_class_init ->
      Props.conforms pspec (Props.default_of pspec) = true /\
      Props._get_property self (Props.id_of_property p) (Props.g_value_init pspec) =
        Props.Accepted (Props.default_of pspec).
Proof.
  eexists. split; [reflexivity |]. split; [reflexivity |].
  intros p pspec Hin. simpl in Hin.
  repeat (destruct Hin as [Hin | Hin];
          [injection Hin as <- <-; split; reflexivity |]).
  contradiction.
Qed.

(** X6.  The name the wrapper prints for a pool method in its score lines
    is the nick under which [gst_vmaf_pool_method_get_type] registers the
    method, and the table registers no other value. *)
Theorem pool_method_names_agree :
  (forall m : GstVmafPoolMethodEnum,
     exists e, In e Props.gst_vmaf_pool_method_get_type /\
               Props.value e = Props.pool_method_value m /\
               Props.value_nick e = pool_method_name m /\
               forall v, nth_error (score_line "VMAF" m v) 1 =
                         Some (TStr (Props.value_nick e))) /\
  (forall e, In e Props.gst_vmaf_pool_method_get_type ->
             exists m, Props.value e = Props.pool_method_value m /\
                       Props.value_nick e = pool_method_name m).
Proof.
  split.
  - intros m.
    exists (nth (pool_method_index m) Props.gst_vmaf_pool_method_get_type
              {| Props.value := 0; Props.value_name := EmptyString;
                 Props.value_nick := EmptyString |}).
    destruct m;
      (split; [simpl; auto 6 | split; [reflexivity | split; reflexivity]]).
  - intros e Hin. simpl in Hin.
    destruct Hin as [<- | [<- | [<- | []]]];
      [exists MIN_POOL_METHOD | exists MEAN_POOL_METHOD
       | exists HARMONIC_MEAN_POOL_METHOD]; split; reflexivity.
Qed.

(** ** The wrapper's bookkeeping of bootstrap models *)

Lemma string_append_assoc (a b c : string) :
  ((a ++ b) ++ c = a ++ (b ++ c))%string.
Proof. induction a as [| ch a IH]; simpl; [reflexivity | rewrite IH; reflexivity]. Qed.

Lemma string_append_nil_r (a : string) : (a ++ "" = a)%string.
Proof. induction a as [| ch a IH]; simpl; [reflexivity | rewrite IH; reflexivity]. Qed.

Lemma concat_snoc (sep : string) (a : string) (l : list string) (k : string) :
  String.concat sep ((a :: l) ++ [k]) =
  (String.concat sep (a :: l) ++ sep ++ k)%string.
Proof.
  revert a. induction l as [| b l IH]; intros a.
  - reflexivity.
  - change (String.concat sep ((a :: b :: l) ++ [k]))
      with (a ++ sep ++ String.concat sep ((b :: l) ++ [k]))%string.
    rewrite IH.
    change (String.concat sep (a :: b :: l))
      with (a ++ sep ++ String.concat sep (b :: l))%string.
    rewrite !string_append_assoc. reflexivity.
Qed.

(** One more model after [done]: the three cases of the loop body. *)
Lemma bootstrap_model_list_snoc (done : list string) (key : string) :
  bootstrap_model_list (done ++ [key]) =
  if Z.of_nat (length done) =? 0 then
    (bootstrap_model_list done ++ key ++ ",")%string
  else if Z.of_nat (length done) =? 1 then
    (bootstrap_model_list done ++ key)%string
  else (bootstrap_model_list done ++ "," ++ key)%string.
Proof.
  destruct done as [| a [| b done]].
  - reflexivity.
  - simpl. rewrite string_append_assoc. reflexivity.
  - replace (Z.of_nat (length (a :: b :: done)) =? 0) with false
      by (symmetry; apply Z.eqb_neq; simpl length; lia).
    replace (Z.of_nat (length (a :: b :: done)) =? 1) with false
      by (symmetry; apply Z.eqb_neq; simpl length; lia).
    change (bootstrap_model_list (a :: b :: done))
      with (String.concat "," (a :: b :: done)).
    rewrite <- concat_snoc.
    destruct done; reflexivity.
Qed.

Lemma with_stdout_nil (w : world) : with_stdout (stdout w ++ []) w = w.
Proof. destruct w. unfold with_stdout. simpl. rewrite app_nil_r. reflexivity. Qed.

Lemma with_stdout_app (w : world) (l1 l2 : list (list tok)) :
  with_stdout (stdout (with_stdout (stdout w ++ l1) w) ++ l2)
    (with_stdout (stdout w ++ l1) w) =
  with_stdout (stdout w ++ l1 ++ l2) w.
Proof. unfold with_stdout. simpl. rewrite app_assoc. reflexivity. Qed.

Lemma exec_bootstrap_loop (eng : option engine_outcome) (keys : list string)
    (result : Result) (pool : GstVmafPoolMethodEnum) (done : list string)
    (w : world) :
  exec eng (bootstrap_loop keys result pool (Z.of_nat (length done))
              (bootstrap_model_list done)) w =
  Done (Z.of_nat (length (done ++ bootstrap_keys keys)),
        bootstrap_model_list (done ++ bootstrap_keys keys))
    (with_stdout
       (stdout w ++ bootstrap_lines keys result pool (Z.of_nat (length done))) w)
    (map Printf (bootstrap_lines keys result pool (Z.of_nat (length done)))).
Proof.
  revert done w. induction keys as [| key keys IH]; intros done w.
  - cbn [bootstrap_loop bootstrap_lines bootstrap_keys List.filter exec map].
    rewrite with_stdout_nil, app_nil_r. reflexivity.
  - cbn [bootstrap_loop bootstrap_lines bootstrap_keys List.filter].
    fold (bootstrap_keys keys).
    destruct (string_contains BOOSTRAP_VMAF_MODEL_PREFIX key).
    + cbv zeta. rewrite exec_mbind, exec_printf.
      rewrite <- bootstrap_model_list_snoc.
      replace (Z.of_nat (length done) + 1)
        with (Z.of_nat (length (done ++ [key])))
        by (rewrite length_app; simpl; lia).
      cbv beta. rewrite IH.
      replace ((done ++ [key]) ++ bootstrap_keys keys)
        with (done ++ key :: bootstrap_keys keys)
        by (rewrite <- app_assoc; reflexivity).
      cbn [after_all map app]. rewrite with_stdout_app. reflexivity.
    + apply IH.
Qed.

Lemma bootstrap_lines_length (keys : list string) (result : Result)
    (pool : GstVmafPoolMethodEnum) (n : Z) :
  length (bootstrap_lines keys result pool n) = length (bootstrap_keys keys).
Proof.
  revert n. induction keys as [| key keys IH]; intros n.
  - reflexivity.
  - cbn [bootstrap_lines bootstrap_keys List.filter].
    fold (bootstrap_keys keys).
    destruct (string_contains BOOSTRAP_VMAF_MODEL_PREFIX key);
      simpl; rewrite IH; reflexivity.
Qed.

(** X7.  The loop of [RunVMAF] over the result keys returns the number of
    keys that contain "vmaf_" and their list: empty when there is none, the
    key followed by a comma when there is exactly one, the keys joined by
    commas when there are more; it prints one line per such key and touches
    neither the files nor the helpers. *)
Theorem bootstrap_models_counted_and_listed (eng : option engine_outcome)
    (keys : list string) (result : Result) (pool : GstVmafPoolMethodEnum)
    (w : world) :
  exists w' t,
    exec eng (bootstrap_loop keys result pool 0 EmptyString) w =
      Done (Z.of_nat (length (bootstrap_keys keys)),
            bootstrap_model_list (bootstrap_keys keys)) w' t /\
    stdout w' = stdout w ++ bootstrap_lines keys result pool 0 /\
    length (bootstrap_lines keys result pool 0) = length (bootstrap_keys keys) /\
    files w' = files w /\
    helper_struct_pointer w' = helper_struct_pointer w /\
    (bootstrap_keys keys = [] ->
     bootstrap_model_list (bootstrap_keys keys) = EmptyString) /\
    (forall a, bootstrap_keys keys = [a] ->
               bootstrap_model_list (bootstrap_keys keys) = (a ++ ",")%string) /\
    (forall a b l, bootstrap_keys keys = a :: b :: l ->
                   bootstrap_model_list (bootstrap_keys keys) =
                   String.concat "," (a :: b :: l)).
Proof.
  eexists _, _. split; [exact (exec_bootstrap_loop eng keys result pool [] w) |].
  split; [reflexivity |]. split; [apply bootstrap_lines_length |].
  split; [reflexivity |]. split; [reflexivity |].
  split; [intros -> | split; [intros a -> | intros a b l ->]]; reflexivity.
Qed.

(** ** A run the engine fails *)

(** X8.  When the engine throws, [RunVMAF] returns -3 for a runtime error,
    -4 for a logic error, -5 for any other standard exception and -6 for
    anything else; it prints one line and does nothing more: no report file
    is opened, whatever the log path is, and the helpers, the bus and the
    output buffer are as they were. *)
Theorem failed_run_leaves_no_report (e : exception) (w : world) (h : nat)
    (hp : GstVmafThreadHelper) :
  helper w h = Some hp ->
  exists w' t,
    exec (Some (Thrown e)) (RunVMAF h) w = Done (exception_code e) w' t /\
    exception_code e = match e with
                       | runtime_error _ => -3
                       | logic_error _ => -4
                       | std_exception _ => -5
                       | unknown_exception => -6
                       end /\
    files w' = files w /\
    helper_struct_pointer w' = helper_struct_pointer w /\
    bus w' = bus w /\ outbuf w' = outbuf w /\
    stdout w' = stdout w ++ [caught_line e].
Proof.
  intros Hhp.
  destruct (RunVMAF_thrown e w h hp Hhp) as (code & w' & t & Hexec & _ & _ & Hw & Hc).
  exists w', t. subst w'. rewrite Hexec, Hc.
  destruct e; repeat split.
Qed.

Lemma failed_run_leaves_no_report_witness :
  exists w' t,
    exec (Some (Thrown (logic_error "bad model"))) (RunVMAF 0)
      (opened_world gst_vmaf_init 2) = Done (-4) w' t /\
    files w' = [] /\ bus w' = [].
Proof.
  destruct (failed_run_leaves_no_report (logic_error "bad model")
              (opened_world gst_vmaf_init 2) 0 (new_helper 0) eq_refl)
    as (w' & t & Hexec & _ & Hfiles & _ & Hbus & _).
  exists w', t. split; [exact Hexec |]. split; assumption.
Defined.

(** ** A run the engine completes *)




Lemma set_helper_same (w : world) (i : nat) (hp : GstVmafThreadHelper) :
  helper w i = Some hp -> set_helper i hp w = w.
Proof.
  intros H. destruct w. unfold set_helper, with_helpers, helper in *. simpl in *.
  rewrite list_insert_id by exact H. reflexivity.
Qed.

Lemma set_helper_twice (w : world) (i : nat) (hp1 hp2 : GstVmafThreadHelper) :
  set_helper i hp2 (set_helper i hp1 w) = set_helper i hp2 w.
Proof.
  unfold set_helper, with_helpers. simpl. rewrite list_insert_insert_eq.
  reflexivity.
Qed.







(** ** The bounds of the copy loop *)

Lemma writes_app (main : bool) (t1 t2 : list action) :
  writes main (t1 ++ t2) = writes main t1 ++ writes main t2.
Proof. unfold writes. apply flat_map_app. Qed.

Lemma writes_flat_map {X : Type} (main : bool) (f : X -> list action)
    (l : list X) :
  writes main (flat_map f l) = flat_map (fun x => writes main (f x)) l.
Proof.
  induction l as [| x l IH]; simpl; [reflexivity |].
  rewrite writes_app, IH. reflexivity.
Qed.

Lemma flat_map_singleton {X Y : Type} (f : X -> Y) (l : list X) :
  flat_map (fun x => [f x]) l = map f l.
Proof. induction l as [| x l IH]; simpl; [| rewrite IH]; reflexivity. Qed.

Lemma writes_row_trace (main : bool) (h : nat) (hp : GstVmafThreadHelper)
    (width row_off : Z) (i : nat) :
  writes main (row_trace h hp width row_off i) =
  map (fun j => (row_off + Z.of_nat j,
                 pixel_at (source_ptr main hp)
                   (Z.of_nat i * width + Z.of_nat j)))
    (seq 0 (Z.to_nat width)).
Proof.
  unfold row_trace. rewrite writes_flat_map, <- flat_map_singleton.
  apply flat_map_ext. intros j. destruct main; reflexivity.
Qed.

Lemma writes_copy_trace (main : bool) (h : nat) (hp : GstVmafThreadHelper)
    (stride : Z) :
  writes main (copy_trace h hp stride) =
  flat_map (fun i =>
    map (fun j => (Z.of_nat i * (stride / 4) + Z.of_nat j,
                   pixel_at (source_ptr main hp)
                     (Z.of_nat i * frame_width hp + Z.of_nat j)))
      (seq 0 (Z.to_nat (frame_width hp))))
    (seq 0 (Z.to_nat (frame_height hp))).
Proof.
  unfold copy_trace. rewrite writes_flat_map.
  apply flat_map_ext. intros i. apply writes_row_trace.
Qed.

Lemma flat_map_bind {X Y : Type} (f : X -> list Y) (l : list X) :
  flat_map f l = l ≫= f.
Proof. induction l as [| x l IH]; simpl; [| rewrite IH]; reflexivity. Qed.

Lemma row_major_offsets_NoDup (s : Z) (width height : nat) :
  Z.of_nat width <= s ->
  NoDup (flat_map (fun i => map (fun j => Z.of_nat i * s + Z.of_nat j)
                              (seq 0 width))
           (seq 0 height)).
Proof.
  intros Hs. rewrite flat_map_bind. apply NoDup_bind.
  - intros i1 i2 off _ _ H1 H2.
    apply list_elem_of_In, in_map_iff in H1 as (j1 & <- & Hj1).
    apply list_elem_of_In, in_map_iff in H2 as (j2 & E & Hj2).
    apply in_seq in Hj1, Hj2. nia.
  - intros i _. apply (NoDup_fmap_2_strong _); [| apply NoDup_seq].
    intros j1 j2 _ _ E. lia.
  - apply NoDup_seq.
Qed.

Lemma exec_read_frame_copy (eng : option engine_outcome) (w : world)
    (stride : Z) (h : nat) (hp : GstVmafThreadHelper) :
  helper w h = Some hp -> wait_frame hp = false -> no_frames hp = false ->
  wait_reading_complete hp = true ->
  exec eng (read_frame stride h) w =
  Done 0 (set_helper h (copied hp) w)
    ([MutexLock h m_wait_frame; Load h] ++
     copy_trace h (with_mutex m_wait_frame true hp) stride ++
     [Store h (set_reading_correct true);
      MutexUnlock h m_wait_reading_complete]).
Proof.
  intros Hh Hwf Hnf Hrc.
  set (hp1 := with_mutex m_wait_frame true hp).
  set (w1 := set_helper h hp1 w).
  assert (H1 : helper w1 h = Some hp1)
    by (eapply helper_set_helper_eq; eauto).
  set (hp2 := apply_update (set_reading_correct true) hp1).
  set (w2 := set_helper h hp2 w1).
  assert (H2 : helper w2 h = Some hp2)
    by (eapply helper_set_helper_eq; eauto).
  unfold read_frame.
  rewrite (exec_step_lock eng h m_wait_frame _ w hp Hh Hwf).
  fold hp1. fold w1.
  rewrite (exec_step_load eng h _ w1 hp1 H1).
  change (no_frames hp1) with (no_frames hp). rewrite Hnf. cbn [negb].
  rewrite exec_mbind.
  rewrite (exec_for_loop_pure eng _
             (fun i => row_trace h hp1 (frame_width hp1)
                         (Z.of_nat i * (stride / 4)) i)).
  2: { intros j. apply exec_read_frame_row. exact H1. }
  cbv beta iota.
  rewrite (exec_step_store eng h _ _ w1 hp1 H1). fold hp2. fold w2.
  rewrite (exec_step_unlock eng h m_wait_reading_complete _ w2 hp2 H2 Hrc).
  cbn [exec after after_all app].
  subst w2 w1. rewrite !set_helper_twice. reflexivity.
Qed.

(** With [wait_reading_complete] not held the copy is the same, and the
    callback ends at the unlock. *)
Lemma exec_read_frame_copy_unheld (eng : option engine_outcome) (w : world)
    (stride : Z) (h : nat) (hp : GstVmafThreadHelper) :
  helper w h = Some hp -> wait_frame hp = false -> no_frames hp = false ->
  wait_reading_complete hp = false ->
  trace_of (exec eng (read_frame stride h) w) =
    [MutexLock h m_wait_frame; Load h] ++
    copy_trace h (with_mutex m_wait_frame true hp) stride ++
    [Store h (set_reading_correct true)].
Proof.
  intros Hh Hwf Hnf Hrc.
  set (hp1 := with_mutex m_wait_frame true hp).
  set (w1 := set_helper h hp1 w).
  assert (H1 : helper w1 h = Some hp1)
    by (eapply helper_set_helper_eq; eauto).
  set (hp2 := apply_update (set_reading_correct true) hp1).
  set (w2 := set_helper h hp2 w1).
  assert (H2 : helper w2 h = Some hp2)
    by (eapply helper_set_helper_eq; eauto).
  unfold read_frame.
  rewrite (exec_step_lock eng h m_wait_frame _ w hp Hh Hwf).
  fold hp1. fold w1.
  rewrite (exec_step_load eng h _ w1 hp1 H1).
  change (no_frames hp1) with (no_frames hp). rewrite Hnf. cbn [negb].
  rewrite exec_mbind.
  rewrite (exec_for_loop_pure eng _
             (fun i => row_trace h hp1 (frame_width hp1)
                         (Z.of_nat i * (stride / 4)) i)).
  2: { intros j. apply exec_read_frame_row. exact H1. }
  cbv beta iota.
  rewrite (exec_step_store eng h _ _ w1 hp1 H1). fold hp2. fold w2.
  rewrite (exec_step_unlock_unheld eng h m_wait_reading_complete _ w2 hp2 H2 Hrc).
  reflexivity.
Qed.

(** X10.  When [read_frame] copies a frame pair and a row of the engine's
    buffers holds at least [frame_width] floats, it stores exactly
    [frame_width * frame_height] values into each of the two buffers, no
    offset twice, every offset below [frame_height] rows of the buffer, and
    every value read from the frame data at an index below
    [frame_width * frame_height]: only the first plane is read. *)
Theorem read_frame_copy_bounds (eng : option engine_outcome) (w : world)
    (stride : Z) (h : nat) (hp : GstVmafThreadHelper) (main : bool) :
  helper w h = Some hp -> wait_frame hp = false -> no_frames hp = false ->
  0 <= frame_width hp <= stride / 4 ->
  let t := trace_of (exec eng (read_frame stride h) w) in
  length (writes main t) =
    (Z.to_nat (frame_height hp) * Z.to_nat (frame_width hp))%nat /\
  NoDup (map fst (writes main t)) /\
  forall off v,
    In (off, v) (writes main t) ->
    0 <= off < frame_height hp * (stride / 4) /\
    exists idx, 0 <= idx < frame_width hp * frame_height hp /\
                v = pixel_at (source_ptr main hp) idx.
Proof.
  intros Hh Hwf Hnf Hw t.
  assert (Ht : writes main t =
               writes main
                 (copy_trace h (with_mutex m_wait_frame true hp) stride)).
  { subst t. destruct (wait_reading_complete hp) eqn:Hrc.
    - rewrite (exec_read_frame_copy eng w stride h hp Hh Hwf Hnf Hrc).
      cbn [trace_of]. rewrite !writes_app.
      change (writes main [MutexLock h m_wait_frame; Load h])
        with (@nil (Z * Z)).
      change (writes main [Store h (set_reading_correct true);
                           MutexUnlock h m_wait_reading_complete])
        with (@nil (Z * Z)).
      rewrite app_nil_l, app_nil_r. reflexivity.
    - rewrite (exec_read_frame_copy_unheld eng w stride h hp Hh Hwf Hnf Hrc).
      rewrite !writes_app.
      change (writes main [MutexLock h m_wait_frame; Load h])
        with (@nil (Z * Z)).
      change (writes main [Store h (set_reading_correct true)])
        with (@nil (Z * Z)).
      rewrite app_nil_l, app_nil_r. reflexivity. }
  rewrite Ht, writes_copy_trace.
  change (frame_width (with_mutex m_wait_frame true hp)) with (frame_width hp).
  change (frame_height (with_mutex m_wait_frame true hp)) with (frame_height hp).
  change (source_ptr main (with_mutex m_wait_frame true hp))
    with (source_ptr main hp).
  split; [| split].
  - rewrite (flat_map_constant_length (c := Z.to_nat (frame_width hp))).
    + rewrite length_seq. reflexivity.
    + intros i _. rewrite length_map, length_seq. reflexivity.
  - rewrite flat_map_concat_map, concat_map, map_map, <- flat_map_concat_map.
    rewrite (flat_map_ext _
               (fun i => map (fun j => Z.of_nat i * (stride / 4) + Z.of_nat j)
                           (seq 0 (Z.to_nat (frame_width hp)))))
      by (intros i; rewrite map_map; reflexivity).
    apply row_major_offsets_NoDup. lia.
  - intros off v Hin.
    apply in_flat_map in Hin as (i & Hi & Hin).
    apply in_map_iff in Hin as (j & E & Hj).
    injection E as <- <-. apply in_seq in Hi, Hj.
    split; [nia |].
    exists (Z.of_nat i * frame_width hp + Z.of_nat j). split; [nia | reflexivity].
Qed.

Lemma read_frame_copy_bounds_witness :
  length (writes true
            (trace_of (exec None (read_frame 8 0) (world_of [offered_helper])))) =
  4%nat.
Proof.
  exact (proj1 (read_frame_copy_bounds None (world_of [offered_helper]) 8 0
                  offered_helper true eq_refl eq_refl eq_refl
                  ltac:(vm_compute; split; discriminate))).
Defined.

(** ** Stopping a task and re-entering the task function *)

(** X11.  [try_thread_stop] never waits and always returns TRUE.  It sets a
    STARTED task to STOPPED, leaving its thread running, and changes nothing
    for a task in any other state: a paused task stays paused. *)
Theorem try_thread_stop_effect (eng : option engine_outcome) (w : world)
    (i : nat) (hp : GstVmafThreadHelper) :
  helper w i = Some hp ->
  exists w' t,
    exec eng (try_thread_stop i) w = Done true w' t /\
    (task_state (vmaf_thread hp) = GST_TASK_STARTED ->
     w' = set_helper i
            (with_task (task_with_state GST_TASK_STOPPED (vmaf_thread hp)) hp) w /\
     option_map (fun h => (task_state (vmaf_thread h), task_running (vmaf_thread h)))
       (helper w' i) =
       Some (GST_TASK_STOPPED, task_running (vmaf_thread hp))) /\
    (task_state (vmaf_thread hp) <> GST_TASK_STARTED -> w' = w).
Proof.
  intros Hh. unfold try_thread_stop, gst_task_get_state, gst_task_stop.
  cbn [mbind prog_bind act bind exec act_sem_with act_sem].
  unfold on_helper. rewrite Hh. cbn [after exec bind].
  destruct (task_state (vmaf_thread hp)) eqn:E; cbn [GstTaskState_eqb].
  - cbn [act exec act_sem_with act_sem]. unfold on_helper. rewrite Hh.
    cbn [after exec]. eexists _, _. split; [reflexivity |]. split.
    + intros _. split; [reflexivity |].
      erewrite helper_set_helper_eq by exact Hh. reflexivity.
    + intros H. contradiction H. reflexivity.
  - cbn [exec after]. eexists _, _. split; [reflexivity |].
    split; [discriminate | reflexivity].
  - cbn [exec after]. eexists _, _. split; [reflexivity |].
    split; [discriminate | reflexivity].
Qed.

Lemma try_thread_stop_effect_witness :
  exists w' t,
    exec None (try_thread_stop 0) (world_of [offered_helper]) = Done true w' t /\
    option_map (fun h => (task_state (vmaf_thread h), task_running (vmaf_thread h)))
      (helper w' 0) = Some (GST_TASK_STOPPED, true).
Proof.
  destruct (try_thread_stop_effect None (world_of [offered_helper]) 0
              offered_helper eq_refl) as (w' & t & Hexec & Hstarted & _).
  exists w', t. split; [exact Hexec |].
  exact (proj2 (Hstarted eq_refl)).
Defined.



(** ** The shape of a dispatch *)

Lemma try_thread_stop_hands_nothing (k : nat) :
  acts hands_nothing any_answer (try_thread_stop k).
Proof. acts_solve. Qed.

Lemma start_on_first_frame_hands_nothing (ref : GstVideoFrame) (k : nat) :
  acts hands_nothing any_answer (start_on_first_frame ref k).
Proof. acts_solve. Qed.

Lemma compare_frames_on_stream (ref cmp : GstVideoFrame) (k : nat) :
  acts (on_stream k) any_answer (compare_frames ref cmp k).
Proof.
  unfold compare_frames, compare_frames_body. acts_solve; reflexivity.
Qed.

Lemma hand_over_frame_paths (ref cmp : GstVideoFrame) (k : nat)
    (t : list action) (r : bool) :
  path (hand_over_frame ref cmp k) t r ->
  (r = false /\ Forall hands_nothing t) \/
  exists tail,
    t = offer_trace ref cmp k ++ tail /\
    ((r = true /\ tail = [WriteOut (buffer ref)]) \/
     (r = false /\ Forall hands_nothing tail)).
Proof.
  unfold hand_over_frame. intros H.
  apply path_mbind in H as (? & [] & ? & H1 & H & ->).
  apply path_act in H1 as ->.
  apply path_mbind in H as (? & hp & ? & H1 & H & ->).
  apply path_act in H1 as ->.
  destruct (negb (error hp =? 0)).
  - left. apply path_mbind in H as (t1 & b & ? & H1 & H & ->).
    destruct H as [-> ->]. split; [reflexivity |].
    rewrite app_nil_r. repeat constructor.
    eapply acts_path; [apply try_thread_stop_hands_nothing | exact H1].
  - right.
    do 6 (apply path_mbind in H as (? & [] & ? & H1 & H & ->);
          apply path_act in H1 as ->).
    apply path_mbind in H as (? & hp2 & ? & H1 & H & ->).
    apply path_act in H1 as ->.
    destruct (reading_correct hp2).
    + apply path_mbind in H as (? & [] & ? & H1 & H & ->).
      apply path_act in H1 as ->. destruct H as [-> ->].
      exists [WriteOut (buffer ref)]. split; [reflexivity |].
      left; split; reflexivity.
    + apply path_mbind in H as (? & [] & ? & H1 & H & ->).
      apply path_act in H1 as ->.
      apply path_mbind in H as (? & hp3 & ? & H1 & H & ->).
      apply path_act in H1 as ->.
      apply path_mbind in H as (t1 & [] & ? & H1 & H & ->).
      apply path_mbind in H as (? & [] & ? & H3 & H & ->).
      apply path_act in H3 as ->. destruct H as [-> ->].
      assert (Ht1 : Forall hands_nothing t1).
      { destruct (negb (error hp3 =? 0)).
        - apply path_mbind in H1 as (t5 & b & t6 & H5 & [-> _] & ->).
          rewrite app_nil_r.
          eapply acts_path; [apply try_thread_stop_hands_nothing | exact H5].
        - destruct H1 as [-> _]. constructor. }
      eexists. split; [reflexivity |].
      right. split; [reflexivity |].
      repeat (apply Forall_app; split); try exact Ht1; repeat constructor.
Qed.

(** X13.  A dispatch works on the helper of its own stream only.  Either it
    ends at the error check: it returns FALSE, stores no frame pointer, does
    not release [wait_frame] and does not write the output buffer.  Or it
    offers the pair once, both frame pointers being stored before
    [wait_frame] is released, and then either copies the reference frame to
    the output buffer and returns TRUE, or writes nothing and returns
    FALSE. *)
Theorem dispatch_offers_then_copies (ref cmp : GstVideoFrame) (k : nat)
    (t : list action) (r : bool) :
  path (compare_frames ref cmp k) t r ->
  Forall (on_stream k) t /\
  ((r = false /\ Forall hands_nothing t) \/
   exists start tail,
     t = [Note (call_compare_frames k)] ++ start ++ offer_trace ref cmp k ++
         tail ++ [Note (ret_compare_frames k r)] /\
     Forall hands_nothing start /\
     ((r = true /\ tail = [WriteOut (buffer ref)]) \/
      (r = false /\ Forall hands_nothing tail))).
Proof.
  intros H. split.
  { eapply acts_path; [apply compare_frames_on_stream | exact H]. }
  unfold compare_frames in H.
  apply path_mbind in H as (? & [] & ? & H1 & H & ->).
  apply path_act in H1 as ->.
  apply path_mbind in H as (tb & res & ? & Hb & H & ->).
  apply path_mbind in H as (? & [] & ? & H1 & H & ->).
  apply path_act in H1 as ->. destruct H as [-> ->].
  unfold compare_frames_body in Hb.
  apply path_mbind in Hb as (start & [] & th & Hs & Hh & ->).
  assert (Hstart : Forall hands_nothing start)
    by (eapply acts_path;
        [apply start_on_first_frame_hands_nothing | exact Hs]).
  apply hand_over_frame_paths in Hh
    as [[-> Hn] | (tail & -> & Htail)].
  - left. split; [reflexivity |].
    repeat (apply Forall_app; split); try assumption; repeat constructor.
  - right. exists start, tail. split; [| split; [exact Hstart | exact Htail]].
    simpl. rewrite <- !app_assoc. reflexivity.
Qed.

Lemma dispatch_offers_then_copies_witness :
  Forall (on_stream 0)
    (trace_of (exec None (compare_frames frame_a frame_b 0)
                 (world_of [errored_helper]))).
Proof.
  apply (dispatch_offers_then_copies frame_a frame_b 0 _ false).
  apply (path_exec None _ (world_of [errored_helper])
           world_after_failed_dispatch).
  vm_compute. reflexivity.
Defined.

(** ** The helpers a cycle works on *)

Lemma acts_impl {A : Type} (ok ok' : action -> Prop) (p : prog A) :
  (forall a, ok a -> ok' a) -> acts ok any_answer p -> acts ok' any_answer p.
Proof.
  intros Himp. induction p as [a | a k IH]; simpl; [auto |].
  intros [Ha Hk]. split; [apply Himp; exact Ha |].
  intros x Hx. apply IH. apply Hk. exact Hx.
Qed.

Lemma on_stream_below (k bound : nat) (a : action) :
  (k < bound)%nat -> on_stream k a -> below bound a.
Proof.
  unfold on_stream, below. destruct (helper_index a); [intros ? ->|]; auto.
Qed.

Lemma prepared_frames_cons (f : option GstVideoFrame)
    (l : list (option GstVideoFrame)) :
  prepared_frames (f :: l) =
  match f with
  | Some frame => frame :: prepared_frames l
  | None => prepared_frames l
  end.
Proof. destruct f; reflexivity. Qed.

Lemma aggregate_loop_below (l : list (option GstVideoFrame))
    (ref : GstVideoFrame) (res : bool) (k bound : nat) :
  (k + length (prepared_frames l) <= bound)%nat ->
  acts (below bound) any_answer (aggregate_loop l (Some ref) res k).
Proof.
  revert res k. induction l as [| f l IH]; intros res k Hb;
    cbn [aggregate_loop]; [exact I |].
  rewrite prepared_frames_cons in Hb. destruct f as [frame |].
  - simpl in Hb. apply acts_mbind.
    + eapply acts_impl; [| apply compare_frames_on_stream].
      intros a. apply on_stream_below. lia.
    + intros r. apply IH. lia.
  - apply IH. exact Hb.
Qed.

Lemma aggregate_loop_none_below (l : list (option GstVideoFrame)) (res : bool)
    (bound : nat) :
  (length (prepared_frames l) - 1 <= bound)%nat ->
  acts (below bound) any_answer (aggregate_loop l None res 0).
Proof.
  induction l as [| f l IH]; intros Hb; cbn [aggregate_loop]; [exact I |].
  rewrite prepared_frames_cons in Hb. destruct f as [frame |].
  - simpl in Hb. apply aggregate_loop_below. lia.
  - apply IH. exact Hb.
Qed.

Lemma length_prepared_frames (l : list (option GstVideoFrame)) :
  (length (prepared_frames l) <= length l)%nat.
Proof.
  induction l as [| f l IH]; [reflexivity |].
  rewrite prepared_frames_cons. destruct f; simpl; lia.
Qed.

(** X14.  An output cycle over at most the sink pads the element had when
    it was activated works on existing helpers only: every helper index a
    command of the cycle names is below the number of prepared frames less
    one, and [vmaf_threads_open] has made a helper for it. *)
Theorem cycle_stays_within_helpers (cfg : GstVmaf) (n : nat)
    (sinkpads : list (option GstVideoFrame)) (position : Z)
    (t : list action) (r : GstFlowReturn) :
  (length sinkpads <= n)%nat ->
  path (gst_vmaf_aggregate_frames sinkpads position) t r ->
  Forall (below (length (prepared_frames sinkpads) - 1)) t /\
  forall a i, In a t -> helper_index a = Some i ->
              helper (opened_world cfg n) i = Some (new_helper i).
Proof.
  intros Hn Hpath.
  assert (Hb : Forall (below (length (prepared_frames sinkpads) - 1)) t).
  { eapply acts_path; [| exact Hpath].
    unfold gst_vmaf_aggregate_frames. apply acts_mbind.
    - apply aggregate_loop_none_below. lia.
    - intros res. destruct (negb res); [exact I |].
      apply acts_act_bind; [exact I | intros; exact I]. }
  split; [exact Hb |].
  intros a i Hin Hi. rewrite Forall_forall in Hb.
  pose proof (Hb a (proj2 (list_elem_of_In _ _) Hin)) as Ha.
  unfold below in Ha. rewrite Hi in Ha.
  pose proof (length_prepared_frames sinkpads).
  unfold helper. rewrite opened_world_helpers.
  rewrite list_lookup_fmap, lookup_seq_lt by lia. reflexivity.
Qed.

Lemma cycle_stays_within_helpers_witness :
  Forall (below 1)
    (trace_of (exec None
                 (gst_vmaf_aggregate_frames [Some frame_a; Some frame_b] 7)
                 (world_of [errored_helper]))).
Proof.
  apply (cycle_stays_within_helpers gst_vmaf_init 2 [Some frame_a; Some frame_b]
           7 _ GST_FLOW_ERROR).
  - simpl. lia.
  - apply (path_exec None _ (world_of [errored_helper])
             world_after_failed_dispatch).
    vm_compute. reflexivity.
Defined.

(** ** Bus and output buffer under every interleaving *)

Lemma posted_app (t1 t2 : list action) : posted (t1 ++ t2) = posted t1 ++ posted t2.
Proof. unfold posted. apply flat_map_app. Qed.

Lemma outbuf_after_app (t1 t2 : list action) (b : list Z) :
  outbuf_after (t1 ++ t2) b = outbuf_after t2 (outbuf_after t1 b).
Proof. unfold outbuf_after. apply fold_left_app. Qed.

Lemma act_sem_outputs (a : action) (w w' : world) (x : answer a) :
  act_sem a w = Stepped x w' ->
  bus w' = bus w ++ posted [a] /\ outbuf w' = outbuf_after [a] (outbuf w).
Proof.
  intros H. act_sem_inv H; simpl; rewrite ?app_nil_r; split; reflexivity.
Qed.

Lemma act_sem_posts_nothing (a : action) (w w' : world) (x : answer a) :
  posts_nothing a -> act_sem a w = Stepped x w' ->
  bus w' = bus w /\ outbuf w' = outbuf w.
Proof.
  intros Hq H. destruct (act_sem_outputs a w w' x H) as [Hb Ho].
  rewrite Hb, Ho. destruct a; try contradiction;
    simpl; rewrite ?app_nil_r; split; reflexivity.
Qed.

Lemma posts_nothing_vmaf_thread_call (vs : option nat) :
  acts posts_nothing any_answer (vmaf_thread_call vs).
Proof. unfold vmaf_thread_call. destruct vs; [| exact I]. acts_solve. Qed.

Lemma posts_nothing_read_frame (stride : Z) (h : nat) :
  acts posts_nothing any_answer (read_frame stride h).
Proof. unfold read_frame, read_frame_row. acts_solve. Qed.

Lemma streaming_outputs_set_worker {A : Type} (j : nat) (t : wthread)
    (w : world) (c : config A) :
  streaming_outputs c -> bus w = bus (shared c) -> outbuf w = outbuf (shared c) ->
  wthread_acts posts_nothing t ->
  streaming_outputs (set_worker j t w c).
Proof.
  intros (Hb & Ho & Hws) Ebus Eout Ht. split; [| split]; simpl.
  - rewrite Ebus. exact Hb.
  - rewrite Eout. exact Ho.
  - intros j'. destruct (j' =? j)%nat; [exact Ht | apply Hws].
Qed.

Lemma streaming_outputs_step {A : Type} (l : label) (c c' : config A) :
  mstep l c = Some c' -> streaming_outputs c -> streaming_outputs c'.
Proof.
  intros Hstep Hc. pose proof Hc as (Hb & Ho & Hws).
  destruct l as [| j | j stride | j r | j e]; unfold mstep in Hstep.
  - destruct (pipeline c) as [a | a k] eqn:Ep; [discriminate |].
    destruct (act_sem a (shared c)) as [x w' | |] eqn:Ea; try discriminate.
    injection Hstep as <-.
    destruct (act_sem_outputs a _ _ x Ea) as [Eb Eo].
    split; [| split]; simpl.
    + rewrite Eb, Hb, posted_app. reflexivity.
    + rewrite Eo, Ho, outbuf_after_app. reflexivity.
    + exact Hws.
  - pose proof (Hws j) as Hj.
    destruct (workers c j) as [| | p | h k | p h k |] eqn:Ew.
    + destruct (worker_task c j) as [t |]; [| discriminate].
      destruct (task_running t); [| discriminate].
      injection Hstep as <-.
      apply streaming_outputs_set_worker; auto; exact I.
    + unfold task_loop in Hstep.
      destruct (helper (shared c) j) as [hp |] eqn:Eh; [| discriminate].
      destruct (task_state (vmaf_thread hp)); try discriminate;
        injection Hstep as <-.
      * apply streaming_outputs_set_worker; auto.
        exact (posts_nothing_vmaf_thread_call (Some j)).
      * apply streaming_outputs_set_worker; auto; exact I.
    + destruct p as [u | a k].
      * injection Hstep as <-.
        apply streaming_outputs_set_worker; auto; exact I.
      * destruct Hj as [Hok Hk].
        apply thread_act_inv in Hstep
          as [(x & w' & Ea & ->) | (t & -> & Ht)].
        -- destruct (act_sem_posts_nothing a _ _ x Hok Ea) as [Eb Eo].
           apply streaming_outputs_set_worker; auto.
           simpl. apply Hk. exact I.
        -- apply streaming_outputs_set_worker; auto.
           destruct a; try contradiction.
           injection Ht as <-. simpl. intros o. apply Hk. exact I.
    + discriminate.
    + destruct Hj as [Hp' Hk'].
      destruct p as [u | a kr].
      * injection Hstep as <-.
        apply streaming_outputs_set_worker; auto.
      * destruct Hp' as [Hok Hk].
        apply thread_act_inv in Hstep
          as [(x & w' & Ea & ->) | (t & -> & Ht)].
        -- destruct (act_sem_posts_nothing a _ _ x Hok Ea) as [Eb Eo].
           apply streaming_outputs_set_worker; auto.
           simpl. split; [apply Hk; exact I | exact Hk'].
        -- destruct a; try contradiction. discriminate Ht.
    + destruct (worker_task c j) as [t |]; [| discriminate].
      destruct (task_running t); [| discriminate].
      injection Hstep as <-.
      apply streaming_outputs_set_worker; auto; exact I.
  - pose proof (Hws j) as Hj.
    destruct (workers c j) as [| | p | h k | p h k |]; try discriminate.
    injection Hstep as <-.
    apply streaming_outputs_set_worker; auto.
    split; [exact (posts_nothing_read_frame stride h) | exact Hj].
  - pose proof (Hws j) as Hj.
    destruct (workers c j) as [| | p | h k | p h k |]; try discriminate.
    injection Hstep as <-.
    assert (Hs : streaming_outputs
                   (set_worker j (WFunc (k (Returned r))) (shared c) c))
      by (apply streaming_outputs_set_worker; auto; apply Hj).
    exact Hs.
  - pose proof (Hws j) as Hj.
    destruct (workers c j) as [| | p | h k | p h k |]; try discriminate.
    injection Hstep as <-.
    assert (Hs : streaming_outputs
                   (set_worker j (WFunc (k (Thrown e))) (shared c) c))
      by (apply streaming_outputs_set_worker; auto; apply Hj).
    exact Hs.
Qed.

Lemma streaming_outputs_mrun {A : Type} (s : list label) (c c' : config A) :
  mrun s c = Some c' -> streaming_outputs c -> streaming_outputs c'.
Proof.
  revert c. induction s as [| l s IH]; intros c Hrun Hc; simpl in Hrun.
  - injection Hrun as <-. exact Hc.
  - destruct (mstep l c) as [c1 |] eqn:E; [| discriminate].
    eapply IH; [exact Hrun |]. eapply streaming_outputs_step; eauto.
Qed.

Lemma compare_frames_posts_no_message (ref cmp : GstVideoFrame) (k : nat) :
  acts (fun a => match a with PostMessage _ => False | _ => True end)
    any_answer (compare_frames ref cmp k).
Proof. unfold compare_frames, compare_frames_body. acts_solve. Qed.

Lemma aggregate_loop_posts_no_message (l : list (option GstVideoFrame))
    (ref : option GstVideoFrame) (res : bool) (k : nat) :
  acts (fun a => match a with PostMessage _ => False | _ => True end)
    any_answer (aggregate_loop l ref res k).
Proof.
  revert ref res k. induction l as [| f l IH]; intros ref res k;
    cbn [aggregate_loop]; [exact I |].
  destruct f as [frame |]; [| apply IH].
  destruct ref as [r0 |]; [| apply IH].
  apply acts_mbind; [apply compare_frames_posts_no_message | intros r; apply IH].
Qed.

(** X15.  Under every interleaving of the streaming thread, the workers and
    the engine, the bus holds exactly the messages the streaming thread has
    posted, in order, and the output buffer is what the streaming thread's
    own writes made it: task function, wrapper and callback post nothing
    and never write the output buffer.  A completed cycle posts one
    message, with the position of the cycle, when it returns GST_FLOW_OK
    and none when it returns GST_FLOW_ERROR. *)
Theorem bus_holds_streaming_thread_messages :
  (forall (cfg : GstVmaf) (l : list pcall) (s : list label) (c : config unit),
     mrun s (element_config cfg l) = Some c ->
     bus (shared c) = posted (plog c) /\
     outbuf (shared c) = outbuf_after (plog c) []) /\
  (forall (sinkpads : list (option GstVideoFrame)) (position : Z)
          (t : list action) (r : GstFlowReturn),
     path (gst_vmaf_aggregate_frames sinkpads position) t r ->
     posted t = match r with
                | GST_FLOW_OK => [position]
                | GST_FLOW_ERROR => []
                end).
Proof.
  split.
  - intros cfg l s c Hrun.
    assert (H0 : streaming_outputs (element_config cfg l)).
    { split; [reflexivity | split; [reflexivity | intros j; exact I]]. }
    destruct (streaming_outputs_mrun s _ c Hrun H0) as (Hb & Ho & _).
    split; assumption.
  - intros sinkpads position t r H. unfold gst_vmaf_aggregate_frames in H.
    apply path_mbind in H as (t1 & res & t2 & H1 & H2 & ->).
    assert (Ht1 : posted t1 = []).
    { assert (Hf : Forall (fun a => match a with
                                     | PostMessage _ => False
                                     | _ => True
                                     end) t1)
        by (eapply acts_path;
            [apply aggregate_loop_posts_no_message | exact H1]).
      clear -Hf. induction Hf as [| a t Ha _ IH]; [reflexivity |].
      destruct a; try contradiction; exact IH. }
    rewrite posted_app, Ht1. destruct (negb res).
    + destruct H2 as [-> ->]. reflexivity.
    + apply path_mbind in H2 as (? & [] & ? & Hp & [-> ->] & ->).
      apply path_act in Hp as ->. reflexivity.
Qed.

(** ** A result whose series are not all as long as the VMAF series *)







(** ** The hand-over of one frame pair, end to end *)

Lemma exec_step_note {A : Type} (eng : option engine_outcome) (e : marker)
    (f : unit -> prog A) (w : world) :
  exec eng (act (Note e) ≫= f) w = after (Note e) (exec eng (f tt) w).
Proof. reflexivity. Qed.

Lemma exec_start_on_started (eng : option engine_outcome) (ref : GstVideoFrame)
    (k : nat) (w : world) (hp : GstVmafThreadHelper) :
  helper w k = Some hp -> frame_width hp <> 0 -> frame_height hp <> 0 ->
  exec eng (start_on_first_frame ref k) w = Done tt w [Load k].
Proof.
  intros Hh Hfw Hfh. unfold start_on_first_frame.
  rewrite (exec_step_load eng k _ w hp Hh).
  destruct (Z.eqb_spec (frame_width hp) 0) as [| _]; [contradiction |].
  destruct (Z.eqb_spec (frame_height hp) 0) as [| _]; [contradiction |].
  reflexivity.
Qed.

Lemma exec_hand_over_frame_offer (eng : option engine_outcome)
    (ref cmp : GstVideoFrame) (k : nat) (w : world) (hp : GstVmafThreadHelper) :
  helper w k = Some hp -> error hp = 0 -> check_error hp = false ->
  wait_frame hp = true -> wait_reading_complete hp = true ->
  exec eng (hand_over_frame ref cmp k) w =
  BlockedAt (MutexLock k m_wait_reading_complete)
    (fun _ => hand_over_rest ref k)
    (set_helper k (offered ref cmp hp) w)
    [MutexLock k m_check_error; Load k; MutexUnlock k m_check_error;
     Store k (set_reading_correct false);
     Store k (set_original_ptr (Some (buffer ref)));
     Store k (set_distorted_ptr (Some (buffer cmp)));
     MutexUnlock k m_wait_frame].
Proof.
  intros Hh He Hce Hwf Hwrc. unfold hand_over_frame, offered.
  set (hp1 := with_mutex m_check_error true hp).
  assert (H1 : helper (set_helper k hp1 w) k = Some hp1)
    by (eapply helper_set_helper_eq; exact Hh).
  rewrite (exec_step_lock eng k m_check_error _ w hp Hh Hce). fold hp1.
  rewrite (exec_step_load eng k _ _ hp1 H1).
  change (error hp1) with (error hp). rewrite He. cbn [Z.eqb negb].
  rewrite (exec_step_unlock eng k m_check_error _ _ hp1 H1 eq_refl),
    set_helper_twice.
  set (hp2 := with_mutex m_check_error false hp1).
  assert (H2 : helper (set_helper k hp2 w) k = Some hp2)
    by (eapply helper_set_helper_eq; exact Hh).
  rewrite (exec_step_store eng k _ _ _ hp2 H2), set_helper_twice.
  set (hp3 := apply_update (set_reading_correct false) hp2).
  assert (H3 : helper (set_helper k hp3 w) k = Some hp3)
    by (eapply helper_set_helper_eq; exact Hh).
  rewrite (exec_step_store eng k _ _ _ hp3 H3), set_helper_twice.
  set (hp4 := apply_update (set_original_ptr (Some (buffer ref))) hp3).
  assert (H4 : helper (set_helper k hp4 w) k = Some hp4)
    by (eapply helper_set_helper_eq; exact Hh).
  rewrite (exec_step_store eng k _ _ _ hp4 H4), set_helper_twice.
  set (hp5 := apply_update (set_distorted_ptr (Some (buffer cmp))) hp4).
  assert (H5 : helper (set_helper k hp5 w) k = Some hp5)
    by (eapply helper_set_helper_eq; exact Hh).
  rewrite (exec_step_unlock eng k m_wait_frame _ _ hp5 H5 Hwf),
    set_helper_twice.
  set (hp6 := with_mutex m_wait_frame false hp5).
  assert (H6 : helper (set_helper k hp6 w) k = Some hp6)
    by (eapply helper_set_helper_eq; exact Hh).
  unfold g_mutex_lock.
  cbn [mbind prog_bind act bind exec act_sem_with act_sem].
  unfold on_helper. rewrite H6.
  change (mutex_locked m_wait_reading_complete hp6)
    with (wait_reading_complete hp).
  rewrite Hwrc. reflexivity.
Qed.

Lemma exec_hand_over_rest_copy (eng : option engine_outcome)
    (ref : GstVideoFrame) (k : nat) (w : world) (hp : GstVmafThreadHelper) :
  helper w k = Some hp -> reading_correct hp = true ->
  exec eng (hand_over_rest ref k) w =
  Done true (with_outbuf (buffer ref ++ drop (length (buffer ref)) (outbuf w)) w)
    [Load k; WriteOut (buffer ref)].
Proof.
  intros Hh Hrc. unfold hand_over_rest.
  rewrite (exec_step_load eng k _ w hp Hh), Hrc. reflexivity.
Qed.

(** X17.  One frame pair, end to end, for a stream whose worker is started
    and idle: both signal mutexes are held.  The dispatch stores the frame
    pointers, releases
    [wait_frame] and stops at [wait_reading_complete]; the callback then
    returns 0 after copying, for every position of the frame, the sample of
    the reference buffer and the sample of the comparison buffer; the
    dispatch, resumed, copies the reference frame to the output buffer and
    returns TRUE.  Afterwards both signal mutexes are held again and
    [check_error] is free, as before the dispatch, with error code, geometry
    and task unchanged. *)
Theorem frame_handoff_round_trip (w : world) (stride : Z) (k : nat)
    (hp : GstVmafThreadHelper) (ref cmp : GstVideoFrame) :
  helper w k = Some hp -> error hp = 0 -> check_error hp = false ->
  wait_frame hp = true -> wait_reading_complete hp = true ->
  no_frames hp = false ->
  frame_width hp <> 0 -> frame_height hp <> 0 ->
  let hp3 := with_mutex m_wait_reading_complete true
               (copied (offered ref cmp hp)) in
  exists K t1 t2 t3,
    exec None (compare_frames ref cmp k) w =
      BlockedAt (MutexLock k m_wait_reading_complete) K
        (set_helper k (offered ref cmp hp) w) t1 /\
    exec None (read_frame stride k) (set_helper k (offered ref cmp hp) w) =
      Done 0 (set_helper k (copied (offered ref cmp hp)) w) t2 /\
    exec None (Act (MutexLock k m_wait_reading_complete) K)
      (set_helper k (copied (offered ref cmp hp)) w) =
      Done true
        (with_outbuf (buffer ref ++ drop (length (buffer ref)) (outbuf w))
           (set_helper k hp3 w)) t3 /\
    (forall i j : nat,
       Z.of_nat i < frame_height hp -> Z.of_nat j < frame_width hp ->
       In (WriteFloat false (Z.of_nat i * (stride / 4) + Z.of_nat j)
             (pixel_at (Some (buffer ref))
                (Z.of_nat i * frame_width hp + Z.of_nat j))) t2 /\
       In (WriteFloat true (Z.of_nat i * (stride / 4) + Z.of_nat j)
             (pixel_at (Some (buffer cmp))
                (Z.of_nat i * frame_width hp + Z.of_nat j))) t2) /\
    dispatch_results (t1 ++ t3) = [(k, true)] /\
    wait_frame hp3 = true /\ wait_reading_complete hp3 = true /\
    check_error hp3 = false /\ error hp3 = 0 /\
    frame_width hp3 = frame_width hp /\ frame_height hp3 = frame_height hp /\
    vmaf_thread hp3 = vmaf_thread hp.
Proof.
  intros Hh He Hce Hwf Hwrc Hnf Hfw Hfh hp3.
  set (hp1 := offered ref cmp hp).
  assert (H1 : helper (set_helper k hp1 w) k = Some hp1)
    by (eapply helper_set_helper_eq; exact Hh).
  assert (H2 : helper (set_helper k (copied hp1) w) k = Some (copied hp1))
    by (eapply helper_set_helper_eq; exact Hh).
  eexists _, _, _, _. split; [| split; [| split; [| split; [| split]]]].
  - unfold compare_frames, compare_frames_body.
    rewrite exec_step_note, !exec_mbind.
    rewrite (exec_start_on_started None ref k w hp Hh Hfw Hfh).
    cbn [after_all].
    rewrite (exec_hand_over_frame_offer None ref cmp k w hp Hh He Hce Hwf Hwrc).
    cbn [after_all after app]. reflexivity.
  - rewrite (exec_read_frame_copy None _ stride k hp1 H1 eq_refl Hnf Hwrc).
    rewrite set_helper_twice. reflexivity.
  - cbn [exec act_sem_with act_sem]. unfold on_helper. rewrite H2.
    cbn [mutex_locked copied with_mutex wait_reading_complete].
    rewrite set_helper_twice. fold hp3.
    assert (H3 : helper (set_helper k hp3 w) k = Some hp3)
      by (eapply helper_set_helper_eq; exact Hh).
    rewrite !exec_bind.
    change (with_mutex m_wait_reading_complete true (copied hp1)) with hp3.
    rewrite (exec_hand_over_rest_copy None ref k _ hp3 H3 eq_refl).
    cbn [after_all after exec act_sem_with act_sem bind mbind prog_bind act app].
    reflexivity.
  - intros i j Hi Hj.
    apply (copy_trace_complete k (with_mutex m_wait_frame true hp1) stride i j)
      in Hi as Hc; [| exact Hj].
    destruct Hc as [Hc1 Hc2].
    split; (apply in_or_app; right; apply in_or_app; left); assumption.
  - reflexivity.
  - repeat split; assumption.
Qed.

Lemma frame_handoff_round_trip_witness :
  exists K t1 t2 t3 w3,
    exec None (compare_frames frame_a frame_b 0) (world_of [idle_helper]) =
      BlockedAt (MutexLock 0 m_wait_reading_complete) K
        (set_helper 0 (offered frame_a frame_b idle_helper)
           (world_of [idle_helper])) t1 /\
    exec None (read_frame 8 0)
      (set_helper 0 (offered frame_a frame_b idle_helper)
         (world_of [idle_helper])) =
      Done 0
        (set_helper 0 (copied (offered frame_a frame_b idle_helper))
           (world_of [idle_helper])) t2 /\
    exec None (Act (MutexLock 0 m_wait_reading_complete) K)
      (set_helper 0 (copied (offered frame_a frame_b idle_helper))
         (world_of [idle_helper])) = Done true w3 t3 /\
    outbuf w3 = buffer frame_a /\
    dispatch_results (t1 ++ t3) = [(0%nat, true)].
Proof.
  destruct (frame_handoff_round_trip (world_of [idle_helper]) 8 0
              idle_helper frame_a frame_b eq_refl eq_refl eq_refl eq_refl
              eq_refl eq_refl ltac:(discriminate) ltac:(discriminate))
    as (K & t1 & t2 & t3 & H1 & H2 & H3 & _ & Hres & _).
  exists K, t1, t2, t3. eexists. split; [exact H1 |]. split; [exact H2 |].
  split; [exact H3 |]. split; [reflexivity | exact Hres].
Defined.

(** ** A worker that fails while the dispatch waits *)

Lemma exec_vmaf_thread_call_end (eng : option engine_outcome) (err : Z)
    (w : world) (h : nat) (hp : GstVmafThreadHelper) :
  helper w h = Some hp -> check_error hp = false ->
  wait_reading_complete hp = true ->
  exec eng (vmaf_thread_call_end h err) w =
  Done tt
    (with_stdout (stdout w ++ [sink_line (finished err hp)])
       (set_helper h (finished err hp) w))
    [MutexLock h m_check_error; Store h (set_error err);
     MutexUnlock h m_check_error; MutexUnlock h m_wait_reading_complete;
     Load h; Printf (sink_line (finished err hp))].
Proof.
  intros Hh Hce Hwrc. unfold vmaf_thread_call_end, finished.
  set (hp1 := with_mutex m_check_error true hp).
  assert (H1 : helper (set_helper h hp1 w) h = Some hp1)
    by (eapply helper_set_helper_eq; eauto).
  set (hp2 := apply_update (set_error err) hp1).
  assert (H2 : helper (set_helper h hp2 w) h = Some hp2)
    by (eapply helper_set_helper_eq; eauto).
  set (hp3 := with_mutex m_check_error false hp2).
  assert (H3 : helper (set_helper h hp3 w) h = Some hp3)
    by (eapply helper_set_helper_eq; eauto).
  set (hp4 := with_mutex m_wait_reading_complete false hp3).
  assert (H4 : helper (set_helper h hp4 w) h = Some hp4)
    by (eapply helper_set_helper_eq; eauto).
  rewrite (exec_step_lock eng h m_check_error _ w hp Hh Hce). fold hp1.
  rewrite (exec_step_store eng h _ _ _ hp1 H1), set_helper_twice. fold hp2.
  rewrite (exec_step_unlock eng h m_check_error _ _ hp2 H2 eq_refl),
    set_helper_twice. fold hp3.
  rewrite (exec_step_unlock eng h m_wait_reading_complete _ _ hp3 H3 Hwrc),
    set_helper_twice. fold hp4.
  rewrite (exec_step_load eng h _ _ hp4 H4).
  unfold sink_line.
  destruct (negb (error hp4 =? 0)); rewrite exec_printf; reflexivity.
Qed.

Lemma exec_vmaf_thread_call_thrown (e : exception) (w : world) (h : nat)
    (hp : GstVmafThreadHelper) :
  helper w h = Some hp -> error hp = 0 -> check_error hp = false ->
  wait_reading_complete hp = true ->
  exists t,
    exec (Some (Thrown e)) (vmaf_thread_call (Some h)) w =
    Done tt
      (with_stdout
         (stdout w ++ [caught_line e; sink_line (finished (exception_code e) hp)])
         (set_helper h (finished (exception_code e) hp) w)) t.
Proof.
  intros Hh He Hce Hwrc. unfold vmaf_thread_call.
  set (hp1 := with_mutex m_check_error true hp).
  assert (H1 : helper (set_helper h hp1 w) h = Some hp1)
    by (eapply helper_set_helper_eq; exact Hh).
  rewrite (exec_step_lock _ h m_check_error _ w hp Hh Hce). fold hp1.
  rewrite (exec_step_load _ h _ _ hp1 H1). cbv zeta.
  rewrite (exec_step_unlock _ h m_check_error _ _ hp1 H1 eq_refl),
    set_helper_twice.
  change (error hp1) with (error hp). rewrite He. cbn [Z.eqb negb].
  assert (Hhp : with_mutex m_check_error false hp1 = hp).
  { subst hp1. destruct hp. simpl in Hce. subst. reflexivity. }
  rewrite Hhp, (set_helper_same w h hp Hh).
  rewrite exec_mbind.
  destruct (RunVMAF_thrown e w h hp Hh) as (code & w' & t & -> & _ & _ & -> & ->).
  cbv beta iota.
  rewrite (exec_vmaf_thread_call_end _ _ _ h hp);
    [| exact Hh | exact Hce | exact Hwrc].
  cbn [after after_all].
  destruct e; cbn [caught_line exception_code]; unfold with_stdout, set_helper,
    with_helpers; cbn [stdout self helper_struct_pointer files bus outbuf
                         number_of_vmaf_threads];
    rewrite <- app_assoc; eexists; reflexivity.
Qed.

Lemma exec_try_thread_stop_started {A : Type} (eng : option engine_outcome)
    (i : nat) (f : bool -> prog A) (w : world) (hp : GstVmafThreadHelper) :
  helper w i = Some hp -> task_state (vmaf_thread hp) = GST_TASK_STARTED ->
  exec eng (try_thread_stop i ≫= f) w =
  after (TaskGetState i)
    (after (TaskStop i)
       (exec eng (f true)
          (set_helper i
             (with_task (task_with_state GST_TASK_STOPPED (vmaf_thread hp)) hp)
             w))).
Proof.
  intros Hh Hst. unfold try_thread_stop, gst_task_get_state, gst_task_stop.
  cbn [mbind prog_bind act bind exec act_sem_with act_sem].
  unfold on_helper. rewrite Hh. cbn [after exec bind]. rewrite Hst.
  cbn [GstTaskState_eqb act bind exec act_sem_with act_sem].
  unfold on_helper. rewrite Hh. reflexivity.
Qed.

Lemma exec_hand_over_rest_failed (eng : option engine_outcome)
    (ref : GstVideoFrame) (k : nat) (w : world) (hp : GstVmafThreadHelper) :
  helper w k = Some hp -> reading_correct hp = false ->
  check_error hp = false -> error hp <> 0 ->
  task_state (vmaf_thread hp) = GST_TASK_STARTED ->
  exec eng (hand_over_rest ref k) w =
  Done false
    (set_helper k
       (with_mutex m_check_error false
          (with_task (task_with_state GST_TASK_STOPPED (vmaf_thread hp))
             (with_mutex m_check_error true hp))) w)
    [Load k; MutexLock k m_check_error; Load k; TaskGetState k; TaskStop k;
     MutexUnlock k m_check_error].
Proof.
  intros Hh Hrc Hce He Hst. unfold hand_over_rest.
  rewrite (exec_step_load eng k _ w hp Hh), Hrc.
  set (hp1 := with_mutex m_check_error true hp).
  assert (H1 : helper (set_helper k hp1 w) k = Some hp1)
    by (eapply helper_set_helper_eq; exact Hh).
  rewrite (exec_step_lock eng k m_check_error _ w hp Hh Hce). fold hp1.
  rewrite (exec_step_load eng k _ _ hp1 H1).
  change (error hp1) with (error hp).
  destruct (Z.eqb_spec (error hp) 0) as [| _]; [contradiction |].
  cbn [negb]. rewrite exec_mbind.
  rewrite (exec_try_thread_stop_started eng k _ _ hp1 H1 Hst), set_helper_twice.
  cbn [exec after after_all].
  set (hp2 := with_task (task_with_state GST_TASK_STOPPED (vmaf_thread hp1)) hp1).
  assert (H2 : helper (set_helper k hp2 w) k = Some hp2)
    by (eapply helper_set_helper_eq; exact Hh).
  rewrite (exec_step_unlock eng k m_check_error _ _ hp2 H2 eq_refl),
    set_helper_twice.
  reflexivity.
Qed.

(** X18.  The worker fails while a dispatch waits for it, for a stream
    whose worker was started and idle (both signal mutexes held).  The
    dispatch has offered the pair and stops at [wait_reading_complete]; the
    task function,
    its engine throwing, records the error code and releases
    [wait_reading_complete]; the dispatch, resumed, finds nothing read, sees
    the error code, stops the task, releases [check_error] and returns
    FALSE without writing the output buffer.  Afterwards the task is
    STOPPED, [check_error] is free, and [wait_frame] is still released: the
    offer was never taken. *)
Theorem worker_failure_releases_dispatch (e : exception) (w : world) (k : nat)
    (hp : GstVmafThreadHelper) (ref cmp : GstVideoFrame) :
  helper w k = Some hp -> error hp = 0 -> check_error hp = false ->
  wait_frame hp = true -> wait_reading_complete hp = true ->
  frame_width hp <> 0 -> frame_height hp <> 0 ->
  task_state (vmaf_thread hp) = GST_TASK_STARTED ->
  let hp1 := offered ref cmp hp in
  let hp2 := finished (exception_code e) hp1 in
  let hp3 := given_up hp2 in
  let console := stdout w ++ [caught_line e; sink_line hp2] in
  exists K t1 t2 t3,
    exec None (compare_frames ref cmp k) w =
      BlockedAt (MutexLock k m_wait_reading_complete) K (set_helper k hp1 w) t1 /\
    exec (Some (Thrown e)) (vmaf_thread_call (Some k)) (set_helper k hp1 w) =
      Done tt (with_stdout console (set_helper k hp2 w)) t2 /\
    exec None (Act (MutexLock k m_wait_reading_complete) K)
      (with_stdout console (set_helper k hp2 w)) =
      Done false (with_stdout console (set_helper k hp3 w)) t3 /\
    dispatch_results (t1 ++ t3) = [(k, false)] /\
    task_state (vmaf_thread hp3) = GST_TASK_STOPPED /\
    check_error hp3 = false /\ error hp3 = exception_code e /\
    wait_reading_complete hp3 = true /\ wait_frame hp3 = false.
Proof.
  intros Hh He Hce Hwf Hwrc Hfw Hfh Hst hp1 hp2 hp3 console.
  assert (H1 : helper (set_helper k hp1 w) k = Some hp1)
    by (eapply helper_set_helper_eq; exact Hh).
  destruct (exec_vmaf_thread_call_thrown e (set_helper k hp1 w) k hp1 H1 He
              eq_refl Hwrc) as (t2 & Ht2).
  rewrite set_helper_twice in Ht2.
  eexists _, _, t2, _. split; [| split; [| split; [| split]]].
  - unfold compare_frames, compare_frames_body.
    rewrite exec_step_note, !exec_mbind.
    rewrite (exec_start_on_started None ref k w hp Hh Hfw Hfh).
    cbn [after_all].
    rewrite (exec_hand_over_frame_offer None ref cmp k w hp Hh He Hce Hwf Hwrc).
    cbn [after_all after app]. reflexivity.
  - exact Ht2.
  - assert (H2 : helper (with_stdout console (set_helper k hp2 w)) k = Some hp2)
      by (exact (helper_set_helper_eq w k hp hp2 Hh)).
    cbn [exec act_sem_with act_sem]. unfold on_helper. rewrite H2.
    change (mutex_locked m_wait_reading_complete hp2) with false.
    cbv iota.
    set (hp2' := with_mutex m_wait_reading_complete true hp2).
    set (w2' := set_helper k _ (with_stdout console (set_helper k hp2 w))).
    assert (H2' : helper w2' k = Some hp2')
      by (exact (helper_set_helper_eq _ k hp2 hp2' H2)).
    rewrite !exec_bind.
    rewrite (exec_hand_over_rest_failed None ref k w2' hp2' H2' eq_refl eq_refl).
    + cbn [after_all after exec act_sem_with act_sem bind mbind prog_bind act app].
      subst w2'. unfold set_helper, with_helpers, with_stdout.
      cbn [stdout self helper_struct_pointer files bus outbuf
             number_of_vmaf_threads].
      rewrite !list_insert_insert_eq. reflexivity.
    + change (error hp2') with (exception_code e). destruct e; discriminate.
    + exact Hst.
  - reflexivity.
  - repeat split.
Qed.

Lemma worker_failure_releases_dispatch_witness :
  exists K t1 t3 w3,
    exec None (compare_frames frame_a frame_b 0) (world_of [idle_helper]) =
      BlockedAt (MutexLock 0 m_wait_reading_complete) K
        (set_helper 0 (offered frame_a frame_b idle_helper)
           (world_of [idle_helper])) t1 /\
    exec None (Act (MutexLock 0 m_wait_reading_complete) K)
      (final_world
         (exec (Some (Thrown (runtime_error "no model")))
            (vmaf_thread_call (Some 0%nat))
            (set_helper 0 (offered frame_a frame_b idle_helper)
               (world_of [idle_helper])))) = Done false w3 t3 /\
    option_map (fun h => (task_state (vmaf_thread h), error h, check_error h))
      (helper w3 0) = Some (GST_TASK_STOPPED, -3, false).
Proof.
  destruct (worker_failure_releases_dispatch (runtime_error "no model")
              (world_of [idle_helper]) 0 idle_helper frame_a frame_b
              eq_refl eq_refl eq_refl eq_refl eq_refl ltac:(discriminate)
              ltac:(discriminate) eq_refl)
    as (K & t1 & t2 & t3 & H1 & H2 & H3 & _).
  exists K, t1, t3. eexists. split; [exact H1 |]. split.
  - rewrite H2. exact H3.
  - reflexivity.
Defined.

(** ** Deactivation when no worker thread runs *)

Lemma with_helpers_same (w : world) (l : list GstVmafThreadHelper) :
  helper_struct_pointer w = l -> with_helpers l w = w.
Proof. intros <-. destruct w. reflexivity. Qed.

Lemma exec_for_loop_helpers (eng : option engine_outcome)
    (body : nat -> prog unit)
    (upd : GstVmafThreadHelper -> GstVmafThreadHelper)
    (tr : nat -> list action) (P : GstVmafThreadHelper -> Prop) :
  (forall i w hp, helper w i = Some hp -> P hp ->
     exec eng (body i) w = Done tt (set_helper i (upd hp) w) (tr i)) ->
  forall (rest done : list GstVmafThreadHelper) (w : world),
    helper_struct_pointer w = done ++ rest -> Forall P rest ->
    exec eng (for_loop (length rest) (length done) body) w =
    Done tt (with_helpers (done ++ map upd rest) w)
      (flat_map tr (seq (length done) (length rest))).
Proof.
  intros Hbody rest. induction rest as [| hp rest IH]; intros done w Hw HP.
  - cbn [length for_loop exec map seq flat_map].
    rewrite with_helpers_same by exact Hw. reflexivity.
  - cbn [length for_loop]. rewrite exec_mbind.
    apply Forall_cons in HP as [Hhp HP].
    assert (Hh : helper w (length done) = Some hp).
    { unfold helper. rewrite Hw. apply list_lookup_middle. reflexivity. }
    rewrite (Hbody _ w hp Hh Hhp).
    assert (Hw' : helper_struct_pointer (set_helper (length done) (upd hp) w) =
                  (done ++ [upd hp]) ++ rest).
    { unfold set_helper, with_helpers. cbn [helper_struct_pointer].
      rewrite Hw, <- app_assoc.
      rewrite (insert_app_r_alt done (hp :: rest)) by reflexivity.
      rewrite Nat.sub_diag. reflexivity. }
    pose proof (IH (done ++ [upd hp]) _ Hw' HP) as Hrest.
    rewrite length_app in Hrest. cbn [length] in Hrest.
    rewrite Nat.add_1_r in Hrest. rewrite Hrest.
    cbn [after_all seq flat_map map].
    rewrite <- app_assoc. reflexivity.
Qed.

Lemma exec_signal (eng : option engine_outcome) (i : nat) (w : world)
    (hp : GstVmafThreadHelper) :
  helper w i = Some hp ->
  exec eng (store i (set_no_frames true) ;;
            g_mutex_trylock i m_wait_frame ;;
            g_mutex_unlock i m_wait_frame) w =
  Done tt (set_helper i (released hp) w) (signal_trace i).
Proof.
  intros Hh.
  set (hp1 := apply_update (set_no_frames true) hp).
  assert (H1 : helper (set_helper i hp1 w) i = Some hp1)
    by (eapply helper_set_helper_eq; exact Hh).
  rewrite (exec_step_store eng i _ _ w hp Hh). fold hp1.
  unfold g_mutex_trylock.
  cbn [mbind prog_bind act bind exec act_sem_with act_sem].
  unfold on_helper. rewrite H1.
  change (mutex_locked m_wait_frame hp1) with (wait_frame hp).
  destruct (wait_frame hp) eqn:Ewf.
  - cbn [bind]. unfold g_mutex_unlock.
    cbn [act exec act_sem_with act_sem]. unfold on_helper. rewrite H1.
    change (mutex_locked m_wait_frame hp1) with (wait_frame hp). rewrite Ewf.
    cbn [after exec]. rewrite set_helper_twice. reflexivity.
  - rewrite set_helper_twice. cbn [bind].
    set (hp2 := with_mutex m_wait_frame true hp1).
    assert (H2 : helper (set_helper i hp2 w) i = Some hp2)
      by (eapply helper_set_helper_eq; exact Hh).
    unfold g_mutex_unlock.
    cbn [act exec act_sem_with act_sem]. unfold on_helper. rewrite H2.
    change (mutex_locked m_wait_frame hp2) with true. cbv iota.
    cbn [after exec]. rewrite set_helper_twice.
    assert (E : with_mutex m_wait_frame false hp2 = released hp)
      by (subst hp2 hp1; destruct hp; reflexivity).
    rewrite E. reflexivity.
Qed.

Lemma exec_join (eng : option engine_outcome) (i : nat) (w : world)
    (hp : GstVmafThreadHelper) :
  helper w i = Some hp -> task_running (vmaf_thread hp) = false ->
  exec eng (gst_task_join i ;; Ret tt) w =
  Done tt (set_helper i (joined hp) w) (join_trace i).
Proof.
  intros Hh Hrun. unfold gst_task_join.
  cbn [mbind prog_bind act bind exec act_sem_with act_sem].
  unfold on_helper. rewrite Hh.
  assert (H1 : helper (set_helper i (joined hp) w) i = Some (joined hp))
    by (eapply helper_set_helper_eq; exact Hh).
  fold (joined hp). rewrite H1.
  change (task_running (vmaf_thread (joined hp)))
    with (task_running (vmaf_thread hp)).
  rewrite Hrun. reflexivity.
Qed.

(** X19.  When no task thread is running (none was ever started, or all
    have left), [vmaf_threads_close] returns TRUE and frees the helpers,
    whatever their number: it first signals the end of the stream to every
    helper ([no_frames] set, [wait_frame] released whether or not it was
    held), only then joins the tasks one by one, and frees the array
    last. *)
Theorem close_returns_when_no_thread_runs (eng : option engine_outcome)
    (w : world) :
  number_of_vmaf_threads w = Z.of_nat (length (helper_struct_pointer w)) ->
  Forall (fun hp => task_running (vmaf_thread hp) = false)
    (helper_struct_pointer w) ->
  exec eng vmaf_threads_close w =
  Done true (with_helpers [] w)
    (LoadNumber ::
     flat_map signal_trace (seq 0 (length (helper_struct_pointer w))) ++
     flat_map join_trace (seq 0 (length (helper_struct_pointer w))) ++
     [FreeHelpers]).
Proof.
  intros Hnum Hrun. unfold vmaf_threads_close.
  cbn [mbind prog_bind act bind exec act_sem_with act_sem].
  change (exec eng
            (bind (Ret (number_of_vmaf_threads w)) ?f) w)
    with (exec eng (f (number_of_vmaf_threads w)) w).
  cbn [bind]. rewrite Hnum, Nat2Z.id.
  set (l := helper_struct_pointer w) in *.
  rewrite exec_mbind.
  pose proof (exec_for_loop_helpers eng _ released signal_trace (fun _ => True)
                (fun i w0 hp Hh _ => exec_signal eng i w0 hp Hh)
                l [] w eq_refl
                (proj2 (Forall_forall _ l) (fun _ _ => I))) as Hsignal.
  cbn [length app] in Hsignal. rewrite Hsignal.
  cbn [after_all app length].
  rewrite exec_mbind.
  assert (Hrun' : Forall (fun hp => task_running (vmaf_thread hp) = false)
                    (map released l)).
  { clear -Hrun. induction Hrun as [| hp l' Hhp _ IH]; [constructor |].
    cbn [map]. constructor; [exact Hhp | exact IH]. }
  pose proof (exec_for_loop_helpers eng _ joined join_trace
                (fun hp => task_running (vmaf_thread hp) = false)
                (fun i w0 hp Hh Hr => exec_join eng i w0 hp Hh Hr)
                (map released l) [] (with_helpers (map released l) w)
                eq_refl Hrun') as Hjoin.
  rewrite length_map in Hjoin. cbn [length app] in Hjoin.
  rewrite Hjoin. cbn [after_all after exec act_sem_with act_sem bind].
  reflexivity.
Qed.

Lemma close_returns_when_no_thread_runs_witness :
  exec None vmaf_threads_close (opened_world gst_vmaf_init 3) =
  Done true (with_helpers [] (opened_world gst_vmaf_init 3))
    [LoadNumber;
     Store 0 (set_no_frames true); MutexTrylock 0 m_wait_frame;
     MutexUnlock 0 m_wait_frame;
     Store 1 (set_no_frames true); MutexTrylock 1 m_wait_frame;
     MutexUnlock 1 m_wait_frame;
     TaskStop 0; TaskWait 0; TaskStop 1; TaskWait 1; FreeHelpers].
Proof.
  apply (close_returns_when_no_thread_runs None (opened_world gst_vmaf_init 3)).
  - reflexivity.
  - repeat constructor.
Defined.

(** ** The output buffer after a cycle *)

Lemma outbuf_after_hands_nothing (t : list action) (b : list Z) :
  Forall hands_nothing t -> outbuf_after t b = b.
Proof.
  intros H. revert b. induction H as [| a t Ha _ IH]; intros b; [reflexivity |].
  destruct a; try contradiction; apply IH.
Qed.

Lemma write_out_twice (data b : list Z) :
  data ++ drop (length data) (data ++ drop (length data) b) =
  data ++ drop (length data) b.
Proof. rewrite drop_app_length. reflexivity. Qed.

Lemma compare_frames_outbuf (ref cmp : GstVideoFrame) (k : nat)
    (t : list action) (r : bool) (b : list Z) :
  path (compare_frames ref cmp k) t r ->
  outbuf_after t b =
  if r then buffer ref ++ drop (length (buffer ref)) b else b.
Proof.
  intros H. unfold compare_frames in H.
  apply path_mbind in H as (? & [] & ? & H1 & H & ->).
  apply path_act in H1 as ->.
  apply path_mbind in H as (tb & res & ? & Hb & H & ->).
  apply path_mbind in H as (? & [] & ? & H1 & H & ->).
  apply path_act in H1 as ->. destruct H as [-> ->].
  unfold compare_frames_body in Hb.
  apply path_mbind in Hb as (start & [] & th & Hs & Hh & ->).
  assert (Hstart : Forall hands_nothing start)
    by (eapply acts_path;
        [apply start_on_first_frame_hands_nothing | exact Hs]).
  rewrite !outbuf_after_app.
  change (outbuf_after [Note (call_compare_frames k)] b) with b.
  rewrite (outbuf_after_hands_nothing start b Hstart).
  apply hand_over_frame_paths in Hh
    as [[-> Hn] | (tail & -> & [[-> ->] | [-> Htail]])].
  - rewrite (outbuf_after_hands_nothing th b Hn). reflexivity.
  - reflexivity.
  - rewrite outbuf_after_app.
    change (outbuf_after (offer_trace ref cmp k) b) with b.
    rewrite (outbuf_after_hands_nothing tail b Htail). reflexivity.
Qed.

Lemma aggregate_loop_outbuf (l : list (option GstVideoFrame))
    (ref : GstVideoFrame) (res : bool) (k : nat) (t : list action) (r : bool)
    (b : list Z) :
  path (aggregate_loop l (Some ref) res k) t r ->
  (outbuf_after t b = b \/
   outbuf_after t b = buffer ref ++ drop (length (buffer ref)) b) /\
  (r = true ->
   res = true /\
   (prepared_frames l <> [] ->
    outbuf_after t b = buffer ref ++ drop (length (buffer ref)) b)).
Proof.
  revert res k t b. induction l as [| f l IH]; intros res k t b H;
    cbn [aggregate_loop] in H.
  - destruct H as [-> ->]. split; [left; reflexivity |].
    intros ->. split; [reflexivity |]. intros Hne. contradiction Hne. reflexivity.
  - rewrite prepared_frames_cons. destruct f as [frame |].
    + apply path_mbind in H as (t1 & r1 & t2 & H1 & H2 & ->).
      rewrite outbuf_after_app.
      rewrite (compare_frames_outbuf ref frame k t1 r1 b H1).
      destruct (IH _ _ _ (if r1 then buffer ref ++ drop (length (buffer ref)) b
                          else b) H2) as [Hany Htrue].
      split.
      * destruct r1; destruct Hany as [-> | ->]; rewrite ?write_out_twice; auto.
      * intros ->. destruct (Htrue eq_refl) as [Hres Hw].
        apply andb_true_iff in Hres as [-> ->]. split; [reflexivity |].
        intros _. destruct Hany as [-> | ->]; rewrite ?write_out_twice;
          reflexivity.
    + exact (IH _ _ _ _ H).
Qed.

(** X20.  The output buffer of a cycle.  Every write of a cycle puts the
    cycle's reference frame at the front of the output buffer, so after the
    cycle the buffer either is as before or begins with the reference
    frame; when the cycle returns GST_FLOW_OK and there was a comparison
    frame, it begins with the reference frame.  With fewer than two
    prepared frames the cycle does not write the buffer. *)
Theorem output_is_reference_frame (sinkpads : list (option GstVideoFrame))
    (position : Z) (t : list action) (r : GstFlowReturn) (b : list Z) :
  path (gst_vmaf_aggregate_frames sinkpads position) t r ->
  match prepared_frames sinkpads with
  | ref :: cmps =>
      (outbuf_after t b = b \/
       outbuf_after t b = buffer ref ++ drop (length (buffer ref)) b) /\
      (cmps = [] -> outbuf_after t b = b) /\
      (r = GST_FLOW_OK -> cmps <> [] ->
       outbuf_after t b = buffer ref ++ drop (length (buffer ref)) b)
  | [] => outbuf_after t b = b
  end.
Proof.
  unfold gst_vmaf_aggregate_frames. intros H.
  apply path_mbind in H as (t1 & res & t2 & H1 & H2 & ->).
  rewrite outbuf_after_app.
  assert (Ht2 : forall b', outbuf_after t2 b' = b' /\
                           (r = GST_FLOW_OK -> res = true)).
  { intros b'. destruct res; cbn [negb] in H2.
    - apply path_mbind in H2 as (? & [] & ? & Hp & [-> ->] & ->).
      apply path_act in Hp as ->. split; reflexivity.
    - destruct H2 as [-> ->]. split; [reflexivity | discriminate]. }
  rewrite (proj1 (Ht2 _)).
  assert (Hskip : forall l t0 r0,
            path (aggregate_loop l None true 0) t0 r0 ->
            match prepared_frames l with
            | ref :: cmps =>
                exists l', path (aggregate_loop l' (Some ref) true 0) t0 r0 /\
                           prepared_frames l' = cmps
            | [] => t0 = [] /\ r0 = true
            end).
  { clear. induction l as [| f l IH]; intros t0 r0 H0; cbn [aggregate_loop] in H0.
    - exact H0.
    - rewrite prepared_frames_cons. destruct f as [frame |].
      + exists l. split; [exact H0 | reflexivity].
      + apply IH. exact H0. }
  apply Hskip in H1. destruct (prepared_frames sinkpads) as [| ref cmps].
  - destruct H1 as [-> _]. reflexivity.
  - destruct H1 as (l' & Hl' & <-).
    destruct (aggregate_loop_outbuf l' ref true 0 t1 res b Hl') as [Hany Htrue].
    split; [exact Hany |]. split.
    + intros Hnil. destruct Hany as [E | E]; [exact E |].
      clear -Hl' Hnil. revert t1 Hl'.
      induction l' as [| f l' IH]; intros t1 Hl'; cbn [aggregate_loop] in Hl'.
      * destruct Hl' as [-> _]. reflexivity.
      * rewrite prepared_frames_cons in Hnil. destruct f; [discriminate |].
        apply IH; assumption.
    + intros Hok Hne. apply Htrue; [apply (proj2 (Ht2 b)); exact Hok | exact Hne].
Qed.

Lemma output_is_reference_frame_witness :
  let t := trace_of (exec None
                       (gst_vmaf_aggregate_frames [Some frame_a; Some frame_b] 7)
                       (world_of [errored_helper])) in
  outbuf_after t [] = [] \/
  outbuf_after t [] = buffer frame_a ++ drop (length (buffer frame_a)) [].
Proof.
  intros t.
  apply (output_is_reference_frame [Some frame_a; Some frame_b] 7 t
           GST_FLOW_ERROR []).
  apply (path_exec None _ (world_of [errored_helper])
           world_after_failed_dispatch).
  vm_compute. reflexivity.
Defined.

(** ** No failure without an exception *)

Lemma acts_to_bind {A B : Type} (ok : action -> Prop)
    (cont : forall a : action, answer a -> Prop) (P : A -> Prop)
    (Q : B -> Prop) (p : prog A) (f : A -> prog B) :
  acts_to ok cont P p -> (forall a, P a -> acts_to ok cont Q (f a)) ->
  acts_to ok cont Q (bind p f).
Proof.
  intros Hp Hf. induction p as [a | a k IH]; simpl in *.
  - apply Hf. exact Hp.
  - destruct Hp as [Ha Hk]. split; [exact Ha |].
    intros x Hx. apply IH. apply Hk. exact Hx.
Qed.

Lemma acts_to_acts {A : Type} (ok : action -> Prop)
    (cont : forall a : action, answer a -> Prop) (P : A -> Prop) (p : prog A) :
  acts_to ok cont P p -> acts ok cont p.
Proof.
  induction p as [a | a k IH]; simpl; [auto |].
  intros [Ha Hk]. split; [exact Ha |]. intros x Hx. apply IH, Hk, Hx.
Qed.

Lemma acts_rets_to {A : Type} (ok : action -> Prop)
    (cont : forall a : action, answer a -> Prop) (P : A -> Prop) (p : prog A) :
  acts ok cont p -> rets P p -> acts_to ok cont P p.
Proof.
  induction p as [a | a k IH]; simpl; [auto |].
  intros [Ha Hk] Hr. split; [exact Ha |].
  intros x Hx. apply IH; [apply Hk, Hx | apply Hr].
Qed.

Lemma rets_weaken {A : Type} (P Q : A -> Prop) (p : prog A) :
  (forall a, P a -> Q a) -> rets P p -> rets Q p.
Proof.
  intros HPQ. induction p as [a | a k IH]; simpl; [apply HPQ |].
  intros H x. apply IH, H.
Qed.

Lemma error_safe_RunVMAF_finish (i h : nat) (cfg : GstVmaf) (width height : Z)
    (r : Result) :
  error_safe i (RunVMAF_finish h cfg width height r).
Proof.
  unfold error_safe. acts_solve; simpl; auto.
Qed.

Lemma RunVMAF_code (i h : nat) :
  acts_to (keeps_error i) (unless_thrown i) (fun code => h <> i \/ code = 0)
    (RunVMAF h).
Proof.
  unfold RunVMAF.
  cbn [mbind prog_bind act bind acts_to].
  split; [exact I |]. intros hp _.
  split; [exact I |]. intros cfg _.
  split; [exact I |]. intros o Ho. cbn [bind].
  destruct o as [r | e].
  - apply acts_rets_to; [apply error_safe_RunVMAF_finish |].
    eapply rets_weaken; [| apply RunVMAF_finish_returns_0].
    intros code ->. right. reflexivity.
  - simpl in Ho.
    destruct e; cbn [mbind prog_bind act bind acts_to printf];
      (split; [exact I |]); intros _ _; left; exact Ho.
Qed.

Lemma error_safe_vmaf_thread_call (i : nat) (vs : option nat) :
  error_safe i (vmaf_thread_call vs).
Proof.
  unfold error_safe, vmaf_thread_call. destruct vs as [h |]; [| exact I].
  apply acts_act_bind; [exact I | intros ? ?].
  apply acts_act_bind; [exact I | intros hp ?]. cbv zeta.
  apply acts_act_bind; [exact I | intros ? ?].
  destruct (negb (error hp =? 0)); [exact I |].
  apply (acts_to_acts _ _ (fun _ => True)).
  apply (acts_to_bind _ _ (fun code => h <> i \/ code = 0));
    [apply RunVMAF_code |].
  intros err Herr. apply acts_rets_to.
  - unfold vmaf_thread_call_end. acts_solve; simpl; auto.
  - clear. unfold vmaf_thread_call_end.
    repeat (apply rets_mbind; intros ?). 
    match goal with |- rets _ (if ?b then _ else _) => destruct b end;
      intros ?; exact I.
Qed.

Lemma error_safe_read_frame (i : nat) (stride : Z) (h : nat) :
  error_safe i (read_frame stride h).
Proof. unfold error_safe, read_frame, read_frame_row. acts_solve. Qed.

Lemma error_safe_compare_frames (i : nat) (ref cmp : GstVideoFrame) (j : nat) :
  error_safe i (compare_frames ref cmp j).
Proof.
  unfold error_safe, compare_frames, compare_frames_body. acts_solve.
Qed.

Lemma error_safe_aggregate_loop (i : nat) (l : list (option GstVideoFrame))
    (ref_frame : option GstVideoFrame) (res : bool) (j : nat) :
  error_safe i (aggregate_loop l ref_frame res j).
Proof.
  revert ref_frame res j.
  induction l as [| [f |] l IH]; intros ref_frame res j; cbn [aggregate_loop].
  - exact I.
  - destruct ref_frame as [r |]; [| apply IH].
    apply acts_mbind; [apply error_safe_compare_frames | intros b; apply IH].
  - apply IH.
Qed.

Lemma error_safe_open (i n : nat) : error_safe i (vmaf_threads_open n).
Proof.
  unfold error_safe, vmaf_threads_open. acts_solve. simpl.
  intros hp Hhp. apply list_lookup_fmap_Some in Hhp as (k & -> & _).
  reflexivity.
Qed.

Lemma error_safe_close (i : nat) : error_safe i vmaf_threads_close.
Proof. unfold error_safe, vmaf_threads_close. acts_solve. Qed.

Lemma error_safe_pipeline_prog (i : nat) (l : list pcall) :
  error_safe i (pipeline_prog l).
Proof.
  induction l as [| c l IH]; cbn [pipeline_prog]; [exact I |].
  apply acts_mbind; [| intros _; exact IH].
  destruct c as [n tr | pads pos]; cbn [pcall_prog].
  - unfold gst_vmaf_change_state.
    apply acts_mbind; [| intros _].
    + destruct tr; try exact I.
      apply acts_mbind; [apply error_safe_open | intros _; exact I].
    + destruct tr; try exact I.
      apply acts_mbind; [apply error_safe_close | intros _; exact I].
  - apply acts_mbind; [| intros _; exact I].
    unfold gst_vmaf_aggregate_frames.
    apply acts_mbind; [apply error_safe_aggregate_loop |].
    intros res. acts_solve.
Qed.

Lemma act_sem_answer_not_thrown (i : nat) (a : action) (w w' : world)
    (x : answer a) :
  act_sem a w = Stepped x w' -> unless_thrown i a x.
Proof. intros H. destruct a; try exact I. simpl in H. discriminate H. Qed.

Lemma act_sem_keeps_error (i : nat) (a : action) (w w' : world) (x : answer a) :
  act_sem a w = Stepped x w' -> keeps_error i a ->
  (forall hp, helper w i = Some hp -> error hp = 0) ->
  forall hp, helper w' i = Some hp -> error hp = 0.
Proof.
  intros H Hok Hw hp Hhp.
  act_sem_inv H; simpl in *;
    try (apply Hw; exact Hhp);
    try (apply helper_set_helper_inv in Hhp as [(-> & ->) | (_ & Hhp)];
         [| apply Hw; exact Hhp]; simpl; try (apply Hw; assumption)).
  - destruct u; simpl; try (apply Hw; assumption).
    destruct Hok as [Hne | ->]; [contradiction Hne; reflexivity | reflexivity].
  - apply Hok. exact Hhp.
  - unfold helper in Hhp. simpl in Hhp. discriminate Hhp.
Qed.

Lemma error_untouched_set_worker {A : Type} (i j : nat) (t : wthread)
    (w : world) (c : config A) :
  error_safe i (pipeline c) ->
  (forall j', wthread_error_safe i (workers c j')) ->
  (forall hp, helper w i = Some hp -> error hp = 0) ->
  wthread_error_safe i t ->
  error_untouched i (set_worker j t w c).
Proof.
  intros Hp Hws Hw Ht. split; [| split]; simpl.
  - exact Hw.
  - exact Hp.
  - intros j'. destruct (j' =? j)%nat; [exact Ht | apply Hws].
Qed.

Lemma error_untouched_step {A : Type} (i : nat) (l : label) (c c' : config A) :
  mstep l c = Some c' -> error_untouched i c ->
  error_untouched i c' \/ exists e, In (i, Thrown e) (elog c').
Proof.
  intros Hstep (Hw & Hp & Hws).
  destruct l as [| j | j stride | j r | j e]; unfold mstep in Hstep.
  - (* the pipeline thread *)
    destruct (pipeline c) as [a | a k] eqn:Ep; [discriminate |].
    destruct (act_sem a (shared c)) as [x w' | |] eqn:Ea; try discriminate.
    injection Hstep as <-. left.
    destruct Hp as [Hok Hk]. split; [| split]; simpl.
    + eapply act_sem_keeps_error; eauto.
    + apply Hk. eapply act_sem_answer_not_thrown; eauto.
    + exact Hws.
  - (* a worker thread *)
    pose proof (Hws j) as Hj.
    destruct (workers c j) as [| | p | h k | p h k |] eqn:Ew.
    + destruct (worker_task c j) as [t |]; [| discriminate].
      destruct (task_running t); [| discriminate].
      injection Hstep as <-. left.
      apply error_untouched_set_worker; auto; exact I.
    + unfold task_loop in Hstep.
      destruct (helper (shared c) j) as [hp |] eqn:Eh; [| discriminate].
      destruct (task_state (vmaf_thread hp)); try discriminate;
        injection Hstep as <-; left.
      * apply error_untouched_set_worker; auto.
        exact (error_safe_vmaf_thread_call i (Some j)).
      * apply error_untouched_set_worker; auto.
        intros hp' Hhp'.
        apply helper_set_helper_inv in Hhp' as [(-> & ->) | (_ & Hhp')];
          [| apply Hw; exact Hhp'].
        simpl. apply Hw. exact Eh.
    + destruct p as [u | a k].
      * injection Hstep as <-. left.
        apply error_untouched_set_worker; auto; exact I.
      * apply thread_act_inv in Hstep
          as [(x & w' & Ea & ->) | (t & -> & Ht)];
          left; destruct Hj as [Hok Hk].
        -- apply error_untouched_set_worker; auto.
           ++ eapply act_sem_keeps_error; eauto.
           ++ simpl. apply Hk. eapply act_sem_answer_not_thrown; eauto.
        -- apply error_untouched_set_worker; auto.
           destruct a; try contradiction.
           injection Ht as <-. simpl. exact Hk.
    + discriminate.
    + destruct Hj as [Hp' Hk'].
      destruct p as [u | a kr].
      * injection Hstep as <-. left.
        apply error_untouched_set_worker; auto.
      * apply thread_act_inv in Hstep
          as [(x & w' & Ea & ->) | (t & -> & Ht)]; left.
        -- destruct Hp' as [Hok Hk].
           apply error_untouched_set_worker; auto.
           ++ eapply act_sem_keeps_error; eauto.
           ++ simpl. split; [| exact Hk'].
              apply Hk. eapply act_sem_answer_not_thrown; eauto.
        -- destruct a; try contradiction. discriminate Ht.
    + destruct (worker_task c j) as [t |]; [| discriminate].
      destruct (task_running t); [| discriminate].
      injection Hstep as <-. left.
      apply error_untouched_set_worker; auto; exact I.
  - (* the engine calls the callback *)
    pose proof (Hws j) as Hj.
    destruct (workers c j) as [| | p | h k | p h k |]; try discriminate.
    injection Hstep as <-. left.
    apply error_untouched_set_worker; auto.
    split; [exact (error_safe_read_frame i stride h) | exact Hj].
  - (* the engine returns *)
    pose proof (Hws j) as Hj.
    destruct (workers c j) as [| | p | h k | p h k |]; try discriminate.
    injection Hstep as <-. left.
    assert (Hs : error_untouched i
                   (set_worker j (WFunc (k (Returned r))) (shared c) c)).
    { apply error_untouched_set_worker; auto. simpl. apply Hj. exact I. }
    exact Hs.
  - (* the engine throws *)
    pose proof (Hws j) as Hj.
    destruct (workers c j) as [| | p | h k | p h k |]; try discriminate.
    injection Hstep as <-.
    destruct (decide (h = i)) as [-> | Hne].
    + right. exists e. simpl. apply in_or_app. right. left. reflexivity.
    + left.
      assert (Hs : error_untouched i
                     (set_worker j (WFunc (k (Thrown e))) (shared c) c)).
      { apply error_untouched_set_worker; auto. simpl. apply Hj. exact Hne. }
      exact Hs.
Qed.

Lemma error_untouched_mrun {A : Type} (i : nat) (s : list label) (c c' : config A) :
  mrun s c = Some c' -> error_untouched i c ->
  error_untouched i c' \/ exists e, In (i, Thrown e) (elog c').
Proof.
  revert c. induction s as [| l s IH]; intros c Hrun Hc; simpl in Hrun.
  - injection Hrun as <-. left. exact Hc.
  - destruct (mstep l c) as [c1 |] eqn:E; [| discriminate].
    destruct (error_untouched_step i l c c1 E Hc) as [Hc1 | [r Hr]].
    + eapply IH; eauto.
    + right. exists r. eapply elog_mrun; eauto.
Qed.

Lemma error_untouched_element_config (i : nat) (cfg : GstVmaf) (l : list pcall) :
  error_untouched i (element_config cfg l).
Proof.
  split; [| split]; simpl.
  - intros hp H. unfold helper in H. simpl in H. discriminate H.
  - apply error_safe_pipeline_prog.
  - intros j. exact I.
Qed.

(** X21.  No failure without an exception.  In every interleaving of the
    streaming thread, the worker threads and the engine, under any sequence
    of activations, frames and deactivations, a helper whose [error] field
    is not 0 belongs to a stream whose engine run has thrown: the field is
    set to 0 by [vmaf_threads_open] and the only other write is the return
    code of [RunVMAF] in [vmaf_thread_call], which is 0 unless the run
    throws.  So a reference frame is refused by [compare_frames] only after
    an exception of the engine. *)
Theorem error_set_only_on_exception (cfg : GstVmaf) (l : list pcall)
    (s : list label) (c : config unit) (i : nat) (hp : GstVmafThreadHelper) :
  mrun s (element_config cfg l) = Some c ->
  helper (shared c) i = Some hp ->
  error hp = 0 \/ exists e, In (i, Thrown e) (elog c).
Proof.
  intros Hrun Hhp.
  destruct (error_untouched_mrun i s _ c Hrun
              (error_untouched_element_config i cfg l)) as [(Hw & _) | Hr].
  - left. apply Hw. exact Hhp.
  - right. exact Hr.
Qed.

Lemma error_set_only_on_exception_witness :
  exists c hp,
    mrun failing_start_schedule
      (element_config gst_vmaf_init failing_start_script) = Some c /\
    helper (shared c) 0 = Some hp /\
    error hp = -3 /\
    (error hp = 0 \/ exists e, In (0%nat, Thrown e) (elog c)).
Proof.
  destruct (mrun_observe (fun c => option_map error (helper (shared c) 0))
              failing_start_schedule
              (element_config gst_vmaf_init failing_start_script)
              (Some (-3)))
    as (c & Hrun & Hobs); [vm_compute; reflexivity |].
  destruct (helper (shared c) 0) as [hp |] eqn:Hhp; [| discriminate Hobs].
  exists c, hp.
  split; [exact Hrun |]. split; [exact Hhp |].
  split; [simpl in Hobs; congruence |].
  exact (error_set_only_on_exception gst_vmaf_init failing_start_script
           failing_start_schedule c 0%nat hp Hrun Hhp).
Defined.
